(** * vast-csi: the CSI driver's request handlers and VMS session

    A shallow embedding of [vast_csi/server.py] and [vast_csi/vms_session.py].

    Python values are modelled by records and inductive types, exceptions by
    the type [exn], and everything the handlers do to the outside world (the
    VMS REST API, the host's file system and mount table) by the operations
    of [op].  A handler is a program of type [prog]: a finite tree of
    operations whose continuation receives either the value the operation
    returned or the exception it raised.  [run] executes a program against
    an oracle that answers every operation from the history so far, and
    yields the handler's outcome with the trace of operations it issued. *)

From stdpp Require Import base strings list gmap sorting pretty.
From Stdlib Require Import Ascii ZArith Lia.

Set Warnings "-register-all".

Open Scope string_scope.
Open Scope list_scope.
Open Scope Z_scope.

(** ** Python strings *)

(** [needle in hay] on strings. *)
Fixpoint contains (needle hay : string) : bool :=
  String.prefix needle hay ||
  match hay with
  | EmptyString => false
  | String _ rest => contains needle rest
  end.

(** [s.split(sep)] for a one-character separator: never the empty list. *)
Fixpoint split_on (sep : ascii) (s : string) : list string :=
  match s with
  | EmptyString => [EmptyString]
  | String c rest =>
      if Ascii.eqb c sep then EmptyString :: split_on sep rest
      else match split_on sep rest with
           | [] => [String c EmptyString]
           | w :: ws => String c w :: ws
           end
  end.

(** The ASCII characters [str.strip()] removes. *)
Definition is_space (c : ascii) : bool :=
  let n := nat_of_ascii c in
  ((9 <=? n)%nat && (n <=? 13)%nat) || ((28 <=? n)%nat && (n <=? 32)%nat).

Fixpoint lstrip (s : string) : string :=
  match s with
  | String c rest => if is_space c then lstrip rest else s
  | EmptyString => EmptyString
  end.

Fixpoint rstrip (s : string) : string :=
  match s with
  | EmptyString => EmptyString
  | String c rest =>
      match rstrip rest with
      | EmptyString => if is_space c then EmptyString else String c EmptyString
      | r => String c r
      end
  end.

Definition strip (s : string) : string := lstrip (rstrip s).

(** [sep.join(l)]. *)
Definition join (sep : string) (l : list string) : string := String.concat sep l.

(** [s.replace(a, b)] for one-character [a] and [b]. *)
Fixpoint replace_char (a b : ascii) (s : string) : string :=
  match s with
  | EmptyString => EmptyString
  | String c rest => String (if Ascii.eqb c a then b else c) (replace_char a b rest)
  end.

(** The order [sorted] uses on strings: lexicographic on character codes. *)
Definition str_le (s1 s2 : string) : Prop := String.leb s1 s2 = true.

#[global] Instance str_le_dec (s1 s2 : string) : Decision (str_le s1 s2).
Proof. unfold str_le. apply _. Defined.

(** ** JSON documents, as [json.load] and [Response.json] return them *)

Inductive json :=
| JNull
| JBool (b : bool)
| JNum (n : Z)
| JStr (s : string)
| JArr (items : list json)
| JObj (members : list (string * json)).

(** Truth value of a decoded document ([bool(v)]). *)
Definition truthy (v : json) : bool :=
  match v with
  | JNull => false
  | JBool b => b
  | JNum n => negb (n =? 0)
  | JStr s => negb (String.eqb s "")
  | JArr l => match l with [] => false | _ => true end
  | JObj m => match m with [] => false | _ => true end
  end.

(** [d.get(key)] on a decoded object: [None] stands for Python's [None]. *)
Fixpoint dict_get (key : string) (m : list (string * json)) : option json :=
  match m with
  | [] => None
  | (k, v) :: rest => if String.eqb k key then Some v else dict_get key rest
  end.

(** ** gRPC status codes and Python exceptions *)

Inductive StatusCode :=
| FAILED_PRECONDITION
| INVALID_ARGUMENT
| ALREADY_EXISTS
| NOT_FOUND
| ABORTED
| UNKNOWN
| OUT_OF_RANGE.

(** An HTTP response as the handlers inspect it.  [json_body] is what
    [response.json()] returns; [None] when the body is not a JSON document
    and [json()] raises [JSONDecodeError]. *)
Record Response := {
  status_code : Z;
  reason : string;
  text : string;
  json_body : option json;
}.

(** The exception classes the two modules raise or catch.  [ApiError],
    [MountFailed] and [Abort] come from [exceptions.py]; [str(exc)] of an
    [ApiError] is produced there, so the exception carries its rendering,
    and so do the exceptions of requests ([HTTPError]) and plumbum
    ([ProcessExecutionError]). *)
Inductive exn :=
| Abort (code : StatusCode) (message : string)
| ApiError (response : Response) (rendered : string)
| HTTPError (rendered : string) (response : Response) (path_url : string)
| OSError (msg : string)
| FileNotFoundError (msg : string)
| ProcessExecutionError (stderr rendered : string)
| MountFailed (detail src tgt : string) (mount_options : list string)
| TypeError (msg : string)
| KeyError (key : string)
| AttributeError (msg : string)
| ValueError (msg : string)
| IndexError (msg : string)
| AssertionError
| Exception (msg : string).

(** [isinstance(e, OSError)]: [FileNotFoundError] is a subclass, and so are
    the exceptions of requests (through [IOError]) and plumbum's
    [ProcessExecutionError]. *)
Definition is_OSError (e : exn) : bool :=
  match e with
  | OSError _ | FileNotFoundError _ | HTTPError _ _ _ | ProcessExecutionError _ _ => true
  | _ => false
  end.

(** [str(exc)] where the handlers use it. *)
Definition str_exn (e : exn) : string :=
  match e with
  | Abort _ m => m
  | ApiError _ r => r
  | HTTPError m _ _ => m
  | OSError m | FileNotFoundError m => m
  | ProcessExecutionError _ m => m
  | MountFailed d _ _ _ => d
  | TypeError m | AttributeError m | ValueError m | IndexError m => m
  | KeyError k => "'" +:+ k +:+ "'"
  | AssertionError => ""
  | Exception m => m
  end.

Inductive outcome (A : Type) : Type :=
| Returned (a : A)
| Raised (e : exn).
Arguments Returned {A} a.
Arguments Raised {A} e.

(** ** Objects the VMS and the host return *)

Module Quota.
Record t := mk {
  id : Z;
  name : string;
  path : string;
  hard_limit : Z;
  tenant_id : Z;
}.
End Quota.

Module Vip.
Record t := mk {
  ip : string;
  vippool : string;
  cnode : string;
  title : string;
}.
End Vip.

Module Snap.
Record t := mk {
  id : Z;
  name : string;
  path : string;
  created : string;
  tenant_id : Z;
}.
End Snap.

Module View.
Record t := mk {
  id : Z;
  path : string;
  alias : string;
  tenant_id : Z;
}.
End View.

Module ViewPolicy.
Record t := mk {
  id : Z;
  name : string;
  tenant_id : Z;
}.
End ViewPolicy.

(** A page of a paginated listing, as [ListVolumes] reads it. *)
Module Page.
Record t := mk {
  results : list Quota.t;
  next_token : option string;
}.
End Page.

(** What [utils.get_mount] reports for a mount point. *)
Module Mount.
Record t := mk {
  device : string;
  target : string;
  opts : string;
}.
End Mount.

(** The load-balancing tokens of [easypy.tokens]; [OtherStrategy] is any
    value that equals neither token. *)
Inductive Strategy :=
| ROUNDROBIN
| RANDOM
| OtherStrategy (s : string).

(** An argument of a Python call: left out, or passed. *)
Inductive arg (A : Type) : Type :=
| Omitted
| Given (a : A).
Arguments Omitted {A}.
Arguments Given {A} a.

(** A call [session.get_vip(...)] as written at the call site.  A passed
    [vip_pool_name] or [load_balancing] may be [None]. *)
Record get_vip_args := {
  kw_vip_pool_name : arg (option string);
  kw_load_balancing : arg (option Strategy);
  kw_tenant_id : arg Z;
}.

(** CSI messages *)

Inductive AccessModeType :=
| UNKNOWN_MODE
| SINGLE_NODE_WRITER
| SINGLE_NODE_READER_ONLY
| MULTI_NODE_READER_ONLY
| MULTI_NODE_SINGLE_WRITER
| MULTI_NODE_MULTI_WRITER.

Record MountVolume := {
  fs_type : string;
  mount_flags : list string;
}.

(** [mount] is [None] when [HasField("mount")] is false. *)
Module Capability.
Record t := mk {
  access_mode : AccessModeType;
  mount : option MountVolume;
}.
End Capability.
Abbreviation VolumeCapability := Capability.t.

Module Snapshot.
Record t := mk {
  size_bytes : Z;
  snapshot_id : string;
  source_volume_id : string;
  creation_time : string;
  ready_to_use : bool;
}.
End Snapshot.
Abbreviation CsiSnapshot := Snapshot.t.

(** ** Operations on the outside world *)

(** The first group are the methods of the VMS session as a handler calls
    them: [vms_session.py] defines some of them (their bodies are embedded
    below as [VmsSession]), the others are not part of the sources.  The
    second group are the REST requests [vms_session.py] issues, the third the
    host's file system, mount table and subprocesses. *)
Inductive op :=
| m_get_vip (a : get_vip_args)
| m_list_quotas (max_entries : option Z)
| m_get_quota (volume_id : string)
| m_update_quota (quota_id hard_limit : Z)
| m_delete_quota (quota_id : Z)
| m_has_snapshots (path : string)
| m_get_snapshot (snapshot_name : string)
| m_get_by_token (token : option string)
| m_is_trash_api_usable
| m_delete_folder (path : string) (tenant_id : Z)
| m_ensure_view_policy (policy_name : string)
| m_temp_view_enter (path : string) (policy_id tenant_id : Z)
| m_temp_view_exit (view : View.t)
| m_delete_view_by_path (path : string)
| m_ensure_snapshot (snapshot_name path : string) (tenant_id : Z)
| GET_vips
| GET_quotas_page_size (page_size : option Z)
| GET_quotas_path_contains (volume_id : string)
| GET_url (token : string)
| PATCH_quotas (quota_id hard_limit : Z)
| DELETE_quotas (quota_id : Z)
| GET_snapshots_path (path : string) (page_size : Z)
| GET_snapshots_name (snapshot_name : string)
| GET_snapshots_id (snapshot_id : option Z)
| shuffled (vips : list Vip.t)
| path_exists (p : string)
| path_is_dir (p : string)
| path_mkdir (p : string)
| path_touch (p : string)
| path_delete (p : string)
| path_list (p : string)
| get_mount (p : string)
| mkdtemp
| cmd_mount (flags : list string) (src tgt : string)
| cmd_umount (tgt : string)
| cmd_umount_v (tgt : string)
| os_remove (p : string)
| os_rmdir (p : string)
| json_dump (p : string) (doc : json)
| json_load (p : string)
| snapshot_store_read (name : string)
| snapshot_store_write (name : string) (snp : CsiSnapshot)
| utcnow
| inline_CreateVolume (name : string) (ephemeral_volume_name : string)
    (capacity_range : option Z) (parameters : gmap string string).

(** The type of the value each operation returns. *)
Definition ans (o : op) : Type :=
  match o with
  | m_get_vip _ => string
  | m_list_quotas _ | m_get_by_token _ => Page.t
  | m_get_quota _ => option Quota.t
  | m_has_snapshots _ => list Snap.t
  | m_get_snapshot _ | m_ensure_snapshot _ _ _ => Snap.t
  | m_is_trash_api_usable => bool
  | m_ensure_view_policy _ => ViewPolicy.t
  | m_temp_view_enter _ _ _ => View.t
  | GET_vips => list Vip.t
  | GET_quotas_page_size _ | GET_url _ => Page.t
  | GET_quotas_path_contains _ => list Quota.t
  | GET_snapshots_path _ _ => list Snap.t
  | GET_snapshots_name _ => list Snap.t
  | GET_snapshots_id _ => Snap.t
  | shuffled _ => list Vip.t
  | path_exists _ | path_is_dir _ => bool
  | path_list _ => list string
  | get_mount _ => option Mount.t
  | mkdtemp => string
  | json_load _ => json
  | snapshot_store_read _ => CsiSnapshot
  | utcnow => string
  | _ => unit
  end.

(** ** Handler programs *)

Inductive prog (R : Type) : Type :=
| Ret (r : R)
| Throw (e : exn)
| Do (o : op) (k : outcome (ans o) → prog R).
Arguments Ret {R} r.
Arguments Throw {R} e.
Arguments Do {R} o k.

Fixpoint bind {A B : Type} (p : prog A) (f : A → prog B) : prog B :=
  match p with
  | Ret a => f a
  | Throw e => Throw e
  | Do o k => Do o (λ x, bind (k x) f)
  end.

#[global] Instance prog_ret : MRet prog := @Ret.
#[global] Instance prog_bind : MBind prog := λ A B f p, bind p f.

(** Issue one operation; an exception it raises propagates. *)
Definition call (o : op) : prog (ans o) :=
  Do o (λ x, match x with Returned a => Ret a | Raised e => Throw e end).

(** Run [p] and hand back how it ended instead of propagating. *)
Fixpoint attempt {A : Type} (p : prog A) : prog (outcome A) :=
  match p with
  | Ret a => Ret (Returned a)
  | Throw e => Ret (Raised e)
  | Do o k => Do o (λ x, attempt (k x))
  end.

(** [try: p except <handles>: h(e)]: exceptions outside [handles] propagate. *)
Definition try_except {A : Type} (p : prog A) (handles : exn → bool)
    (h : exn → prog A) : prog A :=
  r ← attempt p;
  match r with
  | Returned a => Ret a
  | Raised e => if handles e then h e else Throw e
  end.

(** [try: p finally: fin]. *)
Definition try_finally {A : Type} (p : prog A) (fin : prog unit) : prog A :=
  r ← attempt p;
  fin;;
  match r with
  | Returned a => Ret a
  | Raised e => Throw e
  end.

(** An oracle answers an operation from the operations issued before it. *)
Definition oracle : Type := list op → ∀ o : op, outcome (ans o).

(** [run w h p]: the outcome of [p] started after history [h], and the
    operations [p] issued, in order. *)
Fixpoint run {R : Type} (w : oracle) (h : list op) (p : prog R)
    : outcome R * list op :=
  match p with
  | Ret r => (Returned r, [])
  | Throw e => (Raised e, [])
  | Do o k => let '(r, t) := run w (h ++ [o]) (k (w h o)) in (r, o :: t)
  end.

(** [emits P p]: every operation [p] can issue, whatever the answers,
    satisfies [P]. *)
Inductive emits (P : op → Prop) {A : Type} : prog A → Prop :=
| emits_Ret (a : A) : emits P (Ret a)
| emits_Throw (e : exn) : emits P (Throw e)
| emits_Do (o : op) (k : outcome (ans o) → prog A) :
    P o → (∀ x, emits P (k x)) → emits P (Do o k).

Definition result {R : Type} (w : oracle) (p : prog R) : outcome R := (run w [] p).1.
Definition trace {R : Type} (w : oracle) (p : prog R) : list op := (run w [] p).2.

(** ** Configuration and helpers from modules outside the two sources *)

(** The fields of [Config] the handlers read.
    [storage_class_load_balancing] is
    [StorageClassOptions.with_defaults().load_balancing_strategy]. *)
Module Conf.
Record t := mk {
  mock_vast : bool;
  csi_sanity_test : bool;
  node_id : string;
  nfs_server : string;
  sanity_test_nfs_export : string;
  name_fmt : string;
  load_balancing : string;
  storage_class_load_balancing : Strategy;
  mount_options : list string;
  unmount_attempts : Z;
  deletion_view_policy : string;
  deletion_vip_pool : string;
}.
End Conf.
Abbreviation Config := Conf.t.

(** Pure helpers of [utils.py], [quantity.py], plumbum paths and
    [str.format], none of which is part of the sources: the embedding takes
    them as given. *)
Record Utils := {
  parse_load_balancing_strategy : string → outcome Strategy;
  normalize_mount_options : string → list string;
  string_to_proto_timestamp : string → string;
  parse_quantity : string → outcome Z;
  format_name : string → string → string → string → outcome string;
  path_join : string → string → string;
  path_name : string → string;
  path_dirname : string → string;
  relative_to : string → string → string;
}.

(** ** The session interface *)

(** A session object: one program per method. *)
Module Session.
Record t := mk {
  get_vip : get_vip_args → prog string;
  list_quotas : option Z → prog Page.t;
  get_quota : string → prog (option Quota.t);
  update_quota : Z → Z → prog unit;
  delete_quota : Z → prog unit;
  has_snapshots : string → prog (list Snap.t);
  get_snapshot : string → prog Snap.t;
  get_by_token : option string → prog Page.t;
  is_trash_api_usable : prog bool;
  delete_folder : string → Z → prog unit;
  ensure_view_policy : string → prog ViewPolicy.t;
  temp_view_enter : string → Z → Z → prog View.t;
  temp_view_exit : View.t → prog unit;
  delete_view_by_path : string → prog unit;
  ensure_snapshot : string → string → Z → prog Snap.t;
}.
End Session.

(** The session whose every method is a single operation: what it returns or
    raises is up to the oracle, so a statement proved for it under all
    oracles holds whatever the session does. *)
Definition any_session : Session.t := {|
  Session.get_vip a := call (m_get_vip a);
  Session.list_quotas n := call (m_list_quotas n);
  Session.get_quota v := call (m_get_quota v);
  Session.update_quota i n := call (m_update_quota i n);
  Session.delete_quota i := call (m_delete_quota i);
  Session.has_snapshots p := call (m_has_snapshots p);
  Session.get_snapshot n := call (m_get_snapshot n);
  Session.get_by_token t := call (m_get_by_token t);
  Session.is_trash_api_usable := call m_is_trash_api_usable;
  Session.delete_folder p t := call (m_delete_folder p t);
  Session.ensure_view_policy n := call (m_ensure_view_policy n);
  Session.temp_view_enter p i t := call (m_temp_view_enter p i t);
  Session.temp_view_exit v := call (m_temp_view_exit v);
  Session.delete_view_by_path p := call (m_delete_view_by_path p);
  Session.ensure_snapshot n p t := call (m_ensure_snapshot n p t);
|}.

(** ** [vms_session.py]: class [VmsSession] *)

Module VmsSession.

(** [load_balancing or storage_options.load_balancing_strategy] *)
Definition or_default (load_balancing : option Strategy) (default : Strategy)
    : Strategy :=
  match load_balancing with
  | None => default
  | Some (OtherStrategy "") => default
  | Some s => s
  end.

(** [get_vip(self, vip_pool_name, load_balancing=None)].  [idx] is the
    session's [_vip_round_robin_idx] (initially [-1]); the result pairs the
    chosen address with the index the session holds afterwards. *)
Definition get_vip (CONF : Config) (idx : Z) (vip_pool_name : option string)
    (load_balancing : option Strategy) : prog (string * Z) :=
  let load_balancing :=
    or_default load_balancing (Conf.storage_class_load_balancing CONF) in
  all ← call GET_vips;
  let vips :=
    filter (λ vip : Vip.t, Some (Vip.vippool vip) = vip_pool_name) all in
  match vips with
  | [] =>
      Throw (Exception ("No vips in pool " +:+ default "None" vip_pool_name))
  | _ :: _ =>
      match load_balancing with
      | ROUNDROBIN =>
          let idx' := (idx + 1) `mod` Z.of_nat (length vips) in
          match vips !! Z.to_nat idx' with
          | Some vip => Ret (Vip.ip vip, idx')
          | None => Throw (IndexError "list index out of range")
          end
      | RANDOM =>
          l ← call (shuffled vips);
          match l with
          | vip :: _ => Ret (Vip.ip vip, idx)
          | [] => Throw (IndexError "list index out of range")
          end
      | OtherStrategy s =>
          Throw (Exception ("Invalid load_balancing mode: '" +:+ s +:+ "'"))
      end
  end.

(** The call [get_vip(...)] bound to the signature above: a keyword the
    signature does not have, or a missing [vip_pool_name], is a
    [TypeError] before the body runs. *)
Definition call_get_vip (CONF : Config) (idx : Z) (a : get_vip_args)
    : prog (string * Z) :=
  match kw_tenant_id a with
  | Given _ =>
      Throw (TypeError "get_vip() got an unexpected keyword argument 'tenant_id'")
  | Omitted =>
      match kw_vip_pool_name a with
      | Omitted =>
          Throw (TypeError
            "get_vip() missing 1 required positional argument: 'vip_pool_name'")
      | Given vip_pool_name =>
          get_vip CONF idx vip_pool_name
            (match kw_load_balancing a with Omitted => None | Given l => l end)
      end
  end.

Definition list_quotas (max_entries : option Z) : prog Page.t :=
  call (GET_quotas_page_size max_entries).

Definition too_many_quotas (volume_id : string) (quotas : list Quota.t) : exn :=
  let names := join ", " (merge_sort str_le (Quota.name <$> quotas)) in
  Exception ("Too many quotas on " +:+ volume_id +:+ ": " +:+ names).

(** [get_quota(self, volume_id)] *)
Definition get_quota (volume_id : string) : prog (option Quota.t) :=
  quotas ← call (GET_quotas_path_contains volume_id);
  match quotas with
  | [] => Ret None
  | [q] => Ret (Some q)
  | _ :: _ :: _ => Throw (too_many_quotas volume_id quotas)
  end.

Definition update_quota (quota_id hard_limit : Z) : prog unit :=
  call (PATCH_quotas quota_id hard_limit).

Definition delete_quota (quota_id : Z) : prog unit :=
  call (DELETE_quotas quota_id).

(** [path.rstrip("/")] *)
Fixpoint rstrip_slash (s : string) : string :=
  match s with
  | EmptyString => EmptyString
  | String c rest =>
      match rstrip_slash rest with
      | EmptyString => if Ascii.eqb c "/" then EmptyString else String c EmptyString
      | r => String c r
      end
  end.

Definition has_snapshots (path : string) : prog (list Snap.t) :=
  let path := rstrip_slash path +:+ "/" in
  call (GET_snapshots_path path 10).

(** [get_snapshot(snapshot_name=...)]: an empty name is falsy, and the
    snapshot is then fetched by the id, which was not given. *)
Definition get_snapshot (snapshot_name : string) : prog Snap.t :=
  if negb (String.eqb snapshot_name "") then
    ret ← call (GET_snapshots_name snapshot_name);
    if decide (1 < length ret)%nat then
      Throw (Exception ("Too many snapshots named " +:+ snapshot_name +:+ ": ("
                        +:+ pretty (length ret) +:+ ")"))
    else match ret with
         | s :: _ => Ret s
         | [] => Throw (IndexError "list index out of range")
         end
  else call (GET_snapshots_id None).

(** [get_by_token(token)] is [self.get(token)], which reaches
    [RESTSession.request] with the token as [api_method]; its first step,
    [api_method.strip("/")], fails on [None] before anything is sent. *)
Definition get_by_token (token : option string) : prog Page.t :=
  match token with
  | Some token => call (GET_url token)
  | None => Throw (AttributeError "'NoneType' object has no attribute 'strip'")
  end.

(** The session object during one RPC, with round-robin index [idx].  The
    methods [vms_session.py] does not define stay single operations. *)
Definition session (CONF : Config) (idx : Z) : Session.t := {|
  Session.get_vip a := r ← call_get_vip CONF idx a; Ret r.1;
  Session.list_quotas := list_quotas;
  Session.get_quota := get_quota;
  Session.update_quota := update_quota;
  Session.delete_quota := delete_quota;
  Session.has_snapshots := has_snapshots;
  Session.get_snapshot := get_snapshot;
  Session.get_by_token := get_by_token;
  Session.is_trash_api_usable := call m_is_trash_api_usable;
  Session.delete_folder p t := call (m_delete_folder p t);
  Session.ensure_view_policy n := call (m_ensure_view_policy n);
  Session.temp_view_enter p i t := call (m_temp_view_enter p i t);
  Session.temp_view_exit v := call (m_temp_view_exit v);
  Session.delete_view_by_path p := call (m_delete_view_by_path p);
  Session.ensure_snapshot n p t := call (m_ensure_snapshot n p t);
|}.

End VmsSession.

(** [TestVmsSession.get_vip(self, *_, **__)] accepts any arguments. *)
Definition TestVmsSession_get_vip (CONF : Config) (a : get_vip_args)
    : prog string :=
  Ret (Conf.nfs_server CONF).

(** ** [server.py] *)

(** Lift a pure computation that may raise. *)
Definition lift {A : Type} (r : outcome A) : prog A :=
  match r with Returned a => Ret a | Raised e => Throw e end.

(** [d[key]] on a string map. *)
Definition getitem (d : gmap string string) (key : string) : prog string :=
  match d !! key with Some v => Ret v | None => Throw (KeyError key) end.

(** A controller with the session its [vms_session] property yields; how the
    session is built and authenticated on first use is left out, and so is
    logging throughout. *)
Record Controller := { vms_session : Session.t }.

Record Identity := {
  controller : option Controller;
  node : bool;
}.

Inductive ProbeResp := ProbeRespOK | ProbeRespNotReady.

Module Volume.
Record t := mk {
  capacity_bytes : Z;
  volume_id : option string;
  volume_context : gmap string string;
}.
End Volume.
Abbreviation Volume := Volume.t.

Record ListResp := {
  next_token : option string;
  entries : list Volume;
}.

Record CtrlExpandResp := {
  expand_capacity_bytes : Z;
  node_expansion_required : bool;
}.

Module CtrlPublishResp.
Record t := mk { publish_context : gmap string string }.
End CtrlPublishResp.
Abbreviation CtrlPublishResp := CtrlPublishResp.t.

Inductive ValidateResp :=
| ValidateMessage (message : string)
| ValidateConfirmed (volume_context : option (gmap string string))
    (volume_capabilities : list VolumeCapability)
    (parameters : option (gmap string string)).

(** What a wrapped RPC hands to gRPC: a reply, or [context.abort]. *)
Inductive rpc (R : Type) : Type :=
| Reply (ret : R)
| Aborted (code : StatusCode) (details : string).
Arguments Reply {R} ret.
Arguments Aborted {R} code details.

Definition is_ApiError (e : exn) : bool :=
  match e with ApiError _ _ => true | _ => false end.
Definition is_Abort (e : exn) : bool :=
  match e with Abort _ _ => true | _ => false end.
Definition is_FileNotFoundError (e : exn) : bool :=
  match e with FileNotFoundError _ => true | _ => false end.
Definition is_ProcessExecutionError (e : exn) : bool :=
  match e with ProcessExecutionError _ _ => true | _ => false end.
(** [exc.stderr] *)
Definition stderr_of (e : exn) : string :=
  match e with ProcessExecutionError stderr _ => stderr | _ => "" end.
Definition is_ValueError (e : exn) : bool :=
  match e with ValueError _ => true | _ => false end.

(** [if s:] on an optional string. *)
Definition nonempty (s : option string) : bool :=
  match s with Some s => negb (String.eqb s "") | None => false end.

(** The numbers of the access modes in the CSI protocol, as f-strings
    print them. *)
Definition mode_number (m : AccessModeType) : Z :=
  match m with
  | UNKNOWN_MODE => 0
  | SINGLE_NODE_WRITER => 1
  | SINGLE_NODE_READER_ONLY => 2
  | MULTI_NODE_READER_ONLY => 3
  | MULTI_NODE_SINGLE_WRITER => 4
  | MULTI_NODE_MULTI_WRITER => 5
  end.

Definition SUPPORTED_ACCESS : list AccessModeType :=
  [SINGLE_NODE_WRITER; MULTI_NODE_MULTI_WRITER].

Definition supported (m : AccessModeType) : bool :=
  match m with
  | SINGLE_NODE_WRITER | MULTI_NODE_MULTI_WRITER => true
  | _ => false
  end.

Fixpoint _validate_capabilities (capabilities : list VolumeCapability)
    : outcome unit :=
  match capabilities with
  | [] => Returned tt
  | capability :: rest =>
      if negb (supported (Capability.access_mode capability)) then
        Raised (Abort INVALID_ARGUMENT
          ("Unsupported access mode: "
           +:+ pretty (mode_number (Capability.access_mode capability))
           +:+ " (use [1, 5])"))
      else
        match Capability.mount capability with
        | None => _validate_capabilities rest
        | Some m =>
            if String.eqb (fs_type m) "" then _validate_capabilities rest
            else if negb (String.eqb (fs_type m) "ext4") then
              Raised (Abort INVALID_ARGUMENT
                ("Unsupported file system type: " +:+ fs_type m))
            else _validate_capabilities rest
        end
  end.

(** [_validate_capabilities([volume_capability])] where the capability may
    be [None]. *)
Definition validate_one (volume_capability : option VolumeCapability)
    : outcome unit :=
  match volume_capability with
  | Some c => _validate_capabilities [c]
  | None =>
      Raised (AttributeError "'NoneType' object has no attribute 'access_mode'")
  end.

(** *** The dispatcher: [Instrumented.logged] *)

(** A handler's signature: each parameter's name and whether it has a
    default. *)
Definition signature : Type := list (string * bool).

Definition required_params (parameters : signature) : gset string :=
  list_to_set (fst <$> filter (λ p : string * bool, negb p.2) parameters)
  ∖ {["self"]}.

Definition missing_fields {V : Type} (parameters : signature)
    (params : gmap string V) : gset string :=
  required_params parameters ∖ {["request"; "context"]} ∖ dom params.

Definition missing_message (missing : gset string) : string :=
  "Missing required fields: " +:+ join ", " (merge_sort str_le (elements missing)).

(** [text.splitlines()[0]]; [None] when there is no line. *)
Definition is_linebreak (c : ascii) : bool :=
  let n := nat_of_ascii c in
  ((10 <=? n)%nat && (n <=? 13)%nat) || ((28 <=? n)%nat && (n <=? 30)%nat).

Fixpoint until_linebreak (s : string) : string :=
  match s with
  | EmptyString => EmptyString
  | String c rest => if is_linebreak c then EmptyString else String c (until_linebreak rest)
  end.

Definition first_line (s : string) : option string :=
  match s with EmptyString => None | _ => Some (until_linebreak s) end.

(** Exceptions raised with keyword arguments are [TException]s. *)
Definition is_TException (e : exn) : bool :=
  match e with ApiError _ _ | MountFailed _ _ _ _ => true | _ => false end.

Section Dispatcher.
Context {V R : Type}.
(** [exc.render(color=False)] of easypy. *)
Variable render : exn → string.

(** The wrapper [logged] puts around a handler [func] named [method] with
    signature [parameters]; [request] holds the fields [ListFields]
    reports.  Logging is left out. *)
Definition logged (method : string) (parameters : signature)
    (func : gmap string V → prog R) (request : gmap string V) : prog (rpc R) :=
  let params := request in
  let missing := missing_fields parameters params in
  r ← attempt (if decide (missing = ∅) then func params
               else Throw (Abort INVALID_ARGUMENT (missing_message missing)));
  match r with
  | Returned ret => Ret (Reply ret)
  | Raised (Abort code message) => Ret (Aborted code message)
  | Raised (HTTPError _ response resource) =>
      match first_line (text response) with
      | None => Throw (IndexError "list index out of range")
      | Some line =>
          Ret (Aborted UNKNOWN
            ("[" +:+ method +:+ "]. Unable to accomplish request to " +:+ resource
             +:+ ". " +:+ line +:+ ", <" +:+ reason response +:+ "("
             +:+ pretty (status_code response) +:+ ")>"))
      end
  | Raised exc =>
      if is_TException exc then
        Ret (Aborted UNKNOWN ("[" +:+ method +:+ "]. " +:+ render exc))
      else
        Ret (Aborted UNKNOWN ("[" +:+ method +:+ "]: " +:+ str_exn exc))
  end.
End Dispatcher.

Section Server.
Variable CONF : Config.
Variable U : Utils.

(** [mount(src, tgt, flags="")]: the flags given to [-o]; none when the
    list is empty. *)
Definition mount_flags_of (flags : string) : list string :=
  let flags := strip <$> split_on "," flags in
  let flags :=
    if Conf.mock_vast CONF then flags ++ split_on "," "port=2049,nolock,vers=3"
    else flags in
  filter (λ f, f ≠ "") flags.

Definition mount (src tgt : string) (flags : string) : prog unit :=
  let flags := mount_flags_of flags in
  try_except (call (cmd_mount flags src tgt)) is_ProcessExecutionError
    (λ exc, Throw (MountFailed (stderr_of exc) src tgt flags)).

(** *** Identity *)

Definition no_arguments : get_vip_args :=
  {| kw_vip_pool_name := Omitted; kw_load_balancing := Omitted;
     kw_tenant_id := Omitted |}.

Definition Probe (self : Identity) : prog ProbeResp :=
  if node self then Ret ProbeRespOK
  else if Conf.mock_vast CONF then Ret ProbeRespOK
  else match controller self with
       | Some c =>
           try_except (Session.get_vip (vms_session c) no_arguments;; Ret tt)
             is_ApiError
             (λ exc, Throw (Abort FAILED_PRECONDITION (str_exn exc)));;
           Ret ProbeRespOK
       | None => Ret ProbeRespNotReady
       end.

(** *** Controller *)

Definition _to_volume_id (path : string) : option string :=
  let vol_id := relative_to U path (Conf.sanity_test_nfs_export CONF) in
  if String.prefix ".." vol_id then None else Some vol_id.

Definition list_entry (quota : Quota.t) : Volume :=
  {| Volume.capacity_bytes := Quota.hard_limit quota;
     Volume.volume_id := _to_volume_id (Quota.path quota);
     Volume.volume_context := {[ "quota_id" := pretty (Quota.id quota) ]} |}.

Definition ListVolumes (self : Controller) (starting_token : option string)
    (max_entries : option Z) : prog ListResp :=
  if decide (starting_token = Some "invalid-token") then
    Throw (Abort ABORTED "Invalid starting_token")
  else
    ret ← (if nonempty starting_token
           then Session.list_quotas (vms_session self) max_entries
           else Session.get_by_token (vms_session self) starting_token);
    Ret {| next_token := Page.next_token ret;
           entries := list_entry <$> Page.results ret |}.

Definition ABORTED_concurrent : exn :=
  Abort ABORTED
    "Concurrent access to an identical file/directory has been detected. A new attempt will be made.".

(** The [try] suite of the local-mount deletion: whether [mounted] was
    set, and how the suite ended. *)
Definition delete_through_mount (mount_spec tmpdir volume_id : string)
    : prog (bool * outcome unit) :=
  r ← attempt (mount mount_spec tmpdir (join "," (Conf.mount_options CONF));;
               unmounted ← call (path_exists (path_join U tmpdir ".csi-unmounted"));
               if unmounted : bool then Throw AssertionError else Ret tt);
  match r with
  | Raised e => Ret (false, Raised e)
  | Returned _ =>
      r ← attempt (there ← call (path_exists (path_join U tmpdir volume_id));
                   if there : bool then call (path_delete (path_join U tmpdir volume_id))
                   else Ret tt);
      Ret (true, r)
  end.

(** The [except] clauses of the local-mount deletion. *)
Definition delete_except (tmpdir volume_id : string) (exc : exn) : prog unit :=
  if is_FileNotFoundError exc then
    if contains "No such file or directory" (str_exn exc)
    then Throw ABORTED_concurrent else Throw exc
  else if is_OSError exc then
    (if contains "not empty" (str_exn exc)
     then call (path_list (path_join U tmpdir volume_id));; Ret tt
     else Ret tt);;
    Throw exc
  else Throw exc.

Definition _delete_data_from_storage (self : Controller) (path : string)
    (tenant_id : Z) : prog unit :=
  usable ← Session.is_trash_api_usable (vms_session self);
  if usable : bool then Session.delete_folder (vms_session self) path tenant_id
  else
    let volume_id := path_name U path in
    view_policy ← Session.ensure_view_policy (vms_session self)
                    (Conf.deletion_view_policy CONF);
    nfs_server ← Session.get_vip (vms_session self)
                   {| kw_vip_pool_name := Given (Some (Conf.deletion_vip_pool CONF));
                      kw_load_balancing := Omitted;
                      kw_tenant_id := Given (ViewPolicy.tenant_id view_policy) |};
    base_view ← Session.temp_view_enter (vms_session self) (path_dirname U path)
                  (ViewPolicy.id view_policy) (ViewPolicy.tenant_id view_policy);
    try_finally
      (let mount_spec := nfs_server +:+ ":" +:+ View.alias base_view in
       tmpdir ← call mkdtemp;
       call (path_touch (path_join U tmpdir ".csi-unmounted"));;
       '(mounted, r) ← delete_through_mount mount_spec tmpdir volume_id;
       try_finally
         (match r with
          | Returned _ => Ret tt
          | Raised exc => delete_except tmpdir volume_id exc
          end)
         ((if mounted : bool then call (cmd_umount_v tmpdir) else Ret tt);;
          call (os_remove (path_join U tmpdir ".csi-unmounted"));;
          call (os_rmdir tmpdir)))
      (Session.temp_view_exit (vms_session self) base_view).

Definition DeleteVolume (self : Controller) (volume_id : string) : prog unit :=
  quota ← Session.get_quota (vms_session self) volume_id;
  match quota with
  | Some quota =>
      try_except
        (_delete_data_from_storage self (Quota.path quota) (Quota.tenant_id quota))
        is_OSError
        (λ exc,
           if negb (contains "not empty" (str_exn exc)) then Throw exc
           else
             snaps ← Session.has_snapshots (vms_session self) (Quota.path quota);
             match snaps with
             | _ :: _ => Ret tt
             | [] => Throw exc
             end);;
      Session.delete_view_by_path (vms_session self) (Quota.path quota);;
      Session.delete_quota (vms_session self) (Quota.id quota)
  | None => Ret tt
  end.

(** [ControllerPublishVolume(node_id, volume_id, volume_capability,
    volume_context=None)] *)
Definition ControllerPublishVolume (self : Controller) (node_id volume_id : string)
    (volume_capability : option VolumeCapability)
    (volume_context : option (gmap string string)) : prog CtrlPublishResp :=
  let volume_context := default ∅ volume_context in
  lift (validate_one volume_capability);;
  root_export ← (if Conf.mock_vast CONF then Ret (Conf.sanity_test_nfs_export CONF)
                 else getitem volume_context "root_export");
  load_balancing ← lift (parse_load_balancing_strategy U
                     (default (Conf.load_balancing CONF) (volume_context !! "load_balancing")));
  let '(quota_path_fragment, export_path) :=
    if nonempty (volume_context !! "snapshot_base_path") then
      let snapshot_base_path := default "" (volume_context !! "snapshot_base_path") in
      (default "" (head (split_on "/" snapshot_base_path)),
       path_join U root_export snapshot_base_path)
    else (volume_id, path_join U root_export volume_id) in
  vip_pool_name ← (if Conf.mock_vast CONF then Ret None
                   else v ← getitem volume_context "vip_pool_name"; Ret (Some v));
  quota ← Session.get_quota (vms_session self) quota_path_fragment;
  match quota with
  | None => Throw (Abort NOT_FOUND ("Unknown volume: " +:+ quota_path_fragment))
  | Some quota =>
      if Conf.csi_sanity_test CONF && negb (String.eqb (Conf.node_id CONF) node_id) then
        Throw (Abort NOT_FOUND ("Unknown volume: " +:+ node_id))
      else
        nfs_server_ip ← Session.get_vip (vms_session self)
          {| kw_vip_pool_name := Given vip_pool_name;
             kw_load_balancing := Given (Some load_balancing);
             kw_tenant_id := Given (Quota.tenant_id quota) |};
        Ret {| CtrlPublishResp.publish_context :=
                 {[ "export_path" := export_path; "nfs_server_ip" := nfs_server_ip ]} |}
  end.

Definition ControllerExpandVolume (self : Controller) (volume_id : string)
    (required_bytes : Z) : prog CtrlExpandResp :=
  let requested_capacity := required_bytes in
  quota ← Session.get_quota (vms_session self) volume_id;
  match quota with
  | None => Throw (Abort NOT_FOUND ("Not found quota with id: " +:+ volume_id))
  | Some quota =>
      let existing_capacity := Quota.hard_limit quota in
      capacity_bytes ←
        (if decide (requested_capacity ≤ existing_capacity) then Ret existing_capacity
         else
           try_except
             (Session.update_quota (vms_session self) (Quota.id quota) requested_capacity)
             is_ApiError
             (λ exc, Throw (Abort OUT_OF_RANGE
                ("Failed updating quota " +:+ pretty (Quota.id quota) +:+ ": "
                 +:+ str_exn exc)));;
           Ret requested_capacity);
      Ret {| expand_capacity_bytes := capacity_bytes;
             node_expansion_required := false |}
  end.

Definition ValidateVolumeCapabilities (self : Controller) (volume_id : string)
    (volume_capabilities : list VolumeCapability)
    (volume_context parameters : option (gmap string string)) : prog ValidateResp :=
  quota ← Session.get_quota (vms_session self) volume_id;
  match quota with
  | None => Throw (Abort NOT_FOUND ("Volume " +:+ volume_id +:+ " does not exist"))
  | Some _ =>
      match _validate_capabilities volume_capabilities with
      | Raised (Abort _ message) => Ret (ValidateMessage message)
      | Raised exc => Throw exc
      | Returned _ =>
          Ret (ValidateConfirmed volume_context volume_capabilities parameters)
      end
  end.

(** [[(k, [v])] = exc.response.json().items()]: the body must decode to an
    object with one member whose value is iterable with one element; an
    object iterates over its keys, a string over its characters. *)
Definition unpack_single (response : Response) : outcome (string * json) :=
  match json_body response with
  | None => Raised (ValueError "Expecting value")
  | Some (JObj [(k, JArr [v])]) => Returned (k, v)
  | Some (JObj [(k, JObj [(k', _)])]) => Returned (k, JStr k')
  | Some (JObj [(k, JStr s)]) =>
      if decide (String.length s = 1%nat) then Returned (k, JStr s)
      else Raised (ValueError "wrong number of values to unpack")
  | Some (JObj [(_, JArr _)]) | Some (JObj [(_, JObj _)]) =>
      Raised (ValueError "wrong number of values to unpack")
  | Some (JObj [(_, _)]) => Raised (TypeError "cannot unpack non-iterable object")
  | Some (JObj _) => Raised (ValueError "wrong number of values to unpack")
  | Some _ => Raised (AttributeError "object has no attribute 'items'")
  end.

Definition unique_name_body : json :=
  JObj [("name", JArr [JStr "This field must be unique."])].

(** [(k, v) == ("name", "This field must be unique.")] *)
Definition is_unique_name (k : string) (v : json) : bool :=
  String.eqb k "name" &&
  match v with
  | JStr s => String.eqb s "This field must be unique."
  | _ => false
  end.

Definition name_taken (name : string) : exn :=
  Abort ALREADY_EXISTS ("Snapshot name '" +:+ name +:+ "' is already taken").

(** The handler of [except ApiError] in [CreateSnapshot]. *)
Definition on_ensure_snapshot_error (self : Controller)
    (name snapshot_name path : string) (exc : exn) : prog Snap.t :=
  match exc with
  | ApiError response _ =>
      if decide (status_code response = 400) then
        match unpack_single response with
        | Raised e =>
            if is_ValueError e then Throw (Abort INVALID_ARGUMENT (str_exn exc))
            else Throw e
        | Returned (k, v) =>
            if is_unique_name k v then
              snap ← Session.get_snapshot (vms_session self) snapshot_name;
              if decide (Snap.path snap ≠ path) then Throw (name_taken name)
              else Ret snap
            else Throw (Abort INVALID_ARGUMENT (str_exn exc))
        end
      else Throw (Abort INVALID_ARGUMENT (str_exn exc))
  | _ => Throw exc
  end.

Definition CreateSnapshot (self : Controller) (source_volume_id name : string)
    (parameters : option (gmap string string)) : prog CsiSnapshot :=
  let parameters := default ∅ parameters in
  let volume_id := source_volume_id in
  quota ← Session.get_quota (vms_session self) volume_id;
  match quota with
  | None => Throw (Abort NOT_FOUND ("Unknown volume: " +:+ volume_id))
  | Some quota =>
      if Conf.mock_vast CONF then
        try_except
          (snp ← call (snapshot_store_read name);
           if decide (Snapshot.source_volume_id snp ≠ volume_id) then Throw (name_taken name)
           else Ret snp)
          is_FileNotFoundError
          (λ _,
             ts ← call utcnow;
             let snp := {| Snapshot.size_bytes := 0; Snapshot.snapshot_id := name;
                           Snapshot.source_volume_id := volume_id; Snapshot.creation_time := ts;
                           Snapshot.ready_to_use := true |} in
             call (snapshot_store_write name snp);;
             Ret snp)
      else
        let path := Quota.path quota in
        let tenant_id := Quota.tenant_id quota in
        snapshot_name ← getitem parameters "csi.storage.k8s.io/volumesnapshot/name";
        snapshot_namespace ←
          getitem parameters "csi.storage.k8s.io/volumesnapshot/namespace";
        let snapshot_name_fmt :=
          default (Conf.name_fmt CONF) (parameters !! "snapshot_name_fmt") in
        snapshot_name ← lift (format_name U snapshot_name_fmt snapshot_namespace
                                snapshot_name name);
        let snapshot_name := replace_char "/" "-" (replace_char ":" "-" snapshot_name) in
        snap ← try_except
                 (Session.ensure_snapshot (vms_session self) snapshot_name path tenant_id)
                 is_ApiError
                 (on_ensure_snapshot_error self name snapshot_name path);
        Ret {| Snapshot.size_bytes := 0; Snapshot.snapshot_id := pretty (Snap.id snap);
               Snapshot.source_volume_id := volume_id;
               Snapshot.creation_time := string_to_proto_timestamp U (Snap.created snap);
               Snapshot.ready_to_use := true |}
  end.

(** *** Node *)

(** [Controller()]: a controller with a session of its own. *)
Variable fresh_controller : Controller.

Definition sidecar (target_path : string) : string :=
  path_join U target_path ".vast-csi-meta".

(** [publish_context[key]] where [publish_context] may be [None]. *)
Definition publish_getitem (publish_context : option (gmap string string))
    (key : string) : prog string :=
  match publish_context with
  | None => Throw (TypeError "'NoneType' object is not subscriptable")
  | Some d => getitem d key
  end.

(** [is_ephemeral := volume_context and volume_context.get(
    "csi.storage.k8s.io/ephemeral") == "true"]: the empty map itself when
    the context is empty, a boolean otherwise. *)
Definition ephemeral_flag (volume_context : gmap string string) : json :=
  if decide (volume_context = ∅) then JObj []
  else JBool (bool_decide
         (volume_context !! "csi.storage.k8s.io/ephemeral" = Some "true")).

(** The device to mount, [<nfs_server_ip>:<export_path>]: the part of
    [NodePublishVolume] before the target is inspected. *)
Definition publish_source (volume_id : string)
    (volume_capability : option VolumeCapability)
    (publish_context : option (gmap string string))
    (volume_context : gmap string string) : prog string :=
  publish_context ←
    (if truthy (ephemeral_flag volume_context) then
       let eph_volume_name_fmt :=
         default (Conf.name_fmt CONF) (volume_context !! "eph_volume_name_fmt") in
       capacity_range ←
         match volume_context !! "size" with
         | Some size => n ← lift (parse_quantity U size); Ret (Some n)
         | None => Ret None
         end;
       pod_uid ← getitem volume_context "csi.storage.k8s.io/pod.uid";
       pod_name ← getitem volume_context "csi.storage.k8s.io/pod.name";
       pod_namespace ← getitem volume_context "csi.storage.k8s.io/pod.namespace";
       eph_volume_name ← lift (format_name U eph_volume_name_fmt pod_namespace
                                 pod_name pod_uid);
       call (inline_CreateVolume volume_id eph_volume_name capacity_range
               volume_context);;
       resp ← ControllerPublishVolume fresh_controller (Conf.node_id CONF) volume_id
                volume_capability (Some volume_context);
       Ret (Some (CtrlPublishResp.publish_context resp))
     else
       match volume_capability with
       | None => Throw (Abort INVALID_ARGUMENT "missing 'volume_capability'")
       | Some _ => Ret publish_context
       end);
  nfs_server_ip ← publish_getitem publish_context "nfs_server_ip";
  let schema :=
    if decide (volume_context = ∅) then "1"
    else default "1" (volume_context !! "schema") in
  export_path ← (if String.eqb schema "2" then getitem volume_context "export_path"
                 else publish_getitem publish_context "export_path");
  let mount_spec := nfs_server_ip +:+ ":" +:+ export_path in
  lift (validate_one volume_capability);;
  Ret mount_spec.

(** ["ro" in set(found_mount.opts.split(","))] *)
Definition is_readonly (found_mount : Mount.t) : bool :=
  bool_decide ("ro" ∈ split_on "," (Mount.opts found_mount)).

Definition already_mounted_from (device mount_spec : string) : exn :=
  Abort ALREADY_EXISTS
    ("Volume already mounted from " +:+ device +:+ " instead of " +:+ mount_spec).

Definition already_mounted_as (is_readonly : bool) : exn :=
  Abort ALREADY_EXISTS
    ("Volume already mounted as " +:+ (if is_readonly then "readonly" else "readwrite")).

(** The flags [NodePublishVolume] passes to [mount]. *)
Definition publish_flags (volume_capability : option VolumeCapability)
    (readonly : bool) (volume_context : gmap string string) : list string :=
  let capability_flags :=
    match volume_capability with
    | Some c => match Capability.mount c with Some m => mount_flags m | None => [] end
    | None => []
    end in
  (if readonly then ["ro"] else []) ++
  (match capability_flags with
   | _ :: _ => capability_flags
   | [] => normalize_mount_options U (default "" (volume_context !! "mount_options"))
   end).

(** [NodePublishVolume]: from the inspection of the target on. *)
Definition publish_target (volume_id target_path mount_spec : string)
    (is_ephemeral : json) (volume_capability : option VolumeCapability)
    (readonly : bool) (volume_context : gmap string string) : prog unit :=
  let create_and_mount : prog unit :=
    call (path_mkdir target_path);;
    call (json_dump (sidecar target_path)
            (JObj [("volume_id", JStr volume_id); ("is_ephemeral", is_ephemeral)]));;
    mount mount_spec target_path
      (join "," (publish_flags volume_capability readonly volume_context)) in
  is_dir ← call (path_is_dir target_path);
  if negb is_dir then create_and_mount
  else
    found_mount ← call (get_mount target_path);
    match found_mount with
    | Some found_mount =>
        if decide (Mount.device found_mount ≠ mount_spec) then
          Throw (already_mounted_from (Mount.device found_mount) mount_spec)
        else if negb (Bool.eqb (is_readonly found_mount) readonly) then
          Throw (already_mounted_as (is_readonly found_mount))
        else Ret tt
    | None => create_and_mount
    end.

Definition NodePublishVolume (volume_id target_path : string)
    (volume_capability : option VolumeCapability)
    (publish_context : option (gmap string string)) (readonly : bool)
    (volume_context : option (gmap string string)) : prog unit :=
  let volume_context := default ∅ volume_context in
  mount_spec ←
    publish_source volume_id volume_capability publish_context volume_context;
  publish_target volume_id target_path mount_spec (ephemeral_flag volume_context)
    volume_capability readonly volume_context.

Definition stuck_in_unmount_loop (target_path : string) : exn :=
  Abort UNKNOWN
    ("Stuck in unmount loop of " +:+ target_path +:+ " too many times ("
     +:+ pretty (Conf.unmount_attempts CONF) +:+ ")").

(** The [for i in range(...)] loop of [NodeUnpublishVolume] with [n]
    iterations left: [true] when it ended by [break]. *)
Fixpoint unmount_loop (target_path : string) (n : nat) : prog bool :=
  match n with
  | O => Ret false
  | S n' =>
      found ← call (get_mount target_path);
      match found with
      | None => Ret true
      | Some _ =>
          r ← attempt (call (cmd_umount target_path));
          match r with
          | Returned _ => unmount_loop target_path n'
          | Raised (ProcessExecutionError stderr rendered) =>
              if contains "not mounted" stderr then Ret true
              else Throw (ProcessExecutionError stderr rendered)
          | Raised exc => Throw exc
          end
      end
  end.

(** [meta.get("is_ephemeral")] and [meta["volume_id"]] on the decoded
    sidecar.  The driver writes [volume_id] as a string. *)
Definition meta_is_ephemeral (meta : json) : prog bool :=
  match meta with
  | JObj m => Ret (from_option truthy false (dict_get "is_ephemeral" m))
  | _ => Throw (AttributeError "object has no attribute 'get'")
  end.

Definition meta_volume_id (meta : json) : prog string :=
  match meta with
  | JObj m =>
      match dict_get "volume_id" m with
      | Some (JStr v) => Ret v
      | Some _ => Throw (TypeError "volume_id is not a string")
      | None => Throw (KeyError "volume_id")
      end
  | _ => Throw (TypeError "object is not subscriptable")
  end.

(** [NodeUnpublishVolume] after the unmount loop: first the sidecar is read
    and an ephemeral volume deleted through a fresh controller, *)
Definition delete_if_ephemeral (target_path : string) : prog unit :=
  has_meta ← call (path_exists (sidecar target_path));
  if has_meta : bool then
    meta ← call (json_load (sidecar target_path));
    ephemeral ← meta_is_ephemeral meta;
    if ephemeral : bool then
      volume_id ← meta_volume_id meta;
      DeleteVolume fresh_controller volume_id
    else Ret tt
  else Ret tt.

(** then the sidecar and the directory are removed. *)
Definition remove_sidecar_and_target (target_path : string) : prog unit :=
  has_meta ← call (path_exists (sidecar target_path));
  (if has_meta : bool then call (os_remove (sidecar target_path)) else Ret tt);;
  call (os_rmdir target_path).

Definition remove_target (target_path : string) : prog unit :=
  delete_if_ephemeral target_path;;
  remove_sidecar_and_target target_path.

Definition NodeUnpublishVolume (target_path : string) : prog unit :=
  there ← call (path_exists target_path);
  if negb there then Ret tt
  else
    broke ← unmount_loop target_path (Z.to_nat (Conf.unmount_attempts CONF));
    if broke : bool then remove_target target_path
    else Throw (stuck_in_unmount_loop target_path).
End Server.

(** *** Entrypoint *)

(** [CONF.mode]: one of the three tokens of [easypy.tokens], or any other
    value. *)
Inductive Mode :=
| CONTROLLER
| NODE
| CONTROLLER_AND_NODE
| OtherMode (s : string).

(** The items of [Identity.capabilities] are enum numbers of two different
    enums of the protocol, [types.ExpansionType.ONLINE] and
    [types.ServiceType.CONTROLLER_SERVICE].  Their values are not given by the
    sources, and nothing says they differ: [serve] is read for any two
    numbers. *)
Section Entrypoint.
Variable ONLINE : Z.
Variable CONTROLLER_SERVICE : Z.

(** [serve()], as far as it builds the identity service: the identity with
    the controller and the node it is given, and its [capabilities] list.
    The gRPC server, the logging and the directories of the fake stores are
    left out. *)
Definition serve (mode : Mode) (fresh_controller : Controller)
    : Identity * list Z :=
  let capabilities := [] in
  let capabilities := capabilities ++ [ONLINE] in
  let '(controller, capabilities) :=
    match mode with
    | CONTROLLER | CONTROLLER_AND_NODE =>
        (Some fresh_controller, capabilities ++ [CONTROLLER_SERVICE])
    | _ => (None, capabilities)
    end in
  let node :=
    match mode with
    | NODE | CONTROLLER_AND_NODE => true
    | _ => false
    end in
  ({| controller := controller; node := node |}, capabilities).
End Entrypoint.

(** [types.Capability(service=types.Service(type=cap))]: a capability of the
    plugin, always of the service kind, with the enum number it carries. *)
Inductive PluginCapability :=
| Service (type : Z).

(** [Identity.GetPluginCapabilities]: every item of [self.capabilities] is
    reported as a service type, whichever enum it was taken from. *)
Definition GetPluginCapabilities (capabilities : list Z) : list PluginCapability :=
  (λ cap, Service cap) <$> capabilities.

(** *** Controller: [CreateVolume] up to the builder *)

(** [re.sub(r"[\[\]]", "", s)] *)
Fixpoint remove_brackets (s : string) : string :=
  match s with
  | EmptyString => EmptyString
  | String c rest =>
      if Ascii.eqb c "[" || Ascii.eqb c "]" then remove_brackets rest
      else String c (remove_brackets rest)
  end.

(** [s.split()]: the maximal runs of characters that are not white space. *)
Fixpoint split_whitespace (s : string) : list string :=
  match s with
  | EmptyString => []
  | String c rest =>
      if is_space c then split_whitespace rest
      else
        match rest with
        | EmptyString => [String c EmptyString]
        | String d _ =>
            if is_space d then String c EmptyString :: split_whitespace rest
            else match split_whitespace rest with
                 | word :: words => String c word :: words
                 | [] => [String c EmptyString]
                 end
        end
  end.

(** The mount options [CreateVolume] hands to the builder: the flags of the
    first capability with a mount block, normalized; empty when there is
    none ([StopIteration]). *)
Definition create_mount_options (volume_capabilities : list VolumeCapability)
    : string :=
  match List.find (λ cap, bool_decide (is_Some (Capability.mount cap)))
          volume_capabilities with
  | Some mount_capability =>
      let mount_flags :=
        match Capability.mount mount_capability with
        | Some m => mount_flags m
        | None => []
        end in
      let mount_options := join "," mount_flags in
      join "," (split_whitespace
                  (replace_char "," " " (remove_brackets mount_options)))
  | None => ""
  end.

Inductive Builder :=
| EmptyVolumeBuilder
| VolumeFromSnapshotBuilder
| TestVolumeBuilder.

(** [volume_content_source], by the id of its snapshot; the id is empty
    when the source is a volume. *)
Record ContentSource := { source_snapshot_id : string }.

(** The keyword arguments the builder is made with, [controller] and
    [configuration] apart. *)
Record BuilderArgs := {
  b_name : string;
  b_capacity_range : option Z;
  b_pvc_name : option string;
  b_pvc_namespace : option string;
  b_volume_content_source : option ContentSource;
  b_ephemeral_volume_name : option string;
  b_root_export : string;
  b_volume_name_fmt : string;
  b_view_policy : string;
  b_vip_pool_name : string;
  b_mount_options : string;
  b_lb_strategy : string;
  b_qos_policy : option string;
}.

(** How [CreateVolume] ends before [build_volume] is called: with a builder
    made, with [MissingParameter(param=...)], or with another exception. *)
Inductive create_step :=
| Build (builder : Builder) (args : BuilderArgs)
| MissingParameter (param : string)
| Raises (exc : exn).

Section CreateVolume.
Variable CONF : Config.

(** [CreateVolume] up to the construction of the builder.  The volume
    builders are not part of the sources, so [build_volume] and the
    translation of its exceptions are left out.  A content source that is
    passed is a message, which is true. *)
Definition CreateVolume_builder (name : string)
    (volume_capabilities : list VolumeCapability) (capacity_range : option Z)
    (parameters : option (gmap string string))
    (volume_content_source : option ContentSource)
    (ephemeral_volume_name : option string) : create_step :=
  match _validate_capabilities volume_capabilities with
  | Raised exc => Raises exc
  | Returned _ =>
      let parameters := default ∅ parameters in
      let mount_options := create_mount_options volume_capabilities in
      let build builder root_export volume_name_fmt view_policy vip_pool_name
            mount_options lb_strategy qos_policy :=
        Build builder
          {| b_name := name;
             b_capacity_range := capacity_range;
             b_pvc_name := parameters !! "csi.storage.k8s.io/pvc/name";
             b_pvc_namespace := parameters !! "csi.storage.k8s.io/pvc/namespace";
             b_volume_content_source := volume_content_source;
             b_ephemeral_volume_name := ephemeral_volume_name;
             b_root_export := root_export;
             b_volume_name_fmt := volume_name_fmt;
             b_view_policy := view_policy;
             b_vip_pool_name := vip_pool_name;
             b_mount_options := mount_options;
             b_lb_strategy := lb_strategy;
             b_qos_policy := qos_policy |} in
      if Conf.mock_vast CONF then
        build TestVolumeBuilder "" "" "" "" "" "" (Some "")
      else
        let root_export := parameters !! "root_export" in
        if negb (nonempty root_export) then MissingParameter "root_export"
        else
          let view_policy := parameters !! "view_policy" in
          if negb (nonempty view_policy) then MissingParameter "view_policy"
          else
            let vip_pool_name := parameters !! "vip_pool_name" in
            if negb (nonempty vip_pool_name) then MissingParameter "vip_pool_name"
            else
              let volume_name_fmt :=
                default (Conf.name_fmt CONF) (parameters !! "volume_name_fmt") in
              let lb_strategy :=
                default (Conf.load_balancing CONF) (parameters !! "lb_strategy") in
              let qos_policy := parameters !! "qos_policy" in
              let build builder :=
                build builder (default "" root_export) volume_name_fmt
                  (default "" view_policy) (default "" vip_pool_name)
                  mount_options lb_strategy qos_policy in
              match volume_content_source with
              | None => build EmptyVolumeBuilder
              | Some source =>
                  if negb (String.eqb (source_snapshot_id source) "")
                  then build VolumeFromSnapshotBuilder
                  else Raises (ValueError
                         "Invalid condition. Either volume_content_source or test environment variable should be provided")
              end
  end.
End CreateVolume.

(** *** Controller: [ListSnapshots] in mock mode *)

Record ListSnapResp := {
  snapshots_next_token : option string;
  snapshots_entries : list CsiSnapshot;
}.

(** A file of the fake snapshot store as [os.scandir] reports it: its inode
    and the snapshot its content decodes to. *)
Definition dentry : Type := Z * CsiSnapshot.

(** [sorted(snaps, key=lambda d: d.inode())]: a stable sort, so an entry
    goes before the entries of the same inode that came after it. *)
Fixpoint insert_by_inode (d : dentry) (snaps : list dentry) : list dentry :=
  match snaps with
  | [] => [d]
  | d' :: rest =>
      if decide (d'.1 < d.1) then d' :: insert_by_inode d rest
      else d :: d' :: rest
  end.

Definition sorted_by_inode (snaps : list dentry) : list dentry :=
  foldr insert_by_inode [] snaps.

(** The loop [for start_idx, d in enumerate(snaps): if d.inode() >
    starting_inode: break]: the value of [start_idx] after it, where
    [start_idx] is its value so far and [i] the next index. *)
Fixpoint skip_to (starting_inode : Z) (snaps : list dentry) (start_idx i : nat)
    : nat :=
  match snaps with
  | [] => start_idx
  | d :: rest =>
      if decide (starting_inode < d.1) then i
      else skip_to starting_inode rest i (S i)
  end.

(** [to_snapshot(dentry)]: [None] for a snapshot the filters exclude. *)
Definition to_snapshot (source_volume_id snapshot_id : option string) (d : dentry)
    : option (CsiSnapshot * Z) :=
  let snap := d.2 in
  if nonempty source_volume_id
     && negb (String.eqb (Snapshot.source_volume_id snap) (default "" source_volume_id))
  then None
  else if nonempty snapshot_id
          && negb (String.eqb (Snapshot.snapshot_id snap) (default "" snapshot_id))
  then None
  else Some (snap, d.1).

(** [l[:n]] *)
Definition slice_to {A : Type} (n : Z) (l : list A) : list A :=
  if decide (0 ≤ n) then take (Z.to_nat n) l
  else take (Z.to_nat (Z.of_nat (length l) + n)) l.

Section ListSnapshots.
(** [int(s)] on a string. *)
Variable int : string → outcome Z.

(** [int(starting_token) if starting_token else 0] *)
Definition starting_inode_of (starting_token : option string) : outcome Z :=
  if nonempty starting_token then int (default "" starting_token) else Returned 0.

(** The suite of [ListSnapshots] under [if CONF.mock_vast:], on the files
    [store] that scanning the fake snapshot store yields. *)
Definition ListSnapshots_mock (store : list dentry) (max_entries : option Z)
    (starting_token source_volume_id snapshot_id : option string)
    : outcome ListSnapResp :=
  match starting_inode_of starting_token with
  | Raised exc => Raised exc
  | Returned starting_inode =>
      let snaps := sorted_by_inode store in
      let start_idx := skip_to starting_inode snaps 0 0 in
      let snaps := drop start_idx snaps in
      let snaps := omap (to_snapshot source_volume_id snapshot_id) snaps in
      let '(remain, snaps) :=
        match max_entries with
        | Some max_entries =>
            if decide (max_entries = 0) then (0, snaps)
            else (0 `max` (Z.of_nat (length snaps) - max_entries),
                  slice_to max_entries snaps)
        | None => (0, snaps)
        end in
      if decide (remain = 0) then
        Returned {| snapshots_next_token := None;
                    snapshots_entries := fst <$> snaps |}
      else
        match last snaps with
        | Some d =>
            Returned {| snapshots_next_token := Some (pretty d.2);
                        snapshots_entries := fst <$> snaps |}
        | None => Raised (IndexError "list index out of range")
        end
  end.
End ListSnapshots.

(** *** [vms_session.py]: the URL of a request *)

(** [s.lstrip("/")] and [s.strip("/")] *)
Fixpoint lstrip_slash (s : string) : string :=
  match s with
  | EmptyString => EmptyString
  | String c rest => if Ascii.eqb c "/" then lstrip_slash rest else s
  end.

Definition strip_slash (s : string) : string :=
  lstrip_slash (VmsSession.rstrip_slash s).

(** The URL [RESTSession.request] sends to, for a session made with
    [base_url]: [__init__] keeps the base without the slashes at its end,
    [request] strips the method and joins base, method, the further
    arguments and an empty string with slashes. *)
Definition request_url (base_url api_method : string) (args : list string)
    : string :=
  let base_url := VmsSession.rstrip_slash base_url in
  let api_method := strip_slash api_method in
  let url := [base_url; api_method] ++ args ++ [""] in
  join "/" url.

(** ** The VMS filter and the reading of traces *)

(** What the VMS answers to [quotas?path__contains=<fragment>] when it
    holds [quotas]: those whose path contains the fragment. *)
Definition matching (quotas : list Quota.t) (fragment : string) : list Quota.t :=
  filter (λ q, contains fragment (Quota.path q) = true) quotas.

(** The steps of a volume's data deletion: everything but the quota lookup
    and the deletion of the view and of the quota. *)
Definition data_step (o : op) : Prop :=
  match o with
  | m_get_quota _ | m_delete_view_by_path _ | m_delete_quota _ => False
  | _ => True
  end.

(** The number of iterations of the unmount loop in a trace (each starts
    with [get_mount]), and the number of [umount] runs. *)
Definition is_get_mount (o : op) : bool :=
  match o with get_mount _ => true | _ => false end.

Definition is_umount (o : op) : bool :=
  match o with cmd_umount _ => true | _ => false end.

Definition rounds (t : list op) : nat := length (List.filter is_get_mount t).

Definition umounts (t : list op) : nat := length (List.filter is_umount t).

(** One iteration of the unmount loop that does not break. *)
Definition unmount_round (target_path : string) : list op :=
  [get_mount target_path; cmd_umount target_path].

(** ** Sample configuration and environments

    Concrete values at which the statements below are instantiated. *)

Definition sample_conf : Config := {|
  Conf.mock_vast := false;
  Conf.csi_sanity_test := false;
  Conf.node_id := "node-1";
  Conf.nfs_server := "127.0.0.1";
  Conf.sanity_test_nfs_export := "/k8s";
  Conf.name_fmt := "csi:{namespace}:{name}:{id}";
  Conf.load_balancing := "roundrobin";
  Conf.storage_class_load_balancing := ROUNDROBIN;
  Conf.mount_options := [];
  Conf.unmount_attempts := 3;
  Conf.deletion_view_policy := "default";
  Conf.deletion_vip_pool := "vp1";
|}.

(** Plain stand-ins for the helpers [Utils] leaves open. *)
Definition sample_utils : Utils := {|
  parse_load_balancing_strategy s :=
    if String.eqb s "roundrobin" then Returned ROUNDROBIN
    else if String.eqb s "random" then Returned RANDOM
    else Raised (Exception ("Invalid load balancing strategy: " +:+ s));
  normalize_mount_options s := filter (λ f, f ≠ "") (split_on "," s);
  string_to_proto_timestamp s := s;
  parse_quantity _ := Returned 1073741824;
  format_name _ namespace name id :=
    Returned ("csi:" +:+ namespace +:+ ":" +:+ name +:+ ":" +:+ id);
  path_join a b := a +:+ "/" +:+ b;
  path_name p := default "" (last (split_on "/" p));
  path_dirname p := join "/" (removelast (split_on "/" p));
  relative_to p base :=
    if String.prefix (base +:+ "/") p
    then String.substring (String.length base + 1) (String.length p) p
    else "../" +:+ p;
|}.

(** The controller of a production deployment whose session has not chosen
    a VIP yet. *)
Definition production (CONF : Config) : Controller :=
  {| vms_session := VmsSession.session CONF (-1) |}.

(** A controller whose session is left to the oracle. *)
Definition some_controller : Controller := {| vms_session := any_session |}.

Definition http_500 : exn :=
  HTTPError "500 Server Error: Internal Server Error for url: https://vms/api/vips/"
    {| status_code := 500; reason := "Internal Server Error";
       text := "Internal Server Error"; json_body := None |}
    "/api/vips/".

(** A VMS that answers every request with HTTP 500. *)
Definition vms_down : oracle := λ _ _, Raised http_500.

Definition quota_42 : Quota.t :=
  {| Quota.id := 42; Quota.name := "csi-pvc-abc"; Quota.path := "/k8s/pvc-abc";
     Quota.hard_limit := 1073741824; Quota.tenant_id := 1 |}.

Definition vip_5 : Vip.t :=
  {| Vip.ip := "10.0.0.5"; Vip.vippool := "vp1"; Vip.cnode := "cnode-1";
     Vip.title := "vip-5" |}.

Definition vip_6 : Vip.t :=
  {| Vip.ip := "10.0.0.6"; Vip.vippool := "vp1"; Vip.cnode := "cnode-2";
     Vip.title := "vip-6" |}.

Definition writer_capability : VolumeCapability :=
  {| Capability.access_mode := MULTI_NODE_MULTI_WRITER;
     Capability.mount := Some {| fs_type := ""; mount_flags := [] |} |}.

(** A VMS holding one volume (quota 42, tenant 1) and a pool of two VIPs. *)
Definition vms_one_volume : oracle := λ _ o,
  match o return outcome (ans o) with
  | GET_quotas_path_contains v => Returned (matching [quota_42] v)
  | GET_vips => Returned [vip_5; vip_6]
  | _ => Raised (Exception "unexpected request")
  end.

Definition publish_request_context : gmap string string :=
  {[ "root_export" := "/k8s"; "vip_pool_name" := "vp1" ]}.

Definition quota_43 : Quota.t :=
  {| Quota.id := 43; Quota.name := "csi-pvc-abc-2"; Quota.path := "/k8s/pvc-abc-2";
     Quota.hard_limit := 2147483648; Quota.tenant_id := 1 |}.

(** A VMS holding two volumes, the name of one a prefix of the other's. *)
Definition vms_two_volumes : oracle := λ _ o,
  match o return outcome (ans o) with
  | GET_quotas_path_contains v => Returned (matching [quota_42; quota_43] v)
  | GET_vips => Returned [vip_5; vip_6]
  | _ => Raised (Exception "unexpected request")
  end.

Definition pod_target : string := "/var/lib/kubelet/pods/P/vol".

Definition nfs_mount : Mount.t :=
  {| Mount.device := "10.0.0.5:/k8s/pvc-abc"; Mount.target := pod_target;
     Mount.opts := "rw,relatime,vers=3" |}.

(** A host on which the target stays mounted although [umount] succeeds. *)
Definition stuck_host : oracle := λ _ o,
  match o return outcome (ans o) with
  | path_exists _ => Returned true
  | path_is_dir _ => Returned true
  | get_mount _ => Returned (Some nfs_mount)
  | cmd_umount _ => Returned tt
  | _ => Raised (Exception "unexpected operation")
  end.

Definition node_publish_context : gmap string string :=
  {[ "nfs_server_ip" := "10.0.0.5"; "export_path" := "/k8s/pvc-abc" ]}.

(** A VMS that refuses to create a snapshot with HTTP 400 and the given
    decoded body. *)
Definition bad_request (body : option json) : exn :=
  ApiError {| status_code := 400; reason := "Bad Request"; text := "";
              json_body := body |}
    "HTTP 400: Bad Request".

Definition snapshot_7 : Snap.t :=
  {| Snap.id := 7; Snap.name := "csi-default-snap-1-snapshot-1";
     Snap.path := "/k8s/pvc-abc"; Snap.created := "2024-01-01T00:00:00Z";
     Snap.tenant_id := 1 |}.

Definition vms_rejects_snapshot (body : option json) : oracle := λ _ o,
  match o return outcome (ans o) with
  | GET_quotas_path_contains v => Returned (matching [quota_42] v)
  | m_ensure_snapshot _ _ _ => Raised (bad_request body)
  | GET_snapshots_name _ => Returned [snapshot_7]
  | _ => Raised (Exception "unexpected request")
  end.

Definition snapshot_parameters : gmap string string :=
  {[ "csi.storage.k8s.io/volumesnapshot/name" := "snap-1";
     "csi.storage.k8s.io/volumesnapshot/namespace" := "default" ]}.

(** [k] calls of [get_vip] in a row on one session under ROUNDROBIN: the
    addresses they return, in order, and the index the session is left
    with. *)
Fixpoint get_vip_times (CONF : Config) (idx : Z) (vip_pool_name : option string)
    (k : nat) : prog (list string * Z) :=
  match k with
  | O => Ret ([], idx)
  | S k' =>
      '(ip, idx) ← VmsSession.get_vip CONF idx vip_pool_name (Some ROUNDROBIN);
      '(ips, idx) ← get_vip_times CONF idx vip_pool_name k';
      Ret (ip :: ips, idx)
  end.


(** The fake snapshot store as a history shows it: the snapshot last
    written under [name], if any. *)
Definition stored (h : list op) (name : string) : option CsiSnapshot :=
  foldl (λ found o,
           match o with
           | snapshot_store_write n snp => if String.eqb n name then Some snp else found
           | _ => found
           end) None h.

(** A host that keeps the fake snapshot store like a directory of files:
    writing succeeds, and reading a name gives what was last written under
    it, or fails with [FileNotFoundError] when nothing was. *)
Definition keeps_snapshot_store (w : oracle) : Prop :=
  ∀ h name,
    (∀ snp, w h (snapshot_store_write name snp) = Returned tt)
    ∧ match stored h name with
      | Some snp => w h (snapshot_store_read name) = Returned snp
      | None => ∃ exc, w h (snapshot_store_read name) = Raised exc
                       ∧ is_FileNotFoundError exc = true
      end.

Definition mock_conf : Config := {|
  Conf.mock_vast := true;
  Conf.csi_sanity_test := true;
  Conf.node_id := "node-1";
  Conf.nfs_server := "127.0.0.1";
  Conf.sanity_test_nfs_export := "/k8s";
  Conf.name_fmt := "csi:{namespace}:{name}:{id}";
  Conf.load_balancing := "roundrobin";
  Conf.storage_class_load_balancing := ROUNDROBIN;
  Conf.mount_options := [];
  Conf.unmount_attempts := 3;
  Conf.deletion_view_policy := "default";
  Conf.deletion_vip_pool := "vp1";
|}.

(** The host of a sanity test: every volume has its quota, the snapshot
    store starts empty. *)
Definition mock_host : oracle := λ h o,
  match o return outcome (ans o) with
  | m_get_quota _ => Returned (Some quota_42)
  | snapshot_store_read name =>
      match stored h name with
      | Some snp => Returned snp
      | None => Raised (FileNotFoundError name)
      end
  | snapshot_store_write _ _ => Returned tt
  | utcnow => Returned "2024-01-01T00:00:00Z"
  | _ => Raised (Exception "unexpected operation")
  end.

(** A host on which the target does not exist yet and every step of
    setting it up succeeds. *)
Definition fresh_host : oracle := λ _ o,
  match o return outcome (ans o) with
  | path_is_dir _ => Returned false
  | path_mkdir _ | json_dump _ _ | cmd_mount _ _ _ => Returned tt
  | _ => Raised (Exception "unexpected operation")
  end.

Definition ephemeral_context : gmap string string :=
  {[ "csi.storage.k8s.io/ephemeral" := "true" ]}.

(** A host holding the sidecar of the ephemeral volume "pvc-abc", whose
    quota is gone from the VMS already. *)
Definition published_host : oracle := λ _ o,
  match o return outcome (ans o) with
  | path_exists _ => Returned true
  | json_load _ =>
      Returned (JObj [("volume_id", JStr "pvc-abc"); ("is_ephemeral", JBool true)])
  | m_get_quota _ => Returned None
  | _ => Raised (Exception "unexpected operation")
  end.

(** A configuration that allows no unmount attempt. *)
Definition impatient_conf : Config := {|
  Conf.mock_vast := false;
  Conf.csi_sanity_test := false;
  Conf.node_id := "node-1";
  Conf.nfs_server := "127.0.0.1";
  Conf.sanity_test_nfs_export := "/k8s";
  Conf.name_fmt := "csi:{namespace}:{name}:{id}";
  Conf.load_balancing := "roundrobin";
  Conf.storage_class_load_balancing := ROUNDROBIN;
  Conf.mount_options := [];
  Conf.unmount_attempts := 0;
  Conf.deletion_view_policy := "default";
  Conf.deletion_vip_pool := "vp1";
|}.

(** The operations on the controller's own host, as opposed to calls of
    the VMS session. *)
Definition host_step (o : op) : Prop :=
  match o with
  | mkdtemp | path_touch _ | cmd_mount _ _ _ | path_exists _ | path_delete _
  | path_list _ | cmd_umount_v _ | os_remove _ | os_rmdir _ => True
  | _ => False
  end.

Definition default_policy : ViewPolicy.t :=
  {| ViewPolicy.id := 3; ViewPolicy.name := "default"; ViewPolicy.tenant_id := 1 |}.

Definition parent_view : View.t :=
  {| View.id := 9; View.path := "/k8s"; View.alias := "/csi-deletion-1";
     View.tenant_id := 1 |}.

(** A VMS without the trash API and a controller host on which every step
    of the deletion through a local mount succeeds. *)
Definition deleting_host : oracle := λ _ o,
  match o return outcome (ans o) with
  | m_is_trash_api_usable => Returned false
  | m_ensure_view_policy _ => Returned default_policy
  | m_get_vip _ => Returned "10.0.0.5"
  | m_temp_view_enter _ _ _ => Returned parent_view
  | mkdtemp => Returned "/tmp/tmp1"
  | path_exists p => Returned (negb (String.eqb p "/tmp/tmp1/.csi-unmounted"))
  | path_touch _ | cmd_mount _ _ _ | path_delete _ | cmd_umount_v _ | os_remove _
  | os_rmdir _ | m_temp_view_exit _ => Returned tt
  | _ => Raised (Exception "unexpected operation")
  end.

Definition deletion_vip_request : get_vip_args :=
  {| kw_vip_pool_name := Given (Some "vp1"); kw_load_balancing := Omitted;
     kw_tenant_id := Given 1 |}.

(** What the deletion of "/k8s/pvc-abc" issues on that host. *)
Definition deleting_trace : list op :=
  [m_is_trash_api_usable; m_ensure_view_policy "default";
   m_get_vip deletion_vip_request; m_temp_view_enter "/k8s" 3 1;
   mkdtemp; path_touch "/tmp/tmp1/.csi-unmounted";
   cmd_mount [] "10.0.0.5:/csi-deletion-1" "/tmp/tmp1";
   path_exists "/tmp/tmp1/.csi-unmounted"; path_exists "/tmp/tmp1/pvc-abc";
   path_delete "/tmp/tmp1/pvc-abc";
   cmd_umount_v "/tmp/tmp1"; os_remove "/tmp/tmp1/.csi-unmounted";
   os_rmdir "/tmp/tmp1"; m_temp_view_exit parent_view].

(** A session that finds quota 42 for every volume and hands out one
    address. *)
Definition publishing_vms : oracle := λ _ o,
  match o return outcome (ans o) with
  | m_get_quota _ => Returned (Some quota_42)
  | m_get_vip _ => Returned "10.0.0.5"
  | _ => Raised (Exception "unexpected request")
  end.

Definition published_volume : CtrlPublishResp :=
  {| CtrlPublishResp.publish_context :=
       {[ "export_path" := "/k8s/pvc-abc"; "nfs_server_ip" := "10.0.0.5" ]} |}.

(** A stand-in for [int] on strings of decimal digits. *)
Fixpoint digits (acc : Z) (s : string) : option Z :=
  match s with
  | EmptyString => Some acc
  | String c rest =>
      let n := Z.of_nat (nat_of_ascii c) in
      if (48 <=? n) && (n <=? 57) then digits (10 * acc + (n - 48)) rest else None
  end.

Definition sample_int (s : string) : outcome Z :=
  match s, digits 0 s with
  | String _ _, Some n => Returned n
  | _, _ => Raised (ValueError ("invalid literal for int() with base 10: '" +:+ s +:+ "'"))
  end.

Definition mock_snapshot (name : string) : CsiSnapshot :=
  {| Snapshot.size_bytes := 0; Snapshot.snapshot_id := name;
     Snapshot.source_volume_id := "pvc-abc";
     Snapshot.creation_time := "2024-01-01T00:00:00Z";
     Snapshot.ready_to_use := true |}.

(** The fake snapshot store with three files, as a scan reports them. *)
Definition sample_store : list dentry :=
  [(12, mock_snapshot "snap-b"); (11, mock_snapshot "snap-a");
   (13, mock_snapshot "snap-c")].

(** The order of the mock listing: by inode, and strictly so. *)
Definition inode_le (a b : dentry) : Prop := a.1 ≤ b.1.

Definition inode_lt (a b : dentry) : Prop := a.1 < b.1.

(** The volume context of an ephemeral volume of the pod "web-0". *)
Definition ephemeral_pod_context : gmap string string :=
  {[ "csi.storage.k8s.io/ephemeral" := "true";
     "csi.storage.k8s.io/pod.uid" := "uid-1";
     "csi.storage.k8s.io/pod.name" := "web-0";
     "csi.storage.k8s.io/pod.namespace" := "default" ]}.

(** The characters the normalization of the mount options keeps: all but
    white space, commas and brackets. *)
Definition kept_in_options (c : ascii) : bool :=
  negb (is_space c || Ascii.eqb c "," || Ascii.eqb c "[" || Ascii.eqb c "]").

(** Two capabilities with mount flags, after one without a mount block. *)
Definition flagged_capabilities : list VolumeCapability :=
  [ {| Capability.access_mode := MULTI_NODE_MULTI_WRITER; Capability.mount := None |};
    {| Capability.access_mode := MULTI_NODE_MULTI_WRITER;
       Capability.mount :=
         Some {| fs_type := ""; mount_flags := ["[ro"; "vers=4 ,  noatime]"] |} |};
    {| Capability.access_mode := MULTI_NODE_MULTI_WRITER;
       Capability.mount := Some {| fs_type := ""; mount_flags := ["rw"] |} |} ].

(** * Properties *)

(** ** Running composed programs *)

Lemma run_bind {A B : Type} (w : oracle) (p : prog A) (f : A → prog B) :
  ∀ h, run w h (p ≫= f) =
       match run w h p with
       | (Returned a, t) => let '(r, t') := run w (h ++ t) (f a) in (r, t ++ t')
       | (Raised e, t) => (Raised e, t)
       end.
Proof.
  unfold mbind, prog_bind.
  induction p as [a|e|o k IH]; intros h; simpl.
  - rewrite app_nil_r. by destruct (run w h (f a)).
  - done.
  - rewrite IH. destruct (run w (h ++ [o]) (k (w h o))) as [[a|e] t]; [|done].
    rewrite <- app_assoc. simpl.
    by destruct (run w (h ++ o :: t) (f a)).
Qed.

Lemma run_attempt {A : Type} (w : oracle) (p : prog A) :
  ∀ h, run w h (attempt p) = (Returned (run w h p).1, (run w h p).2).
Proof.
  induction p as [a|e|o k IH]; intros h; simpl; try done.
  rewrite IH. by destruct (run w (h ++ [o]) (k (w h o))).
Qed.

Lemma run_call (w : oracle) (h : list op) (o : op) :
  run w h (call o) = (w h o, [o]).
Proof. unfold call. simpl. by destruct (w h o). Qed.

(** Rewrite the run of a single operation into the oracle's answer. *)
Ltac run_call_step :=
  match goal with
  | |- context [run ?w ?h (call ?o)] =>
      first
        [ rewrite (run_call w h o)
        | let H := fresh in
          pose proof (run_call w h o) as H; cbn [ans] in H; rewrite H; clear H ]
  end.

Lemma run_lift {A : Type} (w : oracle) (h : list op) (r : outcome A) :
  run w h (lift r) = (r, []).
Proof. by destruct r. Qed.

Lemma run_try_except {A : Type} (w : oracle) (p : prog A) (handles : exn → bool)
    (hd : exn → prog A) (h : list op) :
  run w h (try_except p handles hd) =
    match run w h p with
    | (Returned a, t) => (Returned a, t)
    | (Raised e, t) =>
        if handles e then let '(r, t') := run w (h ++ t) (hd e) in (r, t ++ t')
        else (Raised e, t)
    end.
Proof.
  unfold try_except. rewrite run_bind, run_attempt.
  destruct (run w h p) as [[a|e] t]; simpl.
  - by rewrite app_nil_r.
  - destruct (handles e); simpl; [done|by rewrite app_nil_r].
Qed.

Lemma run_try_finally {A : Type} (w : oracle) (p : prog A) (fin : prog unit)
    (h : list op) :
  run w h (try_finally p fin) =
    let '(r, t) := run w h p in
    match run w (h ++ t) fin with
    | (Returned _, t') => (r, t ++ t')
    | (Raised e, t') => (Raised e, t ++ t')
    end.
Proof.
  unfold try_finally. rewrite run_bind, run_attempt.
  destruct (run w h p) as [r t]; simpl.
  rewrite run_bind.
  destruct (run w (h ++ t) fin) as [[[]|e] t']; [|done].
  destruct r; simpl; by rewrite app_nil_r.
Qed.

(** ** The dispatcher *)

#[global] Instance str_le_total : Total str_le.
Proof. intros s1 s2. apply String.leb_total. Qed.

Lemma elem_of_required_params (parameters : signature) (f : string) :
  f ∈ required_params parameters ↔ (f, false) ∈ parameters ∧ f ≠ "self".
Proof.
  unfold required_params.
  rewrite elem_of_difference, elem_of_list_to_set, list_elem_of_fmap, not_elem_of_singleton.
  split.
  - intros [[[n d] [-> Hin]] Hself]. apply list_elem_of_filter in Hin as [Hd Hin].
    simpl in *. destruct d; [done|]. by split.
  - intros [Hin Hself]. split; [|done].
    exists (f, false). split; [done|]. apply list_elem_of_filter. by split.
Qed.

Lemma elem_of_missing_fields {V : Type} (parameters : signature)
    (params : gmap string V) (f : string) :
  f ∈ missing_fields parameters params ↔
    (f, false) ∈ parameters ∧ (f ∉ ["self"; "request"; "context"]) ∧ params !! f = None.
Proof.
  unfold missing_fields.
  rewrite !elem_of_difference, elem_of_required_params, not_elem_of_dom.
  rewrite !not_elem_of_cons, not_elem_of_union, !not_elem_of_singleton.
  pose proof (not_elem_of_nil f). tauto.
Qed.

(** C9: when a field the handler declares without a default is not among the
    request's present fields, the wrapped RPC aborts with INVALID_ARGUMENT and
    the message "Missing required fields: " followed by the missing names,
    sorted and separated by ", "; it does so before the handler runs: no
    operation is issued and the handler [func] has no part in the outcome. *)
Theorem logged_missing_required_fields {V R : Type} (render : exn → string)
    (method : string) (parameters : signature) (func : gmap string V → prog R)
    (request : gmap string V) (field : string) (w : oracle) (h : list op) :
  (field, false) ∈ parameters →
  field ∉ ["self"; "request"; "context"] →
  request !! field = None →
  let missing := merge_sort str_le (elements (missing_fields parameters request)) in
  run w h (logged render method parameters func request)
    = (Returned (Aborted INVALID_ARGUMENT
                   ("Missing required fields: " +:+ join ", " missing)), [])
  ∧ Sorted str_le missing
  ∧ NoDup missing
  ∧ ∀ f, f ∈ missing ↔
         (f, false) ∈ parameters ∧ (f ∉ ["self"; "request"; "context"])
         ∧ request !! f = None.
Proof.
  intros Hreq Hname Habsent missing.
  assert (Hne : missing_fields parameters request ≠ ∅).
  { intros Hempty.
    assert (field ∈ missing_fields parameters request) as Hin
      by by apply elem_of_missing_fields.
    rewrite Hempty in Hin. by apply not_elem_of_empty in Hin. }
  split; [|split; [|split]].
  - unfold logged. rewrite run_bind, run_attempt.
    destruct (decide (missing_fields parameters request = ∅)); [done|].
    reflexivity.
  - apply Sorted_merge_sort, _.
  - unfold missing. rewrite merge_sort_Permutation. apply NoDup_elements.
  - intros f. unfold missing.
    rewrite merge_sort_Permutation, elem_of_elements.
    apply elem_of_missing_fields.
Qed.

Lemma logged_missing_required_fields_witness :
  run vms_down []
    (logged str_exn "ControllerExpandVolume"
       [("self", false); ("volume_id", false); ("capacity_range", false)]
       (λ _ : gmap string string, Ret tt) {[ "volume_id" := "pvc-abc" ]})
  = (Returned (Aborted INVALID_ARGUMENT "Missing required fields: capacity_range"), []).
Proof.
  etransitivity.
  - apply (logged_missing_required_fields str_exn "ControllerExpandVolume"
      [("self", false); ("volume_id", false); ("capacity_range", false)]
      (λ _ : gmap string string, Ret tt) {[ "volume_id" := "pvc-abc" ]}
      "capacity_range" vms_down []).
    + by apply (bool_decide_unpack _).
    + by apply (bool_decide_unpack _).
    + reflexivity.
  - vm_compute. reflexivity.
Defined.

(** ** Identity *)

(** Probe over any session object: READY with no operation at all when a
    Node is configured or mock mode is on.  With only a Controller, it calls
    the session's [get_vip()]: READY exactly when the call returns;
    FAILED_PRECONDITION, carrying the error's text, exactly when the call
    raises an [ApiError]; any other exception leaves Probe as it was raised.
    With neither service it answers NotReady. *)
Theorem Probe_ready (CONF : Config) (self : Identity) (w : oracle) :
  run w [] (Probe CONF self) =
    if node self || Conf.mock_vast CONF then (Returned ProbeRespOK, [])
    else match controller self with
         | None => (Returned ProbeRespNotReady, [])
         | Some c =>
             match run w [] (Session.get_vip (vms_session c) no_arguments) with
             | (Returned _, t) => (Returned ProbeRespOK, t)
             | (Raised (ApiError response text), t) =>
                 (Raised (Abort FAILED_PRECONDITION text), t)
             | (Raised exc, t) => (Raised exc, t)
             end
         end.
Proof.
  unfold Probe.
  destruct (node self); [done|]. destruct (Conf.mock_vast CONF); [done|]. simpl.
  destruct (controller self) as [c|]; [|done].
  rewrite run_bind, run_try_except, run_bind.
  destruct (run w [] (Session.get_vip (vms_session c) no_arguments)) as [[ip|e] t];
    simpl.
  - by rewrite !app_nil_r.
  - destruct e; simpl; by rewrite ?app_nil_r.
Qed.

(** On a session object that accepts the call [get_vip()], with only a
    Controller configured and a VMS that answers the VIP query with HTTP 500,
    Probe does not abort with FAILED_PRECONDITION: the [HTTPError] leaves
    it. *)
Lemma Probe_http_error_propagates :
  let self := {| controller := Some some_controller; node := false |} in
  (run vms_down [] (Session.get_vip any_session no_arguments)).1 = Raised http_500
  ∧ (run vms_down [] (Probe sample_conf self)).1 = Raised http_500
  ∧ is_Abort http_500 = false.
Proof. by vm_compute. Qed.

(** On the production session as written the call [get_vip()] of Probe lacks
    the pool name: it ends in [TypeError] whatever the VMS holds. *)
Example Probe_production_session (w : oracle) :
  run w [] (Probe sample_conf
              {| controller := Some (production sample_conf); node := false |})
  = (Raised (TypeError
       "get_vip() missing 1 required positional argument: 'vip_pool_name'"), []).
Proof. done. Qed.

(** C7, where the code departs from the claim: with only a Controller
    configured, on the session of [vms_session.py], Probe is READY only in
    mock mode.  With mock mode off it never answers READY and never aborts,
    with FAILED_PRECONDITION or any other code, whatever the VMS holds and
    whatever the session's round-robin index: the call [get_vip()] lacks the
    pool name that the session's [get_vip] requires, so it ends in
    [TypeError] before any request is sent.  This is so on a VMS with a pool
    of two VIPs, where the session's [get_vip], given the pool's name, does
    fetch a VIP. *)
Theorem Probe_controller_only_type_error (CONF : Config) (idx : Z) (w : oracle) :
  let self :=
    {| controller := Some {| vms_session := VmsSession.session CONF idx |};
       node := false |} in
  let probe := run w [] (Probe CONF self) in
  (if Conf.mock_vast CONF then probe = (Returned ProbeRespOK, [])
   else probe.2 = []
        ∧ probe.1 ≠ Returned ProbeRespOK
        ∧ (∀ code text, probe.1 ≠ Raised (Abort code text))
        ∧ ∃ message, probe.1 = Raised (TypeError message))
  ∧ run vms_one_volume [] (VmsSession.get_vip sample_conf (-1) (Some "vp1") None)
    = (Returned ("10.0.0.5", 0), [GET_vips])
  ∧ ∃ message,
      run vms_one_volume []
        (Probe sample_conf
           {| controller := Some (production sample_conf); node := false |})
      = (Raised (TypeError message), []).
Proof.
  intros self probe. split; [|split].
  - unfold probe, self, Probe. cbn [node controller vms_session].
    destruct (Conf.mock_vast CONF); [done|].
    repeat split; [done|by intros ? ?|by eexists].
  - done.
  - by eexists.
Qed.

(** ** Controller: expansion *)

(** C6: ControllerExpandVolume first looks the quota up.  A missing quota
    aborts with NOT_FOUND.  With a quota whose hard limit already covers the
    request, the reply carries the current limit and nothing beyond the
    lookup is issued, so the quota is unchanged.  Otherwise the session's
    [update_quota] is called with the quota's id and the requested size: when
    it returns, the reply carries the requested size; an [ApiError] aborts
    with OUT_OF_RANGE.  Every reply has [node_expansion_required = false]. *)
Theorem ControllerExpandVolume_spec (self : Controller) (volume_id : string)
    (required_bytes : Z) (w : oracle) :
  let expand := ControllerExpandVolume self volume_id required_bytes in
  match run w [] (Session.get_quota (vms_session self) volume_id) with
  | (Raised exc, t) => run w [] expand = (Raised exc, t)
  | (Returned None, t) =>
      run w [] expand
        = (Raised (Abort NOT_FOUND ("Not found quota with id: " +:+ volume_id)), t)
  | (Returned (Some quota), t) =>
      if decide (required_bytes ≤ Quota.hard_limit quota) then
        run w [] expand
          = (Returned {| expand_capacity_bytes := Quota.hard_limit quota;
                         node_expansion_required := false |}, t)
      else
        match run w t (Session.update_quota (vms_session self) (Quota.id quota)
                         required_bytes) with
        | (Returned _, t') =>
            run w [] expand
              = (Returned {| expand_capacity_bytes := required_bytes;
                             node_expansion_required := false |}, t ++ t')
        | (Raised (ApiError _ text), t') =>
            run w [] expand
              = (Raised (Abort OUT_OF_RANGE
                           ("Failed updating quota " +:+ pretty (Quota.id quota)
                            +:+ ": " +:+ text)), t ++ t')
        | (Raised exc, t') => run w [] expand = (Raised exc, t ++ t')
        end
  end
  ∧ ∀ resp t, run w [] expand = (Returned resp, t) →
              node_expansion_required resp = false.
Proof.
  intros expand.
  assert (Hrun : run w [] expand =
    match run w [] (Session.get_quota (vms_session self) volume_id) with
    | (Raised exc, t) => (Raised exc, t)
    | (Returned None, t) =>
        (Raised (Abort NOT_FOUND ("Not found quota with id: " +:+ volume_id)), t)
    | (Returned (Some quota), t) =>
        if decide (required_bytes ≤ Quota.hard_limit quota) then
          (Returned {| expand_capacity_bytes := Quota.hard_limit quota;
                       node_expansion_required := false |}, t)
        else
          match run w t (Session.update_quota (vms_session self) (Quota.id quota)
                           required_bytes) with
          | (Returned _, t') =>
              (Returned {| expand_capacity_bytes := required_bytes;
                           node_expansion_required := false |}, t ++ t')
          | (Raised (ApiError _ text), t') =>
              (Raised (Abort OUT_OF_RANGE
                         ("Failed updating quota " +:+ pretty (Quota.id quota)
                          +:+ ": " +:+ text)), t ++ t')
          | (Raised exc, t') => (Raised exc, t ++ t')
          end
    end).
  { unfold expand, ControllerExpandVolume. rewrite run_bind.
    destruct (run w [] (Session.get_quota (vms_session self) volume_id))
      as [[[quota|]|exc] t]; simpl; [|by rewrite app_nil_r|done].
    rewrite run_bind.
    destruct (decide (required_bytes ≤ Quota.hard_limit quota)); simpl.
    { by rewrite !app_nil_r. }
    rewrite run_bind, run_try_except.
    destruct (run w t (Session.update_quota (vms_session self) (Quota.id quota)
                         required_bytes)) as [[[]|exc] t']; simpl.
    - by rewrite !app_nil_r.
    - destruct exc; simpl; by rewrite ?app_nil_r. }
  split.
  - rewrite Hrun.
    destruct (run w [] (Session.get_quota (vms_session self) volume_id))
      as [[[quota|]|exc] t]; try done.
    destruct (decide (required_bytes ≤ Quota.hard_limit quota)); [done|].
    destruct (run w t (Session.update_quota (vms_session self) (Quota.id quota)
                         required_bytes)) as [[[]|exc] t']; [done|].
    by destruct exc.
  - intros resp t. rewrite Hrun.
    destruct (run w [] (Session.get_quota (vms_session self) volume_id))
      as [[[quota|]|exc] t0]; try done.
    destruct (decide (required_bytes ≤ Quota.hard_limit quota)).
    { by intros [= <- _]. }
    destruct (run w t0 (Session.update_quota (vms_session self) (Quota.id quota)
                          required_bytes)) as [[[]|exc] t'].
    { by intros [= <- _]. }
    by destruct exc.
Qed.

(** ** Controller: listing *)

(** The parts of ListVolumes the code does implement: the token
    "invalid-token" aborts with ABORTED before any request, and a page of
    quotas becomes entries with [capacity_bytes = hard_limit] and
    [volume_context = {quota_id}]. *)
Lemma ListVolumes_invalid_token (CONF : Config) (U : Utils) (self : Controller)
    (max_entries : option Z) (w : oracle) :
  run w [] (ListVolumes CONF U self (Some "invalid-token") max_entries)
    = (Raised (Abort ABORTED "Invalid starting_token"), []).
Proof. done. Qed.

Lemma list_entry_fields (CONF : Config) (U : Utils) (quota : Quota.t) :
  Volume.capacity_bytes (list_entry CONF U quota) = Quota.hard_limit quota
  ∧ Volume.volume_context (list_entry CONF U quota)
      = {[ "quota_id" := pretty (Quota.id quota) ]}.
Proof. done. Qed.

(** Which session method ListVolumes calls: [list_quotas(max_entries)] when
    a (non-empty, valid) starting token is given, and [get_by_token] with the
    absent token when none is given. *)
Lemma ListVolumes_dispatch (CONF : Config) (U : Utils) (self : Controller)
    (starting_token : option string) (max_entries : option Z) (w : oracle) :
  starting_token ≠ Some "invalid-token" →
  run w [] (ListVolumes CONF U self starting_token max_entries) =
    match run w [] (if nonempty starting_token
                    then Session.list_quotas (vms_session self) max_entries
                    else Session.get_by_token (vms_session self) starting_token) with
    | (Returned ret, t) =>
        (Returned {| next_token := Page.next_token ret;
                     entries := list_entry CONF U <$> Page.results ret |}, t)
    | (Raised exc, t) => (Raised exc, t)
    end.
Proof.
  intros Hvalid. unfold ListVolumes.
  destruct (decide (starting_token = Some "invalid-token")); [done|].
  rewrite run_bind.
  destruct (run w [] _) as [[ret|exc] t]; simpl; [|done].
  by rewrite app_nil_r.
Qed.

(** C1, where the code departs from the claim: without a starting token the
    production session is asked to follow the absent token, which fails
    before any request is sent, and [max_entries] is never used as a page
    size; with the token of a next page the first page is requested again
    with [page_size = max_entries] and the token is never followed. *)
Theorem ListVolumes_branches_swapped (w : oracle) :
  run w [] (ListVolumes sample_conf sample_utils (production sample_conf)
              None (Some 10))
    = (Raised (AttributeError "'NoneType' object has no attribute 'strip'"), [])
  ∧ trace w (ListVolumes sample_conf sample_utils (production sample_conf)
               (Some "https://vms/api/quotas/?page=2") (Some 10))
      = [GET_quotas_page_size (Some 10)].
Proof.
  unfold trace. split.
  - by rewrite ListVolumes_dispatch.
  - rewrite ListVolumes_dispatch by done. simpl.
    by destruct (w [] (GET_quotas_page_size (Some 10))).
Qed.

(** ** The session's VIP selection *)

(** What [get_vip] does on the addresses of the named pool: the pool alone
    selects them; with none it raises "No vips in pool <name>"; under
    ROUNDROBIN the index moves one step modulo their number and the address
    at the new index is returned. *)
Lemma get_vip_empty_pool (CONF : Config) (idx : Z) (vip_pool_name : string)
    (load_balancing : option Strategy) (w : oracle) (h : list op)
    (all : list Vip.t) :
  w h GET_vips = Returned all →
  filter (λ vip : Vip.t, Some (Vip.vippool vip) = Some vip_pool_name) all = [] →
  run w h (VmsSession.get_vip CONF idx (Some vip_pool_name) load_balancing)
    = (Raised (Exception ("No vips in pool " +:+ vip_pool_name)), [GET_vips]).
Proof.
  intros Hall Hnone. unfold VmsSession.get_vip.
  rewrite run_bind. run_call_step. rewrite Hall, Hnone. done.
Qed.

Lemma get_vip_round_robin (CONF : Config) (idx : Z) (vip_pool_name : option string)
    (w : oracle) (h : list op) (all : list Vip.t) :
  w h GET_vips = Returned all →
  let vips := filter (λ vip : Vip.t, Some (Vip.vippool vip) = vip_pool_name) all in
  vips ≠ [] →
  let idx' := (idx + 1) `mod` Z.of_nat (length vips) in
  ∃ vip, vips !! Z.to_nat idx' = Some vip
         ∧ run w h (VmsSession.get_vip CONF idx vip_pool_name (Some ROUNDROBIN))
             = (Returned (Vip.ip vip, idx'), [GET_vips]).
Proof.
  intros Hall vips Hne idx'.
  assert (Hlen : (0 < length vips)%nat) by (destruct vips; simpl; [done|lia]).
  assert (Hidx : 0 ≤ idx' < Z.of_nat (length vips)) by (apply Z.mod_pos_bound; lia).
  destruct (vips !! Z.to_nat idx') as [vip|] eqn:Hvip.
  2:{ apply lookup_ge_None in Hvip. lia. }
  exists vip. split; [done|].
  unfold VmsSession.get_vip. rewrite run_bind. run_call_step. rewrite Hall. simpl.
  fold vips. destruct vips as [|v vs] eqn:Hvs; [done|].
  fold idx'. rewrite Hvip. done.
Qed.

Lemma run_bind_raises {A B : Type} (w : oracle) (p : prog A) (f : A → prog B)
    (h : list op) :
  (∀ a h', ∃ exc, (run w h' (f a)).1 = Raised exc) →
  ∃ exc, (run w h (p ≫= f)).1 = Raised exc.
Proof.
  intros Hf. rewrite run_bind.
  destruct (run w h p) as [[a|exc] t]; [|by exists exc].
  destruct (Hf a (h ++ t)) as [exc Hexc]. exists exc.
  by destruct (run w (h ++ t) (f a)).
Qed.

(** C3, where the code departs from the claim: [get_vip] takes a pool and a
    strategy and no tenant, while ControllerPublishVolume passes the quota's
    [tenant_id] by keyword.  On the production session the call is refused
    before any address is looked at, so the RPC never replies: whatever the
    request and the VMS, it ends in an exception. *)
Theorem ControllerPublishVolume_never_replies (CONF : Config) (U : Utils)
    (idx : Z) (node_id volume_id : string)
    (volume_capability : option VolumeCapability)
    (volume_context : option (gmap string string)) (w : oracle) :
  ∃ exc,
    (run w [] (ControllerPublishVolume CONF U
                 {| vms_session := VmsSession.session CONF idx |}
                 node_id volume_id volume_capability volume_context)).1
      = Raised exc.
Proof.
  unfold ControllerPublishVolume.
  apply run_bind_raises; intros _ h1.
  apply run_bind_raises; intros root_export h2.
  apply run_bind_raises; intros load_balancing h3.
  destruct (if nonempty _ then _ else _) as [quota_path_fragment export_path].
  apply run_bind_raises; intros vip_pool_name h4.
  apply run_bind_raises; intros [quota|] h5; [|by eexists].
  destruct (_ && _); by eexists.
Qed.

(** The failing call on a VMS with one volume and two addresses in the
    pool: the quota is found, then the keyword is refused. *)
Lemma ControllerPublishVolume_tenant_keyword :
  run vms_one_volume []
    (ControllerPublishVolume sample_conf sample_utils (production sample_conf)
       "node-1" "pvc-abc" (Some writer_capability) (Some publish_request_context))
  = (Raised (TypeError "get_vip() got an unexpected keyword argument 'tenant_id'"),
     [GET_quotas_path_contains "pvc-abc"]).
Proof. by vm_compute. Qed.

(** The mock session's [get_vip] takes the same call. *)
Lemma TestVmsSession_get_vip_accepts_tenant (CONF : Config) (w : oracle)
    (a : get_vip_args) :
  run w [] (TestVmsSession_get_vip CONF a) = (Returned (Conf.nfs_server CONF), []).
Proof. done. Qed.

(** ** Quota lookup *)

(** [contains] is containment as a substring. *)
Lemma prefix_spec (s1 s2 : string) :
  String.prefix s1 s2 = true ↔ ∃ post, s2 = s1 +:+ post.
Proof.
  revert s2. induction s1 as [|c s1 IH]; intros s2.
  - split; [intros _; by exists s2|]. intros _. by destruct s2.
  - destruct s2 as [|c' s2]; simpl.
    + split; [done|]. by intros [post ?].
    + destruct (Ascii.ascii_dec c c') as [->|Hne].
      * rewrite IH. split; intros [post Hpost]; exists post; [by rewrite Hpost|].
        by injection Hpost.
      * split; [done|]. intros [post [= ? ?]]. done.
Qed.

Lemma contains_spec (needle hay : string) :
  contains needle hay = true ↔ ∃ pre post, hay = pre +:+ needle +:+ post.
Proof.
  induction hay as [|c hay IH]; cbn [contains].
  - rewrite orb_false_r, prefix_spec. split.
    + intros [post Hpost]. by exists "", post.
    + intros ([|c pre] & post & Hpre); [by exists post|done].
  - rewrite orb_true_iff, prefix_spec, IH. split.
    + intros [[post Hpost]|(pre & post & ->)].
      * by exists "", post.
      * by exists (String c pre), post.
    + intros ([|c' pre] & post & Hpre).
      * left. by exists post.
      * right. injection Hpre as -> ->. by exists pre, post.
Qed.

Lemma run_getitem (w : oracle) (h : list op) (d : gmap string string)
    (key : string) :
  run w h (getitem d key)
    = (match d !! key with Some v => Returned v | None => Raised (KeyError key) end, []).
Proof. unfold getitem. by destruct (d !! key). Qed.

Lemma run_get_quota (w : oracle) (h : list op) (volume_id : string)
    (found : list Quota.t) :
  w h (GET_quotas_path_contains volume_id) = Returned found →
  run w h (VmsSession.get_quota volume_id) =
    (match found with
     | [] => Returned None
     | [q] => Returned (Some q)
     | _ => Raised (VmsSession.too_many_quotas volume_id found)
     end, [GET_quotas_path_contains volume_id]).
Proof.
  intros Hfound. unfold VmsSession.get_quota.
  rewrite run_bind. run_call_step. rewrite Hfound.
  by destruct found as [|q [|q' rest]].
Qed.

(** C10: on a VMS whose [path__contains] filter selects the quotas whose path
    contains the given string, the production [get_quota] returns [None]
    when none matches, the quota when exactly one matches, and raises "Too
    many quotas on <volume_id>: <names>" when several match.  In the last
    case every handler that looks the volume up through it ends in that
    error right after the lookup (ControllerPublishVolume unless it already
    failed before the lookup), acting on no quota. *)
Theorem get_quota_substring_match (CONF : Config) (U : Utils) (self : Controller)
    (quotas : list Quota.t) (volume_id : string) (w : oracle) :
  Session.get_quota (vms_session self) = VmsSession.get_quota →
  (∀ h, w h (GET_quotas_path_contains volume_id)
          = Returned (matching quotas volume_id)) →
  let found := matching quotas volume_id in
  let lookup := [GET_quotas_path_contains volume_id] in
  let too_many := VmsSession.too_many_quotas volume_id found in
  (∀ q, q ∈ found ↔
         q ∈ quotas ∧ ∃ pre post, Quota.path q = pre +:+ volume_id +:+ post)
  ∧ (found = [] → ∀ h, run w h (VmsSession.get_quota volume_id)
                        = (Returned None, lookup))
  ∧ (∀ q, found = [q] → ∀ h, run w h (VmsSession.get_quota volume_id)
                               = (Returned (Some q), lookup))
  ∧ ((1 < length found)%nat →
       (∀ h, run w h (VmsSession.get_quota volume_id) = (Raised too_many, lookup))
       ∧ run w [] (DeleteVolume CONF U self volume_id) = (Raised too_many, lookup)
       ∧ (∀ required_bytes,
            run w [] (ControllerExpandVolume self volume_id required_bytes) = (Raised too_many, lookup))
       ∧ (∀ name parameters,
            run w [] (CreateSnapshot CONF U self volume_id name parameters) = (Raised too_many, lookup))
       ∧ (∀ capabilities volume_context parameters,
            run w [] (ValidateVolumeCapabilities self volume_id capabilities
                        volume_context parameters) = (Raised too_many, lookup))
       ∧ (∀ node_id capability volume_context,
            nonempty (default ∅ volume_context !! "snapshot_base_path") = false →
            let publish := ControllerPublishVolume CONF U self node_id volume_id
                             capability volume_context in
            run w [] publish = (Raised too_many, lookup)
            ∨ ∃ exc, run w [] publish = (Raised exc, []))).
Proof.
  intros Hsession Hvms found lookup too_many.
  assert (Hget : ∀ h, run w h (VmsSession.get_quota volume_id) =
                      (match found with
                       | [] => Returned None
                       | [q] => Returned (Some q)
                       | _ => Raised (VmsSession.too_many_quotas volume_id found)
                       end, lookup)).
  { intros h. apply run_get_quota, Hvms. }
  split; [|split; [|split]].
  - intros q. unfold found, matching.
    by rewrite list_elem_of_filter, contains_spec, (comm and).
  - intros Hnone h. by rewrite Hget, Hnone.
  - intros q Hone h. by rewrite Hget, Hone.
  - intros Hmany.
    assert (Herr : ∀ h, run w h (VmsSession.get_quota volume_id)
                        = (Raised too_many, lookup)).
    { intros h. rewrite Hget. destruct found as [|q [|q' rest]]; simpl in *; [lia..|done]. }
    split; [done|]. repeat split.
    + unfold DeleteVolume. by rewrite run_bind, Hsession, Herr.
    + intros required_bytes. unfold ControllerExpandVolume.
      by rewrite run_bind, Hsession, Herr.
    + intros name parameters. unfold CreateSnapshot.
      by rewrite run_bind, Hsession, Herr.
    + intros capabilities volume_context parameters.
      unfold ValidateVolumeCapabilities. by rewrite run_bind, Hsession, Herr.
    + intros node_id capability volume_context Hno_base publish.
      unfold publish, ControllerPublishVolume.
      rewrite Hno_base.
      rewrite run_bind, run_lift.
      destruct (validate_one capability) as [[]|exc]; [|right; by eexists].
      simpl. rewrite run_bind.
      assert (Hroot : ∃ r, run w [] (if Conf.mock_vast CONF
                                     then Ret (Conf.sanity_test_nfs_export CONF)
                                     else getitem (default ∅ volume_context) "root_export")
                           = (r, [])).
      { destruct (Conf.mock_vast CONF); [by eexists|]. rewrite run_getitem. by eexists. }
      destruct Hroot as [[root_export|exc] ->]; [|right; by eexists].
      simpl. rewrite run_bind, run_lift.
      destruct (parse_load_balancing_strategy U _) as [load_balancing|exc];
        [|right; by eexists].
      simpl. rewrite run_bind.
      assert (Hpool : ∃ r, run w [] (if Conf.mock_vast CONF then Ret None
                                     else v ← getitem (default ∅ volume_context)
                                                "vip_pool_name"; Ret (Some v))
                           = (r, [])).
      { destruct (Conf.mock_vast CONF); [by eexists|].
        rewrite run_bind, run_getitem.
        destruct (default ∅ volume_context !! "vip_pool_name"); simpl; by eexists. }
      destruct Hpool as [[vip_pool_name|exc] ->]; [|right; by eexists].
      simpl. left. by rewrite run_bind, Hsession, Herr.
Qed.

Lemma get_quota_substring_match_witness :
  (1 < length (matching [quota_42; quota_43] "pvc-abc"))%nat
  ∧ run vms_two_volumes []
      (DeleteVolume sample_conf sample_utils (production sample_conf) "pvc-abc")
    = (Raised (VmsSession.too_many_quotas "pvc-abc" [quota_42; quota_43]),
       [GET_quotas_path_contains "pvc-abc"]).
Proof.
  assert (Hmany : (1 < length (matching [quota_42; quota_43] "pvc-abc"))%nat)
    by (vm_compute; lia).
  split; [exact Hmany|].
  exact (proj1 (proj2 (proj2 (proj2 (proj2
    (get_quota_substring_match sample_conf sample_utils (production sample_conf)
       [quota_42; quota_43] "pvc-abc" vms_two_volumes eq_refl (λ _, eq_refl))))
    Hmany))).
Defined.

(** ** Controller: deletion *)

Lemma emits_run {A : Type} (P : op → Prop) (p : prog A) :
  emits P p → ∀ w h, Forall P (run w h p).2.
Proof.
  induction 1 as [a|e|o k Ho Hk IH]; intros w h; simpl; [constructor..|].
  specialize (IH (w h o) w (h ++ [o])).
  destruct (run w (h ++ [o]) (k (w h o))). by constructor.
Qed.

Lemma emits_bind {A B : Type} (P : op → Prop) (p : prog A) (f : A → prog B) :
  emits P p → (∀ a, emits P (f a)) → emits P (p ≫= f).
Proof.
  intros Hp Hf. unfold mbind, prog_bind.
  induction Hp as [a|e|o k Ho Hk IH]; simpl; [done|constructor|].
  by constructor.
Qed.

Lemma emits_call (P : op → Prop) (o : op) : P o → emits P (call o).
Proof. intros Ho. constructor; [done|]. intros []; constructor. Qed.

Lemma emits_attempt {A : Type} (P : op → Prop) (p : prog A) :
  emits P p → emits P (attempt p).
Proof. induction 1; simpl; by constructor. Qed.

Lemma emits_try_except {A : Type} (P : op → Prop) (p : prog A)
    (handles : exn → bool) (hd : exn → prog A) :
  emits P p → (∀ e, emits P (hd e)) → emits P (try_except p handles hd).
Proof.
  intros Hp Hh. apply emits_bind; [by apply emits_attempt|].
  intros [a|e]; [constructor|]. destruct (handles e); [done|constructor].
Qed.

Lemma emits_try_finally {A : Type} (P : op → Prop) (p : prog A) (fin : prog unit) :
  emits P p → emits P fin → emits P (try_finally p fin).
Proof.
  intros Hp Hfin. apply emits_bind; [by apply emits_attempt|].
  intros r. apply emits_bind; [done|]. intros _. destruct r; constructor.
Qed.

(** Prove [emits] goals along the structure of the program. *)
Ltac emits_steps :=
  repeat first
    [ apply emits_Ret
    | apply emits_Throw
    | match goal with |- emits ?P (call ?o) => exact (emits_call P o I) end
    | apply emits_try_finally
    | apply emits_try_except; [|intros ?]
    | apply emits_attempt
    | apply emits_bind; [|intros ?]
    | match goal with
      | |- emits _ (if ?b then _ else _) => destruct b
      | |- emits _ (match ?x with _ => _ end) => destruct x
      end ].

Lemma delete_data_steps (CONF : Config) (U : Utils) (path : string) (tenant_id : Z) :
  emits data_step (_delete_data_from_storage CONF U some_controller path tenant_id).
Proof.
  unfold _delete_data_from_storage, delete_through_mount, delete_except, mount,
    some_controller, any_session.
  cbn [vms_session Session.is_trash_api_usable Session.delete_folder
       Session.ensure_view_policy Session.get_vip Session.temp_view_enter
       Session.temp_view_exit].
  emits_steps.
Qed.

(** DeleteVolume once the quota is found, for any session: the data
    deletion, then, unless it failed for good, the view, then the quota. *)
Lemma run_DeleteVolume_found (CONF : Config) (U : Utils) (self : Controller)
    (volume_id : string) (w : oracle) (quota : Quota.t) (t0 : list op) :
  run w [] (Session.get_quota (vms_session self) volume_id)
    = (Returned (Some quota), t0) →
  run w [] (DeleteVolume CONF U self volume_id) =
    let '(r, t1) :=
      run w t0 (_delete_data_from_storage CONF U self (Quota.path quota)
                  (Quota.tenant_id quota)) in
    let '(r', t1') :=
      match r with
      | Returned _ => (Returned tt, [])
      | Raised exc =>
          if is_OSError exc && contains "not empty" (str_exn exc) then
            match run w (t0 ++ t1)
                    (Session.has_snapshots (vms_session self) (Quota.path quota)) with
            | (Returned (_ :: _), ts) => (Returned tt, ts)
            | (Returned [], ts) => (Raised exc, ts)
            | (Raised exc', ts) => (Raised exc', ts)
            end
          else (Raised exc, [])
      end in
    match r' with
    | Raised exc => (Raised exc, t0 ++ t1 ++ t1')
    | Returned _ =>
        match run w (t0 ++ t1 ++ t1')
                (Session.delete_view_by_path (vms_session self) (Quota.path quota)) with
        | (Raised exc, t2) => (Raised exc, t0 ++ t1 ++ t1' ++ t2)
        | (Returned _, t2) =>
            let '(r3, t3) :=
              run w (t0 ++ t1 ++ t1' ++ t2)
                (Session.delete_quota (vms_session self) (Quota.id quota)) in
            (r3, t0 ++ t1 ++ t1' ++ t2 ++ t3)
        end
    end.
Proof.
  intros Hquota. unfold DeleteVolume.
  rewrite run_bind, Hquota. cbn [app].
  rewrite run_bind, run_try_except.
  destruct (run w t0 (_delete_data_from_storage _ _ _ _ _)) as [[[]|exc] t1].
  - rewrite run_bind, !app_nil_r.
    destruct (run w (t0 ++ t1) (Session.delete_view_by_path _ _)) as [[[]|exc] t2];
      rewrite <- ?app_assoc; [|done].
    destruct (run w _ (Session.delete_quota _ _)). by rewrite <- ?app_assoc.
  - destruct (is_OSError exc); cbn [andb]; [|by rewrite !app_nil_r].
    destruct (contains "not empty" (str_exn exc)); cbn [negb];
      [|simpl; by rewrite ?app_nil_r].
    rewrite run_bind.
    destruct (run w (t0 ++ t1) (Session.has_snapshots _ _))
      as [[[|snap snaps]|exc'] ts]; simpl; [by rewrite ?app_nil_r| |done].
    rewrite ?app_nil_r, run_bind.
    destruct (run w _ (Session.delete_view_by_path _ _)) as [[[]|exc'] t2];
      rewrite <- ?app_assoc; [|done].
    destruct (run w _ (Session.delete_quota _ _)). by rewrite <- ?app_assoc.
Qed.

(** C2: DeleteVolume first looks the quota up.  With no quota it succeeds
    having done nothing else.  With a quota, the data deletion runs first and
    to its end (none of its steps touches the view or the quota); only when
    it succeeded, or failed with an [OSError] saying "not empty" while the
    VMS reports snapshots on the path, the view is deleted by the quota's
    path, and only after the view the quota by its id.  In the "not empty"
    case nothing further is done to the directory. *)
Theorem DeleteVolume_order (CONF : Config) (U : Utils) (volume_id : string)
    (w : oracle) :
  let delete := DeleteVolume CONF U some_controller volume_id in
  let lookup := m_get_quota volume_id in
  match w [] lookup with
  | Raised exc => run w [] delete = (Raised exc, [lookup])
  | Returned None => run w [] delete = (Returned tt, [lookup])
  | Returned (Some quota) =>
      let path := Quota.path quota in
      let view := m_delete_view_by_path path in
      let finish (steps : list op) :=
        match w (lookup :: steps) view with
        | Raised exc => run w [] delete = (Raised exc, lookup :: steps ++ [view])
        | Returned _ =>
            run w [] delete
              = (w (lookup :: steps ++ [view]) (m_delete_quota (Quota.id quota)),
                 lookup :: steps ++ [view; m_delete_quota (Quota.id quota)])
        end in
      let '(r, data) :=
        run w [lookup]
          (_delete_data_from_storage CONF U some_controller path
             (Quota.tenant_id quota)) in
      Forall data_step data
      ∧ match r with
        | Returned _ => finish data
        | Raised exc =>
            if is_OSError exc && contains "not empty" (str_exn exc) then
              match w (lookup :: data) (m_has_snapshots path) with
              | Returned (_ :: _) => finish (data ++ [m_has_snapshots path])
              | Returned [] =>
                  run w [] delete
                    = (Raised exc, lookup :: data ++ [m_has_snapshots path])
              | Raised exc' =>
                  run w [] delete
                    = (Raised exc', lookup :: data ++ [m_has_snapshots path])
              end
            else run w [] delete = (Raised exc, lookup :: data)
        end
  end.
Proof.
  cbv zeta.
  assert (Hlookup : run w [] (Session.get_quota (vms_session some_controller) volume_id)
                    = (w [] (m_get_quota volume_id), [m_get_quota volume_id]))
    by exact (run_call w [] (m_get_quota volume_id)).
  destruct (w [] (m_get_quota volume_id)) as [[quota|]|exc].
  2,3: unfold DeleteVolume; by rewrite run_bind, Hlookup.
  rewrite (run_DeleteVolume_found _ _ _ _ _ _ _ Hlookup).
  pose proof (emits_run _ _
    (delete_data_steps CONF U (Quota.path quota) (Quota.tenant_id quota))
    w [m_get_quota volume_id]) as Hsteps.
  destruct (run w [m_get_quota volume_id] (_delete_data_from_storage _ _ _ _ _))
    as [r data].
  split; [done|].
  change (Session.delete_view_by_path (vms_session some_controller) (Quota.path quota))
    with (call (m_delete_view_by_path (Quota.path quota))).
  change (Session.delete_quota (vms_session some_controller) (Quota.id quota))
    with (call (m_delete_quota (Quota.id quota))).
  change (Session.has_snapshots (vms_session some_controller) (Quota.path quota))
    with (call (m_has_snapshots (Quota.path quota))).
  destruct r as [[]|exc].
  - destruct (w (m_get_quota volume_id :: data) _) as [[]|exc] eqn:Hview;
      cbn [app]; rewrite app_nil_r; run_call_step; rewrite Hview; [|done].
    cbn [app]. run_call_step. by rewrite <- ?app_assoc.
  - destruct (is_OSError exc && contains "not empty" (str_exn exc));
      [|by rewrite app_nil_r].
    cbn [app]. run_call_step.
    destruct (w (m_get_quota volume_id :: data) (m_has_snapshots _))
      as [[|snap snaps]|exc']; [done| |done].
    destruct (w (m_get_quota volume_id :: data ++ [m_has_snapshots _]) _)
      as [[]|exc'] eqn:Hview; cbn [app]; run_call_step; rewrite Hview;
      [|by rewrite <- ?app_assoc].
    cbn [app]. run_call_step. by rewrite <- ?app_assoc.
Qed.

(** ** Node: unpublishing *)

Lemma umounts_app (t1 t2 : list op) : umounts (t1 ++ t2) = (umounts t1 + umounts t2)%nat.
Proof. unfold umounts. by rewrite List.filter_app, length_app. Qed.

Lemma rounds_app (t1 t2 : list op) : rounds (t1 ++ t2) = (rounds t1 + rounds t2)%nat.
Proof. unfold rounds. by rewrite List.filter_app, length_app. Qed.

(** The unmount loop with [n] iterations left makes at most [n] iterations
    and runs [umount] at most once in each.  It ends without [break] only after [n] rounds in which the path
    was mounted and [umount] succeeded; it breaks when [get_mount] finds no
    mount, or when [umount] fails saying "not mounted"; any other failure
    ends it with that exception. *)
Lemma unmount_loop_spec (target_path : string) (n : nat) (w : oracle) :
  ∀ h,
    let '(r, t) := run w h (unmount_loop target_path n) in
    (umounts t ≤ rounds t ≤ n)%nat
    ∧ match r with
      | Returned false => t = mjoin (replicate n (unmount_round target_path))
      | Returned true =>
          ∃ t', (t = t' ++ [get_mount target_path]
                 ∧ w (h ++ t') (get_mount target_path) = Returned None)
                ∨ (∃ stderr text,
                     t = t' ++ [cmd_umount target_path]
                     ∧ w (h ++ t') (cmd_umount target_path)
                         = Raised (ProcessExecutionError stderr text)
                     ∧ contains "not mounted" stderr = true)
      | Raised exc =>
          ∃ t', (t = t' ++ [get_mount target_path]
                 ∧ w (h ++ t') (get_mount target_path) = Raised exc)
                ∨ (t = t' ++ [cmd_umount target_path]
                   ∧ w (h ++ t') (cmd_umount target_path) = Raised exc)
      end.
Proof.
  induction n as [|n IH]; intros h; [by split|].
  cbn [unmount_loop]. rewrite run_bind. run_call_step.
  destruct (w h (get_mount target_path)) as [[found|]|exc] eqn:Hfound.
  - rewrite run_bind, run_attempt. run_call_step. cbn [fst snd].
    destruct (w (h ++ [get_mount target_path]) (cmd_umount target_path))
      as [[]|exc] eqn:Humount.
    + specialize (IH ((h ++ [get_mount target_path]) ++ [cmd_umount target_path])).
      destruct (run w _ (unmount_loop target_path n)) as [r t].
      destruct IH as [Hcount Hend].
      change ([get_mount target_path] ++ [cmd_umount target_path] ++ t)
        with (unmount_round target_path ++ t).
      split; [rewrite umounts_app, rounds_app; cbn; lia|].
      destruct r as [[]|exc].
      * destruct Hend as [t' [[-> Hw]|(stderr & text & -> & Hw & Hnot)]];
          exists (unmount_round target_path ++ t'); rewrite <- !app_assoc in Hw.
        -- left. by rewrite <- app_assoc.
        -- right. exists stderr, text. by rewrite <- app_assoc.
      * by rewrite Hend.
      * destruct Hend as [t' [[-> Hw]|[-> Hw]]];
          exists (unmount_round target_path ++ t'); rewrite <- !app_assoc in Hw.
        -- left. by rewrite <- app_assoc.
        -- right. by rewrite <- app_assoc.
    + assert (Hother : ∀ A (r : outcome A),
        r = Raised exc →
        let '(r', t) := (r, [get_mount target_path] ++ [cmd_umount target_path] ++ []) in
        (umounts t ≤ rounds t ≤ S n)%nat
        ∧ match r' with
          | Raised exc' =>
              ∃ t', (t = t' ++ [get_mount target_path]
                     ∧ w (h ++ t') (get_mount target_path) = Raised exc')
                    ∨ (t = t' ++ [cmd_umount target_path]
                       ∧ w (h ++ t') (cmd_umount target_path) = Raised exc')
          | Returned _ => True
          end).
      { intros A r ->. split; [cbn; lia|]. exists [get_mount target_path]. by right. }
      destruct exc as [? ?|? ?|? ? ?|?|?|stderr rendered|? ? ? ?|?|?|?|?|?| |?];
        try exact (Hother bool _ eq_refl).
      destruct (contains "not mounted" stderr) eqn:Hnot;
        [|exact (Hother bool _ eq_refl)].
      cbn [run]. split; [cbn; lia|]. exists [get_mount target_path].
      right. exists stderr, rendered. by rewrite app_nil_r.
  - split; [cbn; lia|]. exists []. left. by rewrite !app_nil_r.
  - split; [cbn; lia|]. exists []. left. by rewrite !app_nil_r.
Qed.

(** C8: NodeUnpublishVolume succeeds at once when the target does not exist.
    Otherwise the unmount loop makes at most [unmount_attempts] iterations,
    each with at most one [umount]; it breaks when the target is found not mounted or [umount] fails
    saying "not mounted"; when all attempts are used up the RPC aborts with
    UNKNOWN ("Stuck in unmount loop ...").  After a break the sidecar
    decides: an ephemeral sidecar makes a fresh controller run DeleteVolume
    on the recorded volume; then the sidecar, if there, is removed with
    [os.remove] and the target with [os.rmdir], and with nothing else. *)
Theorem NodeUnpublishVolume_spec (CONF : Config) (U : Utils)
    (fresh_controller : Controller) (target_path : string) (w : oracle) :
  let unpublish := NodeUnpublishVolume CONF U fresh_controller target_path in
  let attempts := Z.to_nat (Conf.unmount_attempts CONF) in
  let there := path_exists target_path in
  let side := sidecar U target_path in
  (w [] there = Returned false → run w [] unpublish = (Returned tt, [there]))
  ∧ (w [] there = Returned true →
       let '(r, loop) := run w [there] (unmount_loop target_path attempts) in
       (umounts loop ≤ rounds loop ≤ attempts)%nat
       ∧ match r with
         | Returned true =>
             (∃ t', (loop = t' ++ [get_mount target_path]
                     ∧ w ([there] ++ t') (get_mount target_path) = Returned None)
                    ∨ (∃ stderr text,
                         loop = t' ++ [cmd_umount target_path]
                         ∧ w ([there] ++ t') (cmd_umount target_path)
                             = Raised (ProcessExecutionError stderr text)
                         ∧ contains "not mounted" stderr = true))
             ∧ run w [] unpublish =
                 (let '(r', t) :=
                    run w (there :: loop)
                      (remove_target CONF U fresh_controller target_path) in
                  (r', there :: loop ++ t))
         | Returned false =>
             loop = mjoin (replicate attempts (unmount_round target_path))
             ∧ run w [] unpublish =
                 (Raised (Abort UNKNOWN
                    ("Stuck in unmount loop of " +:+ target_path
                     +:+ " too many times ("
                     +:+ pretty (Conf.unmount_attempts CONF) +:+ ")")),
                  there :: loop)
         | Raised exc => run w [] unpublish = (Raised exc, there :: loop)
         end)
  ∧ (∀ h, run w h (remove_target CONF U fresh_controller target_path) =
          let '(r, t) :=
            run w h (delete_if_ephemeral CONF U fresh_controller target_path) in
          match r with
          | Raised exc => (Raised exc, t)
          | Returned _ =>
              let '(r', t') :=
                run w (h ++ t) (remove_sidecar_and_target U target_path) in
              (r', t ++ t')
          end)
  ∧ (∀ h m flag volume_id,
       w h (path_exists side) = Returned true →
       w (h ++ [path_exists side]) (json_load side) = Returned (JObj m) →
       dict_get "is_ephemeral" m = Some flag →
       truthy flag = true →
       dict_get "volume_id" m = Some (JStr volume_id) →
       run w h (delete_if_ephemeral CONF U fresh_controller target_path) =
         let '(r, t) :=
           run w (h ++ [path_exists side; json_load side])
             (DeleteVolume CONF U fresh_controller volume_id) in
         (r, path_exists side :: json_load side :: t))
  ∧ (∀ h, run w h (remove_sidecar_and_target U target_path) =
          match w h (path_exists side) with
          | Raised exc => (Raised exc, [path_exists side])
          | Returned true =>
              match w (h ++ [path_exists side]) (os_remove side) with
              | Raised exc => (Raised exc, [path_exists side; os_remove side])
              | Returned _ =>
                  (w (h ++ [path_exists side; os_remove side]) (os_rmdir target_path),
                   [path_exists side; os_remove side; os_rmdir target_path])
              end
          | Returned false =>
              (w (h ++ [path_exists side]) (os_rmdir target_path),
               [path_exists side; os_rmdir target_path])
          end).
Proof.
  cbv zeta. split; [|split; [|split; [|split]]].
  - intros Hthere. unfold NodeUnpublishVolume.
    rewrite run_bind. run_call_step. by rewrite Hthere.
  - intros Hthere.
    pose proof (unmount_loop_spec target_path
                  (Z.to_nat (Conf.unmount_attempts CONF)) w [path_exists target_path])
      as Hloop.
    unfold NodeUnpublishVolume.
    rewrite run_bind. run_call_step. rewrite Hthere. cbn [negb app].
    rewrite run_bind.
    destruct (run w [path_exists target_path] (unmount_loop _ _)) as [r loop].
    destruct Hloop as [Hcount Hend]. split; [done|].
    destruct r as [[]|exc]; [|split; [done|]; cbn [run]; by rewrite app_nil_r|done].
    split; [done|].
    change ([path_exists target_path] ++ loop) with (path_exists target_path :: loop).
    by destruct (run w (path_exists target_path :: loop) (remove_target _ _ _ _)).
  - intros h. unfold remove_target. rewrite run_bind.
    by destruct (run w h (delete_if_ephemeral _ _ _ _)) as [[[]|exc] t].
  - intros h m flag volume_id Hside Hmeta Hflag Htruthy Hvolume.
    unfold delete_if_ephemeral.
    rewrite run_bind. run_call_step. rewrite Hside. cbn [app].
    rewrite run_bind. run_call_step. rewrite Hmeta. cbn [app].
    unfold meta_is_ephemeral, meta_volume_id. rewrite Hflag, Hvolume.
    cbn [from_option]. rewrite Htruthy.
    rewrite <- app_assoc. cbn [mbind prog_bind bind app].
    by destruct (run w _ (DeleteVolume _ _ _ _)).
  - intros h. unfold remove_sidecar_and_target.
    rewrite run_bind. run_call_step.
    destruct (w h (path_exists _)) as [[]|exc]; [| |done]; cbn [app];
      rewrite run_bind.
    + run_call_step.
      destruct (w (h ++ [path_exists _]) (os_remove _)) as [[]|exc]; [|done].
      cbn [app]. run_call_step. by rewrite <- app_assoc.
    + cbn [run]. rewrite app_nil_r. run_call_step. done.
Qed.

Example NodeUnpublishVolume_stuck :
  run stuck_host []
    (NodeUnpublishVolume sample_conf sample_utils (production sample_conf) pod_target)
  = (Raised (Abort UNKNOWN
       "Stuck in unmount loop of /var/lib/kubelet/pods/P/vol too many times (3)"),
     path_exists pod_target
     :: unmount_round pod_target ++ unmount_round pod_target
        ++ unmount_round pod_target).
Proof. by vm_compute. Qed.

(** ** Node: publishing *)

(** C5: once NodePublishVolume has the device to mount, a target that is a
    directory with a mount on it settles the RPC without touching the host:
    only the two inspections are issued.  It succeeds when the mount's
    device is the device to mount and "ro" is among its options exactly when
    [readonly] is set; it aborts with ALREADY_EXISTS naming the mounted
    device when the device differs, and naming the mounted mode when only
    the mode differs.  For a request that is not ephemeral nothing is issued
    before the inspections either. *)
Theorem NodePublishVolume_already_mounted (CONF : Config) (U : Utils)
    (fresh_controller : Controller) (volume_id target_path : string)
    (volume_capability : option VolumeCapability)
    (publish_context : option (gmap string string)) (readonly : bool)
    (volume_context : option (gmap string string)) (w : oracle)
    (mount_spec : string) (t0 : list op) (found : Mount.t) :
  run w [] (publish_source CONF U fresh_controller volume_id volume_capability
              publish_context (default ∅ volume_context))
    = (Returned mount_spec, t0) →
  w t0 (path_is_dir target_path) = Returned true →
  w (t0 ++ [path_is_dir target_path]) (get_mount target_path) = Returned (Some found) →
  let publish := NodePublishVolume CONF U fresh_controller volume_id target_path
                   volume_capability publish_context readonly volume_context in
  let inspected := t0 ++ [path_is_dir target_path; get_mount target_path] in
  (Mount.device found = mount_spec → is_readonly found = readonly →
     run w [] publish = (Returned tt, inspected))
  ∧ (Mount.device found ≠ mount_spec →
       run w [] publish
         = (Raised (Abort ALREADY_EXISTS
              ("Volume already mounted from " +:+ Mount.device found
               +:+ " instead of " +:+ mount_spec)), inspected))
  ∧ (Mount.device found = mount_spec → is_readonly found ≠ readonly →
       run w [] publish
         = (Raised (Abort ALREADY_EXISTS
              ("Volume already mounted as "
               +:+ (if is_readonly found then "readonly" else "readwrite"))),
            inspected))
  ∧ (is_readonly found = true ↔ "ro" ∈ split_on "," (Mount.opts found))
  ∧ (truthy (ephemeral_flag (default ∅ volume_context)) = false → t0 = []).
Proof.
  intros Hsource Hdir Hmount publish inspected.
  assert (Hrun : run w [] publish =
    (if decide (Mount.device found ≠ mount_spec)
     then Raised (already_mounted_from (Mount.device found) mount_spec)
     else if negb (Bool.eqb (is_readonly found) readonly)
          then Raised (already_mounted_as (is_readonly found))
          else Returned tt, inspected)).
  { unfold publish, NodePublishVolume. rewrite run_bind, Hsource. cbn [app].
    unfold publish_target. rewrite run_bind. run_call_step. rewrite Hdir.
    cbn [negb]. rewrite run_bind. run_call_step. rewrite Hmount.
    unfold inspected.
    destruct (decide (Mount.device found ≠ mount_spec)); [done|].
    by destruct (negb (Bool.eqb (is_readonly found) readonly)). }
  split; [|split; [|split; [|split]]].
  - intros Hdevice Hmode. rewrite Hrun.
    destruct (decide (Mount.device found ≠ mount_spec)); [done|].
    by rewrite Hmode, Bool.eqb_reflx.
  - intros Hdevice. rewrite Hrun.
    by destruct (decide (Mount.device found ≠ mount_spec)).
  - intros Hdevice Hmode. rewrite Hrun.
    destruct (decide (Mount.device found ≠ mount_spec)); [done|].
    destruct (Bool.eqb (is_readonly found) readonly) eqn:Heq; [|done].
    by apply Bool.eqb_prop in Heq.
  - unfold is_readonly. apply bool_decide_eq_true.
  - intros Hflag. revert Hsource. unfold publish_source. rewrite Hflag.
    rewrite run_bind.
    destruct volume_capability as [capability|]; [|done]. cbn [run app].
    rewrite run_bind. unfold publish_getitem.
    destruct publish_context as [context|]; [|done].
    rewrite !run_getitem.
    destruct (context !! "nfs_server_ip") as [nfs_server_ip|]; [|done].
    cbn [app]. rewrite run_bind.
    destruct (String.eqb _ "2"); rewrite !run_getitem.
    + destruct (_ !! "export_path"); [|done].
      cbn [app]. rewrite run_bind, run_lift.
      destruct (validate_one _) as [[]|exc]; [|done].
      cbn [run app]. by intros [= _ <-].
    + destruct (context !! "export_path"); [|done].
      cbn [app]. rewrite run_bind, run_lift.
      destruct (validate_one _) as [[]|exc]; [|done].
      cbn [run app]. by intros [= _ <-].
Qed.

Lemma NodePublishVolume_already_mounted_witness :
  run stuck_host []
    (NodePublishVolume sample_conf sample_utils (production sample_conf)
       "pvc-abc" pod_target (Some writer_capability) (Some node_publish_context)
       false None)
  = (Returned tt, [path_is_dir pod_target; get_mount pod_target]).
Proof.
  apply (NodePublishVolume_already_mounted sample_conf sample_utils
           (production sample_conf) "pvc-abc" pod_target (Some writer_capability)
           (Some node_publish_context) false None stuck_host
           "10.0.0.5:/k8s/pvc-abc" [] nfs_mount).
  - by vm_compute.
  - reflexivity.
  - reflexivity.
  - reflexivity.
  - by vm_compute.
Defined.

Example NodePublishVolume_other_device :
  run stuck_host []
    (NodePublishVolume sample_conf sample_utils (production sample_conf)
       "pvc-abc" pod_target (Some writer_capability)
       (Some (<[ "nfs_server_ip" := "10.0.0.6" ]> node_publish_context))
       false None)
  = (Raised (Abort ALREADY_EXISTS
       "Volume already mounted from 10.0.0.5:/k8s/pvc-abc instead of 10.0.0.6:/k8s/pvc-abc"),
     [path_is_dir pod_target; get_mount pod_target]).
Proof. by vm_compute. Qed.

(** ** Controller: snapshots *)

(** What the pattern [[(k, [v])]] accepts: the body of the name collision,
    but also an object whose member "name" is itself an object with the
    message as its only key. *)
Lemma unpack_single_accepts (response : Response) (k : string) (v : json) :
  unpack_single response = Returned (k, v) ↔
    (json_body response = Some (JObj [(k, JArr [v])]))
    ∨ (∃ k' v', json_body response = Some (JObj [(k, JObj [(k', v')])]) ∧ v = JStr k')
    ∨ (∃ s, json_body response = Some (JObj [(k, JStr s)])
            ∧ String.length s = 1%nat ∧ v = JStr s).
Proof.
  unfold unpack_single. split.
  - intros Hunpack.
    repeat case_match; simplify_eq; eauto 10.
  - intros [->|[(k' & v' & -> & ->)|(s & -> & Hlen & ->)]]; [done..|].
    by destruct (decide (String.length s = 1%nat)).
Qed.

(** The handler of the creation error when the body is exactly the name
    collision: the snapshot of that name is fetched; the call goes on with
    it when its path is the quota's, and aborts with ALREADY_EXISTS
    otherwise. *)
Lemma on_name_collision (self : Controller) (name snapshot_name path : string)
    (response : Response) (text : string) (w : oracle) (h : list op) :
  status_code response = 400 →
  json_body response = Some unique_name_body →
  run w h (on_ensure_snapshot_error self name snapshot_name path
             (ApiError response text)) =
    match run w h (Session.get_snapshot (vms_session self) snapshot_name) with
    | (Returned snap, t) =>
        if decide (Snap.path snap = path) then (Returned snap, t)
        else (Raised (Abort ALREADY_EXISTS
                        ("Snapshot name '" +:+ name +:+ "' is already taken")), t)
    | (Raised exc, t) => (Raised exc, t)
    end.
Proof.
  intros Hstatus Hbody. unfold on_ensure_snapshot_error, unpack_single.
  rewrite Hstatus, Hbody. cbn -[run].
  destruct (decide (400 = 400)); [|done]. rewrite run_bind.
  destruct (run w h _) as [[snap|exc] t]; [|done].
  destruct (decide (Snap.path snap ≠ path)), (decide (Snap.path snap = path));
    cbn [run]; rewrite ?app_nil_r; done.
Qed.

(** A body the pattern rejects with [ValueError], or one it accepts with
    another key or message, aborts with INVALID_ARGUMENT. *)
Lemma on_other_message (self : Controller) (name snapshot_name path : string)
    (response : Response) (text : string) (w : oracle) (h : list op) :
  status_code response = 400 →
  match unpack_single response with
  | Returned (k, v) => is_unique_name k v = false
  | Raised exc => is_ValueError exc = true
  end →
  run w h (on_ensure_snapshot_error self name snapshot_name path
             (ApiError response text))
    = (Raised (Abort INVALID_ARGUMENT text), []).
Proof.
  intros Hstatus Hbody. unfold on_ensure_snapshot_error. rewrite Hstatus.
  destruct (decide (400 = 400)); [|done].
  destruct (unpack_single response) as [[k v]|exc]; by rewrite Hbody.
Qed.

(** C4, where the code departs from the claim: a 400 whose body is a JSON
    array (as a validation error not bound to a field is reported) is another
    body than the name collision, yet CreateSnapshot does not abort with
    INVALID_ARGUMENT: taking [.items()] of the array raises
    [AttributeError], which the handler's [except (ValueError,
    JSONDecodeError)] does not catch, so it leaves the RPC. *)
Theorem CreateSnapshot_array_body :
  run (vms_rejects_snapshot (Some (JArr [JStr "Invalid snapshot name"]))) []
    (CreateSnapshot sample_conf sample_utils (production sample_conf)
       "pvc-abc" "snapshot-1" (Some snapshot_parameters))
  = (Raised (AttributeError "object has no attribute 'items'"),
     [GET_quotas_path_contains "pvc-abc";
      m_ensure_snapshot "csi-default-snap-1-snapshot-1" "/k8s/pvc-abc" 1]).
Proof. by vm_compute. Qed.

(** The same request against the three other answers: the name collision on
    the same path succeeds with the existing snapshot's id; a message for
    another field and a body that is not JSON abort with INVALID_ARGUMENT. *)
Example CreateSnapshot_same_path :
  run (vms_rejects_snapshot (Some unique_name_body)) []
    (CreateSnapshot sample_conf sample_utils (production sample_conf)
       "pvc-abc" "snapshot-1" (Some snapshot_parameters))
  = (Returned {| Snapshot.size_bytes := 0; Snapshot.snapshot_id := "7";
                 Snapshot.source_volume_id := "pvc-abc";
                 Snapshot.creation_time := "2024-01-01T00:00:00Z";
                 Snapshot.ready_to_use := true |},
     [GET_quotas_path_contains "pvc-abc";
      m_ensure_snapshot "csi-default-snap-1-snapshot-1" "/k8s/pvc-abc" 1;
      GET_snapshots_name "csi-default-snap-1-snapshot-1"]).
Proof. by vm_compute. Qed.

Example CreateSnapshot_other_field :
  (run (vms_rejects_snapshot
          (Some (JObj [("path", JArr [JStr "This field is required."])]))) []
     (CreateSnapshot sample_conf sample_utils (production sample_conf)
        "pvc-abc" "snapshot-1" (Some snapshot_parameters))).1
  = Raised (Abort INVALID_ARGUMENT "HTTP 400: Bad Request")
  ∧ (run (vms_rejects_snapshot None) []
       (CreateSnapshot sample_conf sample_utils (production sample_conf)
          "pvc-abc" "snapshot-1" (Some snapshot_parameters))).1
    = Raised (Abort INVALID_ARGUMENT "HTTP 400: Bad Request").
Proof. by vm_compute. Qed.

(** * Further properties *)

(** ** Programs that returned *)

Lemma run_bind_returned {A B : Type} (w : oracle) (h : list op) (p : prog A)
    (f : A → prog B) (b : B) (t : list op) :
  run w h (p ≫= f) = (Returned b, t) →
  ∃ a t1 t2, run w h p = (Returned a, t1)
             ∧ run w (h ++ t1) (f a) = (Returned b, t2) ∧ t = t1 ++ t2.
Proof.
  rewrite run_bind. destruct (run w h p) as [[a|exc] t1]; [|done].
  destruct (run w (h ++ t1) (f a)) as [r t2] eqn:Hf. intros [= -> <-].
  by eexists a, t1, t2.
Qed.

Lemma run_call_returned (w : oracle) (h : list op) (o : op) (a : ans o)
    (t : list op) :
  run w h (call o) = (Returned a, t) → w h o = Returned a ∧ t = [o].
Proof. rewrite run_call. by intros [= -> <-]. Qed.

Lemma run_try_finally_returned {A : Type} (w : oracle) (h : list op) (p : prog A)
    (fin : prog unit) (a : A) (t : list op) :
  run w h (try_finally p fin) = (Returned a, t) →
  ∃ t1 t2, run w h p = (Returned a, t1)
           ∧ run w (h ++ t1) fin = (Returned tt, t2) ∧ t = t1 ++ t2.
Proof.
  rewrite run_try_finally. destruct (run w h p) as [r t1].
  destruct (run w (h ++ t1) fin) as [[[]|exc] t2] eqn:Hfin; [|done].
  intros [= -> <-]. by exists t1, t2.
Qed.

(** Invert the run of a single operation that returned. *)
Ltac call_returned H :=
  match type of H with
  | run ?w ?h (call ?o) = (Returned ?a, ?t) =>
      apply (run_call_returned w h o a t) in H as [_ ->]
  end.

(** ** Capability validation *)

(** A capability [_validate_capabilities] lets pass. *)
Lemma validate_capabilities_cases (capabilities : list VolumeCapability) :
  let accepted (c : VolumeCapability) :=
    Capability.access_mode c ∈ SUPPORTED_ACCESS
    ∧ ∀ m, Capability.mount c = Some m → fs_type m = "" ∨ fs_type m = "ext4" in
  (_validate_capabilities capabilities = Returned tt ∧ Forall accepted capabilities)
  ∨ (∃ message,
       _validate_capabilities capabilities = Raised (Abort INVALID_ARGUMENT message)
       ∧ ¬ Forall accepted capabilities).
Proof.
  intros accepted.
  assert (Hsupported : ∀ m, supported m = true ↔ m ∈ SUPPORTED_ACCESS).
  { intros m. unfold SUPPORTED_ACCESS. rewrite !elem_of_cons, elem_of_nil.
    destruct m; simpl; intuition congruence. }
  induction capabilities as [|c rest IH]; simpl; [by left|].
  assert (Hrest : accepted c →
    (_validate_capabilities rest = Returned tt ∧ Forall accepted (c :: rest))
    ∨ (∃ message,
         _validate_capabilities rest = Raised (Abort INVALID_ARGUMENT message)
         ∧ ¬ Forall accepted (c :: rest))).
  { intros Hc. destruct IH as [[-> Hall]|(message & -> & Hnot)].
    - left. by split; [|constructor].
    - right. exists message. split; [done|]. by intros [_ ?]%Forall_cons. }
  unfold accepted at 1 in Hrest. rewrite <- Hsupported in Hrest.
  assert (Hhead : ¬ accepted c → ¬ Forall accepted (c :: rest))
    by (by intros Hc [? _]%Forall_cons).
  unfold accepted at 1 in Hhead. rewrite <- Hsupported in Hhead.
  destruct (supported (Capability.access_mode c)); simpl.
  2:{ right. eexists. split; [done|]. apply Hhead. by intros [? _]. }
  destruct (Capability.mount c) as [m|]; [|by apply Hrest].
  destruct (String.eqb_spec (fs_type m) "") as [Hempty|Hempty].
  { apply Hrest. split; [done|]. intros ? [= <-]. by left. }
  destruct (String.eqb_spec (fs_type m) "ext4") as [Hext|Hext]; simpl.
  { apply Hrest. split; [done|]. intros ? [= <-]. by right. }
  right. eexists. split; [done|]. apply Hhead.
  intros [_ Hfs]. destruct (Hfs m eq_refl); congruence.
Qed.

(** X1: [_validate_capabilities] returns exactly when every capability has an
    access mode of [SUPPORTED_ACCESS] and, where it has a mount block, a file
    system type that is empty or "ext4"; whenever it raises, it is an [Abort]
    with INVALID_ARGUMENT. *)
Theorem validate_capabilities_accepts (capabilities : list VolumeCapability) :
  (_validate_capabilities capabilities = Returned tt ↔
     Forall (λ c, Capability.access_mode c ∈ SUPPORTED_ACCESS
                  ∧ ∀ m, Capability.mount c = Some m →
                         fs_type m = "" ∨ fs_type m = "ext4") capabilities)
  ∧ (∀ exc, _validate_capabilities capabilities = Raised exc →
            ∃ message, exc = Abort INVALID_ARGUMENT message).
Proof.
  destruct (validate_capabilities_cases capabilities)
    as [[-> Hall]|(message & -> & Hnot)].
  - split; [done|]. by intros exc [=].
  - split; [by split|]. intros exc [= <-]. by eexists.
Qed.

(** ** Controller: validating capabilities *)

(** X2: ValidateVolumeCapabilities looks the quota up and nothing else.
    Without a quota it aborts with NOT_FOUND.  With one it always replies: the
    confirmation echoes the request's context, capabilities and parameters
    when every capability is acceptable, and otherwise the reply carries the
    message of the INVALID_ARGUMENT that the validation raised, so that an
    unsupported capability never aborts this RPC. *)
Theorem ValidateVolumeCapabilities_reply (self : Controller) (volume_id : string)
    (volume_capabilities : list VolumeCapability)
    (volume_context parameters : option (gmap string string)) (w : oracle) :
  let validate := ValidateVolumeCapabilities self volume_id volume_capabilities
                    volume_context parameters in
  let accepted (c : VolumeCapability) :=
    Capability.access_mode c ∈ SUPPORTED_ACCESS
    ∧ ∀ m, Capability.mount c = Some m → fs_type m = "" ∨ fs_type m = "ext4" in
  match run w [] (Session.get_quota (vms_session self) volume_id) with
  | (Raised exc, t) => run w [] validate = (Raised exc, t)
  | (Returned None, t) =>
      run w [] validate
        = (Raised (Abort NOT_FOUND ("Volume " +:+ volume_id +:+ " does not exist")), t)
  | (Returned (Some _), t) =>
      (Forall accepted volume_capabilities
       ∧ run w [] validate
           = (Returned (ValidateConfirmed volume_context volume_capabilities
                          parameters), t))
      ∨ (¬ Forall accepted volume_capabilities
         ∧ ∃ message,
             _validate_capabilities volume_capabilities
               = Raised (Abort INVALID_ARGUMENT message)
             ∧ run w [] validate = (Returned (ValidateMessage message), t))
  end.
Proof.
  intros validate accepted. unfold validate, ValidateVolumeCapabilities.
  rewrite run_bind.
  destruct (run w [] (Session.get_quota (vms_session self) volume_id))
    as [[[quota|]|exc] t]; [|simpl; by rewrite ?app_nil_r..].
  destruct (validate_capabilities_cases volume_capabilities)
    as [[-> Hall]|(message & -> & Hnot)]; simpl; rewrite app_nil_r.
  - by left.
  - right. split; [done|]. by exists message.
Qed.

(** ** Mounting *)

Lemma split_on_cons (sep : ascii) (s : string) : ∃ w ws, split_on sep s = w :: ws.
Proof.
  destruct s as [|c rest]; simpl; [by eexists _, _|].
  destruct (Ascii.eqb c sep); [by eexists _, _|].
  destruct (split_on sep rest); by eexists _, _.
Qed.

(** A string without the separator splits into itself. *)
Lemma split_on_whole (sep c : ascii) (rest : string) :
  split_on sep (String c rest) = [String c rest]
  ↔ Ascii.eqb c sep = false ∧ split_on sep rest = [rest].
Proof.
  simpl. destruct (Ascii.eqb c sep); [by split; [|intros []]|].
  destruct (split_on_cons sep rest) as (w & ws & ->).
  split; [intros [= -> ->]|intros [_ [= -> ->]]]; done.
Qed.

Lemma split_on_pieces (sep : ascii) (s : string) :
  Forall (λ f, split_on sep f = [f]) (split_on sep s).
Proof.
  induction s as [|c rest IH]; simpl; [by constructor|].
  destruct (Ascii.eqb c sep) eqn:Hc; [by constructor|].
  destruct (split_on sep rest) as [|w ws]; [by repeat constructor; simpl; rewrite Hc|].
  apply Forall_cons in IH as [Hw Hws]. constructor; [|done].
  by apply split_on_whole.
Qed.

Lemma split_on_lstrip (sep : ascii) (s : string) :
  split_on sep s = [s] → split_on sep (lstrip s) = [lstrip s].
Proof.
  induction s as [|c rest IH]; [done|]. intros Hs.
  simpl lstrip. destruct (is_space c); [|done].
  apply IH. by apply split_on_whole in Hs as [_ ?].
Qed.

Lemma split_on_rstrip (sep : ascii) (s : string) :
  split_on sep s = [s] → split_on sep (rstrip s) = [rstrip s].
Proof.
  induction s as [|c rest IH]; [done|]. intros Hs.
  apply split_on_whole in Hs as [Hc Hrest]. specialize (IH Hrest).
  simpl rstrip. destruct (rstrip rest) as [|d r].
  - destruct (is_space c); [done|]. by apply split_on_whole.
  - by apply split_on_whole.
Qed.

Lemma split_on_app (sep : ascii) (s t : string) :
  split_on sep s = [s] → split_on sep (s +:+ String sep t) = s :: split_on sep t.
Proof.
  induction s as [|c rest IH]; intros Hs.
  - simpl. by rewrite Ascii.eqb_refl.
  - apply split_on_whole in Hs as [Hc Hrest].
    change (String c rest +:+ String sep t) with (String c (rest +:+ String sep t)).
    simpl. by rewrite Hc, (IH Hrest).
Qed.

(** [sep.join(l).split(sep)] gives [l] back when no item holds the
    separator and [l] is not empty. *)
Lemma split_on_join (sep : ascii) (l : list string) :
  l ≠ [] → Forall (λ f, split_on sep f = [f]) l →
  split_on sep (join (String sep "") l) = l.
Proof.
  intros Hne Hall. induction Hall as [|f l Hf Hl IH]; [done|]. clear Hne.
  destruct l as [|g l]; [done|].
  change (join (String sep "") (f :: g :: l))
    with (f +:+ String sep (join (String sep "") (g :: l))).
  rewrite (split_on_app _ _ _ Hf). f_equal. by apply IH.
Qed.

Lemma lstrip_idemp (s : string) : lstrip (lstrip s) = lstrip s.
Proof.
  induction s as [|c rest IH]; [done|]. simpl.
  destruct (is_space c) eqn:Hc; [done|]. simpl. by rewrite Hc.
Qed.

Lemma rstrip_idemp (s : string) : rstrip (rstrip s) = rstrip s.
Proof.
  induction s as [|c rest IH]; [done|]. simpl.
  destruct (rstrip rest) as [|d r] eqn:Hr.
  - destruct (is_space c) eqn:Hc; [done|]. simpl. by rewrite Hc.
  - change (rstrip (String c (String d r)))
      with (match rstrip (String d r) with
            | EmptyString => if is_space c then EmptyString else String c EmptyString
            | r' => String c r'
            end).
    by rewrite IH.
Qed.

Lemma rstrip_lstrip (s : string) : rstrip s = s → rstrip (lstrip s) = lstrip s.
Proof.
  induction s as [|c rest IH]; [done|]. intros Hs.
  simpl lstrip. destruct (is_space c) eqn:Hc; [|done].
  apply IH. simpl in Hs. destruct (rstrip rest) as [|d r].
  - rewrite Hc in Hs. done.
  - by injection Hs.
Qed.

Lemma strip_idemp (s : string) : strip (strip s) = strip s.
Proof.
  unfold strip. rewrite (rstrip_lstrip (rstrip s)) by apply rstrip_idemp.
  apply lstrip_idemp.
Qed.

(** X3: [mount] runs the mount command exactly once.  The options it passes
    are never empty strings, carry no surrounding white space and no comma, so
    that the argument of [-o], their join with commas, splits back into
    exactly these options; in mock mode the three NFS options come last.  A
    [ProcessExecutionError] of the command becomes [MountFailed] with the
    command's stderr, the source, the target and the options; any other
    outcome is the command's. *)
Theorem mount_command_spec (CONF : Config) (src tgt flags : string) (w : oracle)
    (h : list op) :
  let options := mount_flags_of CONF flags in
  run w h (mount CONF src tgt flags)
    = (match w h (cmd_mount options src tgt) with
       | Returned _ => Returned tt
       | Raised (ProcessExecutionError stderr _) =>
           Raised (MountFailed stderr src tgt options)
       | Raised exc => Raised exc
       end, [cmd_mount options src tgt])
  ∧ Forall (λ f, f ≠ "" ∧ strip f = f ∧ split_on "," f = [f]) options
  ∧ (options ≠ [] → split_on "," (join "," options) = options)
  ∧ (Conf.mock_vast CONF = true → ["port=2049"; "nolock"; "vers=3"] `suffix_of` options).
Proof.
  intros options.
  assert (Hclean : Forall (λ f, f ≠ "" ∧ strip f = f ∧ split_on "," f = [f]) options).
  { unfold options, mount_flags_of.
    apply Forall_forall. intros f Hf. apply list_elem_of_filter in Hf as [Hne Hf].
    split; [done|].
    assert (Hsplit : f ∈ strip <$> split_on "," flags
                     ∨ f ∈ ["port=2049"; "nolock"; "vers=3"]).
    { destruct (Conf.mock_vast CONF); [|by left].
      apply elem_of_app in Hf as [?|?]; [by left|by right]. }
    destruct Hsplit as [Hin|Hin].
    - apply list_elem_of_fmap in Hin as (g & -> & Hg). split; [apply strip_idemp|].
      pose proof (split_on_pieces "," flags) as Hall.
      rewrite Forall_forall in Hall. specialize (Hall g Hg).
      unfold strip. by apply split_on_lstrip, split_on_rstrip.
    - repeat (apply elem_of_cons in Hin as [->|Hin]; [by split|]).
      by apply elem_of_nil in Hin. }
  split; [|split; [done|split]].
  - unfold mount. fold options. rewrite run_try_except. run_call_step.
    destruct (w h (cmd_mount options src tgt)) as [[]|exc]; [done|].
    destruct exc; try done.
  - intros Hne. apply split_on_join; [done|].
    eapply Forall_impl; [exact Hclean|]. by intros f (_ & _ & ?).
  - intros Hmock. unfold options, mount_flags_of. rewrite Hmock.
    rewrite filter_app. by eexists.
Qed.

(** ** The dispatcher: what becomes of a handler's outcome *)

(** X4: When no required field is missing the wrapper runs the handler on the
    request's fields and issues the handler's operations and no other.  A
    value the handler returns is the reply; an [Abort] reaches the client with
    the handler's own code and message; every other exception is reported as
    UNKNOWN.  The wrapper itself never raises an [Abort], and it fails only on
    an [HTTPError] whose response has an empty body, with the [IndexError] of
    taking the first line. *)
Theorem logged_handler_outcome {V R : Type} (render : exn → string)
    (method : string) (parameters : signature) (func : gmap string V → prog R)
    (request : gmap string V) (w : oracle) (h : list op) :
  missing_fields parameters request = ∅ →
  let '(r, t) := run w h (func request) in
  ∃ reply,
    run w h (logged render method parameters func request) = (reply, t)
    ∧ match r with
      | Returned ret => reply = Returned (Reply ret)
      | Raised (Abort code message) => reply = Returned (Aborted code message)
      | Raised (HTTPError _ response _) =>
          if String.eqb (text response) ""
          then reply = Raised (IndexError "list index out of range")
          else ∃ details, reply = Returned (Aborted UNKNOWN details)
      | Raised _ => ∃ details, reply = Returned (Aborted UNKNOWN details)
      end.
Proof.
  intros Hmissing. unfold logged. rewrite run_bind, run_attempt.
  destruct (decide (missing_fields parameters request = ∅)); [|done].
  destruct (run w h (func request)) as [[ret|exc] t]; simpl.
  { eexists. by rewrite app_nil_r. }
  destruct exc; simpl; rewrite ?app_nil_r;
    try (destruct (is_TException _)); simpl; rewrite ?app_nil_r;
    try (by eexists; split; [done|]; eauto).
  unfold first_line. destruct (text response); simpl; rewrite ?app_nil_r;
    eexists; (split; [done|]); eauto.
Qed.

Lemma logged_handler_outcome_witness :
  run vms_down []
    (logged str_exn "ControllerExpandVolume"
       [("self", false); ("volume_id", false)]
       (λ _ : gmap string string,
          Throw (Abort NOT_FOUND "Not found quota with id: pvc-abc") : prog unit)
       {[ "volume_id" := "pvc-abc" ]})
  = (Returned (Aborted NOT_FOUND "Not found quota with id: pvc-abc"), []).
Proof.
  destruct (logged_handler_outcome str_exn "ControllerExpandVolume"
      [("self", false); ("volume_id", false)]
      (λ _ : gmap string string,
         Throw (Abort NOT_FOUND "Not found quota with id: pvc-abc") : prog unit)
      {[ "volume_id" := "pvc-abc" ]} vms_down [])
    as (reply & Hrun & ->).
  - by apply (bool_decide_unpack _).
  - exact Hrun.
Defined.

(** ** The services a mode starts, and the probe *)

(** X5: What [serve] registers decides what the identity service reports and
    what Probe answers.  GetPluginCapabilities reports every item of the
    capabilities as a service type: first the number of ExpansionType.ONLINE,
    in every mode, then the number of ServiceType.CONTROLLER_SERVICE in the
    modes CONTROLLER and CONTROLLER_AND_NODE, and nothing else.  So the
    controller service type is reported exactly when a controller is
    registered or the two enum numbers coincide.  A controller is registered
    exactly in the modes CONTROLLER and CONTROLLER_AND_NODE.  With a node
    registered (NODE, CONTROLLER_AND_NODE) Probe is ready without contacting
    the VMS.  Probe answers "not ready" exactly when the mode is none of the
    three tokens and the driver does not run in mock mode. *)
Theorem serve_probe (ONLINE CONTROLLER_SERVICE : Z) (CONF : Config) (mode : Mode)
    (fresh_controller : Controller) (w : oracle) :
  let identity := (serve ONLINE CONTROLLER_SERVICE mode fresh_controller).1 in
  let capabilities := (serve ONLINE CONTROLLER_SERVICE mode fresh_controller).2 in
  let reported := GetPluginCapabilities capabilities in
  reported = Service ONLINE
             :: match mode with
                | CONTROLLER | CONTROLLER_AND_NODE => [Service CONTROLLER_SERVICE]
                | _ => []
                end
  ∧ (Service CONTROLLER_SERVICE ∈ reported
     ↔ controller identity = Some fresh_controller ∨ ONLINE = CONTROLLER_SERVICE)
  ∧ (controller identity = Some fresh_controller
     ↔ mode = CONTROLLER ∨ mode = CONTROLLER_AND_NODE)
  ∧ (mode = NODE ∨ mode = CONTROLLER_AND_NODE →
     run w [] (Probe CONF identity) = (Returned ProbeRespOK, []))
  ∧ ((run w [] (Probe CONF identity)).1 = Returned ProbeRespNotReady
     ↔ (∃ s, mode = OtherMode s) ∧ Conf.mock_vast CONF = false).
Proof.
  intros identity capabilities reported. split; [|split; [|split; [|split]]].
  - unfold reported, capabilities. by destruct mode.
  - unfold reported, capabilities, identity.
    destruct mode; simpl; rewrite ?elem_of_cons, ?elem_of_nil;
      split; (done || intuition congruence).
  - unfold identity. destruct mode; simpl; split; (done || intuition congruence).
  - unfold identity. by intros [->| ->].
  - unfold identity, Probe. destruct mode as [| | |s]; cbn [serve fst node controller].
    + split; [|by intros [[s [=]] _]].
      destruct (Conf.mock_vast CONF); [done|].
      rewrite run_bind, run_try_except, run_bind.
      destruct (run w [] (Session.get_vip _ _)) as [[ip|exc] t]; simpl; [done|].
      by destruct (is_ApiError exc).
    + split; [done|by intros [[s [=]] _]].
    + split; [done|by intros [[s [=]] _]].
    + destruct (Conf.mock_vast CONF); simpl; split; try done.
      * by intros [_ [=]].
      * intros _. split; [by exists s|done].
Qed.

(** ** The session's VIP selection: fairness and range *)

Lemma run_get_vip_times (CONF : Config) (vip_pool_name : option string)
    (w : oracle) (all : list Vip.t) (k : nat) :
  (∀ h, w h GET_vips = Returned all) →
  let vips := filter (λ vip : Vip.t, Some (Vip.vippool vip) = vip_pool_name) all in
  vips ≠ [] →
  ∀ idx h,
    ∃ ips idx',
      run w h (get_vip_times CONF idx vip_pool_name k)
        = (Returned (ips, idx'), replicate k GET_vips)
      ∧ length ips = k
      ∧ (∀ j, (j < k)%nat →
           ips !! j = Vip.ip <$>
             vips !! Z.to_nat ((idx + 1 + Z.of_nat j) `mod` Z.of_nat (length vips)))
      ∧ idx' = if decide (k = O) then idx
               else (idx + Z.of_nat k) `mod` Z.of_nat (length vips).
Proof.
  intros Hall vips Hne.
  assert (Hlen : 0 < Z.of_nat (length vips)) by (destruct vips; simpl; [done|lia]).
  induction k as [|k IH]; intros idx h.
  { exists [], idx. split; [done|]. split; [done|]. split; [|done]. intros j Hj. lia. }
  destruct (get_vip_round_robin CONF idx vip_pool_name w h all (Hall h) Hne)
    as (vip & Hvip & Hrun).
  fold vips in Hvip, Hrun.
  set (idx1 := (idx + 1) `mod` Z.of_nat (length vips)) in *.
  destruct (IH idx1 (h ++ [GET_vips])) as (ips & idx' & Hrest & Hlength & Hips & Hidx').
  exists (Vip.ip vip :: ips), idx'.
  split; [|split; [|split]].
  - cbn [get_vip_times]. rewrite run_bind, Hrun. cbn beta iota zeta.
    rewrite run_bind, Hrest. cbn. by rewrite app_nil_r.
  - simpl. by rewrite Hlength.
  - intros [|j] Hj.
    + simpl. rewrite Z.add_0_r. fold idx1. by rewrite Hvip.
    + simpl. rewrite Hips by lia. do 3 f_equal.
      unfold idx1. rewrite <- Z.add_assoc, Zplus_mod_idemp_l. f_equal. lia.
  - rewrite Hidx'. destruct (decide (S k = O)); [done|].
    destruct (decide (k = O)) as [->|_].
    + unfold idx1. f_equal.
    + unfold idx1. rewrite Zplus_mod_idemp_l. f_equal. lia.
Qed.

(** X6: Round-robin is fair: when the VMS keeps reporting the same addresses,
    as many calls in a row as the named pool has addresses return every
    address of the pool exactly once, in the pool's order starting one after
    the session's index, each call fetching the VIP list once; the index is
    then back where it was (taken modulo the pool's size). *)
Theorem get_vip_round_robin_fair (CONF : Config) (idx : Z)
    (vip_pool_name : option string) (w : oracle) (all : list Vip.t) (h : list op) :
  (∀ h, w h GET_vips = Returned all) →
  let vips := filter (λ vip : Vip.t, Some (Vip.vippool vip) = vip_pool_name) all in
  vips ≠ [] →
  let n := length vips in
  ∃ ips,
    run w h (get_vip_times CONF idx vip_pool_name n)
      = (Returned (ips, idx `mod` Z.of_nat n), replicate n GET_vips)
    ∧ ips = Vip.ip <$> rotate (Z.to_nat ((idx + 1) `mod` Z.of_nat n)) vips
    ∧ ips ≡ₚ Vip.ip <$> vips.
Proof.
  intros Hall vips Hne n.
  assert (Hlen : 0 < Z.of_nat n) by (unfold n; destruct vips; simpl; [done|lia]).
  destruct (run_get_vip_times CONF vip_pool_name w all n Hall Hne idx h)
    as (ips & idx' & Hrun & Hlength & Hips & Hidx').
  fold vips n in Hrun, Hips, Hidx'.
  assert (idx' = idx `mod` Z.of_nat n) as ->.
  { rewrite Hidx'. destruct (decide (n = O)); [lia|].
    rewrite <- (Z.mul_1_l (Z.of_nat n)) at 1. by rewrite Z.mod_add by lia. }
  assert (Hrot : ips = Vip.ip <$> rotate (Z.to_nat ((idx + 1) `mod` Z.of_nat n)) vips).
  { apply list_eq. intros j. rewrite list_lookup_fmap.
    destruct (decide (j < n)%nat) as [Hj|Hj].
    - rewrite Hips by done. f_equal. rewrite lookup_rotate_r by done.
      f_equal. unfold rotate_nat_add. fold n. f_equal.
      pose proof (Z.mod_pos_bound (idx + 1) (Z.of_nat n) Hlen).
      rewrite Z2Nat.id by lia. by rewrite Zplus_mod_idemp_l.
    - rewrite !lookup_ge_None_2; [done| |lia].
      rewrite length_rotate. fold n. lia. }
  exists ips. split; [done|]. split; [done|].
  rewrite Hrot. apply fmap_Permutation.
  unfold rotate. rewrite Permutation_app_comm. by rewrite take_drop.
Qed.

Lemma get_vip_round_robin_fair_witness :
  run vms_one_volume [] (get_vip_times sample_conf (-1) (Some "vp1") 2)
  = (Returned (["10.0.0.5"; "10.0.0.6"], 1), [GET_vips; GET_vips]).
Proof.
  destruct (get_vip_round_robin_fair sample_conf (-1) (Some "vp1") vms_one_volume
              [vip_5; vip_6] [])
    as (ips & Hrun & -> & _).
  - done.
  - done.
  - exact Hrun.
Defined.

(** X7: Whatever the strategy and the index, an address [get_vip] returns is
    the address of a VIP the VMS listed in the named pool, provided [shuffled]
    returns items of its argument; under ROUNDROBIN the index it leaves is a
    position in the pool, under RANDOM the index is unchanged. *)
Theorem get_vip_in_pool (CONF : Config) (idx : Z) (vip_pool_name : option string)
    (load_balancing : option Strategy) (w : oracle) (h : list op)
    (ip : string) (idx' : Z) :
  (∀ h' l l', w h' (shuffled l) = Returned l' → l' ⊆ l) →
  (run w h (VmsSession.get_vip CONF idx vip_pool_name load_balancing)).1
    = Returned (ip, idx') →
  ∃ all vip,
    w h GET_vips = Returned all
    ∧ vip ∈ all ∧ Some (Vip.vippool vip) = vip_pool_name ∧ ip = Vip.ip vip
    ∧ match VmsSession.or_default load_balancing
              (Conf.storage_class_load_balancing CONF) with
      | ROUNDROBIN =>
          0 ≤ idx' < Z.of_nat (length (filter
                 (λ vip : Vip.t, Some (Vip.vippool vip) = vip_pool_name) all))
      | _ => idx' = idx
      end.
Proof.
  intros Hshuffled. unfold VmsSession.get_vip. rewrite run_bind. run_call_step.
  destruct (w h GET_vips) as [all|exc] eqn:Hall; [|done]. cbn beta iota zeta.
  match goal with
  | |- context [@filter ?A ?B ?F ?P ?D all] => set (vips := @filter A B F P D all)
  end.
  destruct vips as [|v vs] eqn:Hvips; [done|]. rewrite <- Hvips.
  assert (Hlen : 0 < Z.of_nat (length vips)) by (rewrite Hvips; simpl; lia).
  assert (Hpool : ∀ vip, vip ∈ vips → vip ∈ all ∧ Some (Vip.vippool vip) = vip_pool_name).
  { intros vip Hin. apply list_elem_of_filter in Hin. tauto. }
  destruct (VmsSession.or_default _ _) as [| |s].
  - pose proof (Z.mod_pos_bound (idx + 1) _ Hlen) as Hbound.
    destruct (vips !! Z.to_nat _) as [vip|] eqn:Hvip; simpl; [|done].
    intros [= <- <-]. apply list_elem_of_lookup_2, Hpool in Hvip as [? ?].
    by exists all, vip.
  - rewrite run_bind. run_call_step.
    destruct (w _ (shuffled vips)) as [l|exc] eqn:Hl; [|done]. cbn beta iota zeta.
    destruct l as [|vip l]; simpl; [done|]. intros [= <- <-].
    apply Hshuffled in Hl.
    destruct (Hpool vip) as [? ?]; [apply Hl; by left|].
    by exists all, vip.
  - done.
Qed.

Lemma get_vip_in_pool_witness :
  ∃ vip, vip ∈ [vip_5; vip_6] ∧ Vip.vippool vip = "vp1" ∧ Vip.ip vip = "10.0.0.6".
Proof.
  destruct (get_vip_in_pool sample_conf 0 (Some "vp1") None vms_one_volume []
              "10.0.0.6" 1)
    as (all & vip & Hall & Hin & Hpool & Hip & _).
  - intros h' l l'. discriminate.
  - reflexivity.
  - injection Hall as <-. injection Hpool as Hpool. by exists vip.
Defined.

(** ** The session as written, under the handlers that call it *)

(** X8: With the session class of [vms_session.py], a driver that runs the
    controller alone and not in mock mode never passes Probe:  Probe calls
    [get_vip()] with no argument, the method requires the pool's name, and the
    [TypeError] of the call, which is no [ApiError], leaves Probe; no VIP is
    fetched. *)
Theorem Probe_production_never_ready (CONF : Config) (idx : Z) (w : oracle)
    (h : list op) :
  let probe :=
    Probe CONF
      {| controller := Some {| vms_session := VmsSession.session CONF idx |};
         node := false |} in
  (Conf.mock_vast CONF = true ∧ run w h probe = (Returned ProbeRespOK, []))
  ∨ (Conf.mock_vast CONF = false
     ∧ ∃ message, run w h probe = (Raised (TypeError message), [])).
Proof.
  unfold Probe. cbn [node controller].
  destruct (Conf.mock_vast CONF); [by left|]. right. split; [done|]. by eexists.
Qed.

(** X9: With the session class of [vms_session.py], deleting a volume's data
    depends on the trash API: when the VMS cannot use it, the deletion gets as
    far as the view policy and then fails with the [TypeError] of calling
    [get_vip] with a tenant, which that method does not take.  No temporary
    view is made, nothing is mounted and nothing is deleted. *)
Theorem delete_data_production_needs_trash (CONF : Config) (U : Utils) (idx : Z)
    (path : string) (tenant_id : Z) (w : oracle) (h : list op)
    (view_policy : ViewPolicy.t) :
  let policy := m_ensure_view_policy (Conf.deletion_view_policy CONF) in
  w h m_is_trash_api_usable = Returned false →
  w (h ++ [m_is_trash_api_usable]) policy = Returned view_policy →
  ∃ message,
    run w h (_delete_data_from_storage CONF U
               {| vms_session := VmsSession.session CONF idx |} path tenant_id)
    = (Raised (TypeError message), [m_is_trash_api_usable; policy]).
Proof.
  intros policy Htrash Hpolicy. unfold _delete_data_from_storage.
  cbn [vms_session VmsSession.session Session.is_trash_api_usable
       Session.ensure_view_policy Session.get_vip].
  rewrite run_bind. run_call_step. rewrite Htrash. cbn beta iota zeta.
  rewrite run_bind. run_call_step. fold policy. rewrite Hpolicy. by eexists.
Qed.

Lemma delete_data_production_needs_trash_witness :
  ∃ message,
    run deleting_host []
      (_delete_data_from_storage sample_conf sample_utils (production sample_conf)
         "/k8s/pvc-abc" 1)
    = (Raised (TypeError message),
       [m_is_trash_api_usable; m_ensure_view_policy "default"]).
Proof.
  apply (delete_data_production_needs_trash sample_conf sample_utils (-1)
           "/k8s/pvc-abc" 1 deleting_host [] default_policy); reflexivity.
Defined.

(** ** The session's VIP selection: refusals *)

(** X10: [get_vip] fetches the VIP list before it looks at anything else.
    With no VIP in the named pool it raises "No vips in pool <name>", whatever
    the strategy; with VIPs in the pool and a strategy that is neither of the
    two tokens it raises "Invalid load_balancing mode: '<strategy>'".  In both
    cases the session's round-robin index is not touched, and a failing fetch
    is all that happened. *)
Theorem get_vip_refusals (CONF : Config) (idx : Z) (vip_pool_name : option string)
    (load_balancing : option Strategy) (w : oracle) (h : list op) :
  match w h GET_vips with
  | Raised exc =>
      run w h (VmsSession.get_vip CONF idx vip_pool_name load_balancing)
        = (Raised exc, [GET_vips])
  | Returned all =>
      let vips := filter (λ vip : Vip.t, Some (Vip.vippool vip) = vip_pool_name) all in
      (vips = [] →
       run w h (VmsSession.get_vip CONF idx vip_pool_name load_balancing)
         = (Raised (Exception ("No vips in pool " +:+ default "None" vip_pool_name)),
            [GET_vips]))
      ∧ (vips ≠ [] →
         ∀ s, VmsSession.or_default load_balancing
                (Conf.storage_class_load_balancing CONF) = OtherStrategy s →
              run w h (VmsSession.get_vip CONF idx vip_pool_name load_balancing)
                = (Raised (Exception ("Invalid load_balancing mode: '" +:+ s +:+ "'")),
                   [GET_vips]))
  end.
Proof.
  unfold VmsSession.get_vip. rewrite run_bind. run_call_step.
  destruct (w h GET_vips) as [all|exc]; [|done]. cbn beta iota zeta.
  match goal with
  | |- context [@filter ?A ?B ?F ?P ?D all] => set (vips := @filter A B F P D all)
  end.
  repeat match goal with
  | |- context [@filter ?A ?B ?F ?P ?D all] => change (@filter A B F P D all) with vips
  end.
  clearbody vips. split.
  - by intros ->.
  - intros Hne s ->. by destruct vips.
Qed.

(** ** Snapshot lookups of the session *)

Lemma rstrip_slash_idemp (s : string) :
  VmsSession.rstrip_slash (VmsSession.rstrip_slash s) = VmsSession.rstrip_slash s.
Proof.
  induction s as [|c rest IH]; [done|]. simpl.
  destruct (VmsSession.rstrip_slash rest) as [|d r] eqn:Hr.
  - destruct (Ascii.eqb c "/") eqn:Hc; [done|]. simpl. by rewrite Hc.
  - change (VmsSession.rstrip_slash (String c (String d r)))
      with (match VmsSession.rstrip_slash (String d r) with
            | EmptyString => if Ascii.eqb c "/" then EmptyString else String c EmptyString
            | r' => String c r'
            end).
    by rewrite IH.
Qed.

Lemma rstrip_slash_app_slash (s : string) :
  VmsSession.rstrip_slash (s +:+ "/") = VmsSession.rstrip_slash s.
Proof.
  induction s as [|c rest IH]; [done|].
  change (String c rest +:+ "/") with (String c (rest +:+ "/")).
  simpl. by rewrite IH.
Qed.

(** X11: [has_snapshots] asks for the snapshots of the path with exactly one
    slash at its end, ten at most: the request is the same however many
    slashes the given path ends with, and what it returns or raises is the
    request's answer. *)
Theorem has_snapshots_trailing_slash (path : string) (w : oracle) (h : list op) :
  ∃ directory,
    VmsSession.rstrip_slash directory = directory
    ∧ run w h (VmsSession.has_snapshots path)
        = (w h (GET_snapshots_path (directory +:+ "/") 10),
           [GET_snapshots_path (directory +:+ "/") 10])
    ∧ VmsSession.has_snapshots (path +:+ "/") = VmsSession.has_snapshots path
    ∧ VmsSession.has_snapshots (directory +:+ "/") = VmsSession.has_snapshots path.
Proof.
  exists (VmsSession.rstrip_slash path). unfold VmsSession.has_snapshots.
  rewrite !rstrip_slash_app_slash, rstrip_slash_idemp.
  repeat split. by run_call_step.
Qed.

(** ** The session's URLs *)

Lemma rstrip_slash_lstrip_slash (s : string) :
  VmsSession.rstrip_slash s = s →
  VmsSession.rstrip_slash (lstrip_slash s) = lstrip_slash s.
Proof.
  induction s as [|c rest IH]; [done|]. intros Hs.
  simpl lstrip_slash. destruct (Ascii.eqb c "/") eqn:Hc; [|done].
  apply IH. simpl in Hs. destruct (VmsSession.rstrip_slash rest) as [|d r].
  - rewrite Hc in Hs. done.
  - by injection Hs.
Qed.

Lemma lstrip_slash_idemp (s : string) : lstrip_slash (lstrip_slash s) = lstrip_slash s.
Proof.
  induction s as [|c rest IH]; [done|]. simpl.
  destruct (Ascii.eqb c "/") eqn:Hc; [done|]. simpl. by rewrite Hc.
Qed.

Lemma strip_slash_idemp (s : string) : strip_slash (strip_slash s) = strip_slash s.
Proof.
  unfold strip_slash.
  rewrite (rstrip_slash_lstrip_slash (VmsSession.rstrip_slash s))
    by apply rstrip_slash_idemp.
  apply lstrip_slash_idemp.
Qed.

Lemma strip_slash_cons_slash (s : string) :
  strip_slash (String "/" s) = strip_slash s.
Proof.
  unfold strip_slash. simpl. by destruct (VmsSession.rstrip_slash s).
Qed.

Lemma string_app_assoc (s1 s2 s3 : string) : (s1 +:+ s2) +:+ s3 = s1 +:+ s2 +:+ s3.
Proof.
  induction s1 as [|c s1 IH]; [done|].
  change (String c ((s1 +:+ s2) +:+ s3) = String c (s1 +:+ s2 +:+ s3)).
  by rewrite IH.
Qed.

Lemma join_slash_cons (s : string) (l : list string) :
  l ≠ [] → join "/" (s :: l) = s +:+ "/" +:+ join "/" l.
Proof. by destruct l. Qed.

(** X12: Every request goes to a URL made of the base, the method and the
    further arguments, each followed by exactly one slash: the slashes at the
    end of the base and around the method are dropped before joining, so they
    make no difference, and none is left at these joints. *)
Theorem request_url_normalized (base_url api_method : string) (args : list string) :
  let base := VmsSession.rstrip_slash base_url in
  let method := strip_slash api_method in
  request_url base_url api_method args
    = base +:+ "/" +:+ method +:+ "/" +:+ join "" ((λ a, a +:+ "/") <$> args)
  ∧ VmsSession.rstrip_slash base = base
  ∧ strip_slash method = method
  ∧ request_url (base_url +:+ "/") api_method args
    = request_url base_url api_method args
  ∧ request_url base_url ("/" +:+ api_method +:+ "/") args
    = request_url base_url api_method args.
Proof.
  intros base method. split; [|split; [|split; [|split]]].
  - unfold request_url. fold base method. cbn [app].
    rewrite join_slash_cons by done. do 2 f_equal.
    rewrite join_slash_cons by (by destruct args). do 2 f_equal.
    induction args as [|a args IH]; [done|].
    rewrite fmap_cons. cbn [app].
    rewrite join_slash_cons by (by destruct args). rewrite IH.
    unfold join at 2. simpl String.concat.
    destruct ((λ a0 : string, a0 +:+ "/") <$> args) eqn:Hargs.
    + destruct args; [|done]. reflexivity.
    + fold (join "" (s :: l)). simpl. by rewrite string_app_assoc.
  - apply rstrip_slash_idemp.
  - apply strip_slash_idemp.
  - unfold request_url. by rewrite rstrip_slash_app_slash.
  - unfold request_url. f_equal. f_equal.
    change ("/" +:+ api_method +:+ "/") with (String "/" (api_method +:+ "/")).
    rewrite strip_slash_cons_slash. unfold strip_slash.
    by rewrite rstrip_slash_app_slash.
Qed.

(** ** Controller: expansion never shrinks *)

(** X13: ControllerExpandVolume never lowers a quota.  When the quota is
    found, the session's [update_quota] is called exactly when the request
    exceeds the current limit, and then with the requested size; a reply
    always carries the larger of the current limit and the requested size.  In
    every other case the lookup is all that is issued. *)
Theorem ControllerExpandVolume_never_shrinks (volume_id : string)
    (required_bytes : Z) (w : oracle) :
  let '(r, t) :=
    run w [] (ControllerExpandVolume some_controller volume_id required_bytes) in
  match w [] (m_get_quota volume_id) with
  | Returned (Some quota) =>
      t = m_get_quota volume_id ::
          (if decide (Quota.hard_limit quota < required_bytes)
           then [m_update_quota (Quota.id quota) required_bytes] else [])
      ∧ ∀ resp, r = Returned resp →
                expand_capacity_bytes resp
                  = Z.max (Quota.hard_limit quota) required_bytes
  | _ => t = [m_get_quota volume_id] ∧ ∀ resp, r ≠ Returned resp
  end.
Proof.
  unfold ControllerExpandVolume.
  cbn [some_controller vms_session any_session Session.get_quota Session.update_quota].
  rewrite run_bind. run_call_step.
  destruct (w [] (m_get_quota volume_id)) as [[quota|]|exc]; [|done..].
  cbn beta iota zeta. rewrite run_bind.
  destruct (decide (required_bytes ≤ Quota.hard_limit quota)) as [Hle|Hgt].
  - destruct (decide (Quota.hard_limit quota < required_bytes)); [lia|].
    cbn. split; [done|]. intros resp [= <-]. simpl. lia.
  - destruct (decide (Quota.hard_limit quota < required_bytes)); [|lia].
    rewrite run_bind, run_try_except. run_call_step.
    destruct (w _ (m_update_quota _ _)) as [[]|exc]; cbn.
    + split; [done|]. intros resp [= <-]. simpl. lia.
    + destruct (is_ApiError exc); cbn; by split.
Qed.

(** ** Controller: what a publishing reply holds *)

(** X14: Whenever ControllerPublishVolume replies, on any session, it has made
    two calls of the session and no other: the lookup of the quota by the
    volume's id (or, for a volume made from a snapshot, by the first component
    of "snapshot_base_path"), and [get_vip] for the pool and the strategy of
    the volume context and the tenant of the quota found.  The reply's address
    is the one [get_vip] returned, and its export path is the root export
    joined with the volume's id (or the snapshot base path).  The capability
    was acceptable, and in a sanity test the node is the configured one. *)
Theorem ControllerPublishVolume_reply (CONF : Config) (U : Utils)
    (node_id volume_id : string) (volume_capability : option VolumeCapability)
    (volume_context : option (gmap string string)) (w : oracle)
    (resp : CtrlPublishResp) (t : list op) :
  run w [] (ControllerPublishVolume CONF U some_controller node_id volume_id
              volume_capability volume_context)
    = (Returned resp, t) →
  let context := default ∅ volume_context in
  let base := context !! "snapshot_base_path" in
  let fragment :=
    if nonempty base then default "" (head (split_on "/" (default "" base)))
    else volume_id in
  let exported := if nonempty base then default "" base else volume_id in
  ∃ (root_export nfs_server_ip : string) (load_balancing : Strategy)
    (quota : Quota.t),
    let lookup := m_get_quota fragment in
    let vip :=
      m_get_vip
        {| kw_vip_pool_name :=
             Given (if Conf.mock_vast CONF then None else context !! "vip_pool_name");
           kw_load_balancing := Given (Some load_balancing);
           kw_tenant_id := Given (Quota.tenant_id quota) |} in
    t = [lookup; vip]
    ∧ w [] lookup = Returned (Some quota)
    ∧ w [lookup] vip = Returned nfs_server_ip
    ∧ CtrlPublishResp.publish_context resp
        = {[ "export_path" := path_join U root_export exported;
             "nfs_server_ip" := nfs_server_ip ]}
    ∧ root_export = (if Conf.mock_vast CONF then Conf.sanity_test_nfs_export CONF
                     else default "" (context !! "root_export"))
    ∧ parse_load_balancing_strategy U
        (default (Conf.load_balancing CONF) (context !! "load_balancing"))
        = Returned load_balancing
    ∧ validate_one volume_capability = Returned tt
    ∧ (Conf.csi_sanity_test CONF = true → node_id = Conf.node_id CONF).
Proof.
  intros Hrun context base fragment exported.
  unfold ControllerPublishVolume in Hrun. fold context in Hrun. cbv zeta in Hrun.
  fold base in Hrun.
  apply run_bind_returned in Hrun as ([] & t1 & ? & Hvalid & Hrun & ->).
  rewrite run_lift in Hvalid. injection Hvalid as Hvalid <-.
  apply run_bind_returned in Hrun as (root_export & t1 & ? & Hroot & Hrun & ->).
  assert (Hroot' : root_export
                   = (if Conf.mock_vast CONF then Conf.sanity_test_nfs_export CONF
                      else default "" (context !! "root_export")) ∧ t1 = []).
  { destruct (Conf.mock_vast CONF); [by injection Hroot as <- <-|].
    rewrite run_getitem in Hroot. destruct (context !! "root_export"); [|done].
    by injection Hroot as <- <-. }
  destruct Hroot' as [Hroot' ->]. clear Hroot.
  apply run_bind_returned in Hrun as (load_balancing & t1 & ? & Hlb & Hrun & ->).
  rewrite run_lift in Hlb. injection Hlb as Hlb <-.
  assert (Hpair :
    (if nonempty base
     then (default "" (head (split_on "/" (default "" base))),
           path_join U root_export (default "" base))
     else (volume_id, path_join U root_export volume_id))
    = (fragment, path_join U root_export exported))
    by (unfold fragment, exported; by destruct (nonempty base)).
  rewrite Hpair in Hrun. clear Hpair.
  apply run_bind_returned in Hrun as (vip_pool_name & t1 & ? & Hpool & Hrun & ->).
  assert (Hpool' : vip_pool_name
                   = (if Conf.mock_vast CONF then None
                      else context !! "vip_pool_name") ∧ t1 = []).
  { destruct (Conf.mock_vast CONF); [by injection Hpool as <- <-|].
    rewrite run_bind, run_getitem in Hpool.
    destruct (context !! "vip_pool_name"); [|done]. by injection Hpool as <- <-. }
  destruct Hpool' as [-> ->]. clear Hpool.
  cbn [some_controller vms_session any_session Session.get_quota Session.get_vip]
    in Hrun.
  apply run_bind_returned in Hrun as (quota & t1 & ? & Hquota & Hrun & ->).
  assert (Hanswer : w [] (m_get_quota fragment) = Returned quota)
    by (revert Hquota; cbn [app]; run_call_step; congruence).
  call_returned Hquota.
  destruct quota as [quota|]; [|done].
  cbn [app] in Hrun.
  destruct (Conf.csi_sanity_test CONF && negb (String.eqb (Conf.node_id CONF) node_id))
    eqn:Hnode; [done|].
  apply run_bind_returned in Hrun as (nfs_server_ip & t1 & ? & Hvip & Hrun & ->).
  assert (Haddress : w [m_get_quota fragment] (m_get_vip
            {| kw_vip_pool_name :=
                 Given (if Conf.mock_vast CONF then None
                        else context !! "vip_pool_name");
               kw_load_balancing := Given (Some load_balancing);
               kw_tenant_id := Given (Quota.tenant_id quota) |})
          = Returned nfs_server_ip)
    by (revert Hvip; run_call_step; congruence).
  call_returned Hvip. injection Hrun as <- <-.
  exists root_export, nfs_server_ip, load_balancing, quota.
  repeat split; try done.
  intros Hsanity. rewrite Hsanity in Hnode. simpl in Hnode.
  apply negb_false_iff, String.eqb_eq in Hnode. done.
Qed.

Lemma ControllerPublishVolume_reply_witness :
  ∃ (root_export nfs_server_ip : string) (load_balancing : Strategy)
    (quota : Quota.t),
    [m_get_quota "pvc-abc";
     m_get_vip {| kw_vip_pool_name := Given (Some "vp1");
                  kw_load_balancing := Given (Some ROUNDROBIN);
                  kw_tenant_id := Given 1 |}]
    = [m_get_quota "pvc-abc";
       m_get_vip
         {| kw_vip_pool_name := Given (publish_request_context !! "vip_pool_name");
            kw_load_balancing := Given (Some load_balancing);
            kw_tenant_id := Given (Quota.tenant_id quota) |}]
    ∧ publishing_vms [] (m_get_quota "pvc-abc") = Returned (Some quota)
    ∧ publishing_vms [m_get_quota "pvc-abc"]
        (m_get_vip
           {| kw_vip_pool_name := Given (publish_request_context !! "vip_pool_name");
              kw_load_balancing := Given (Some load_balancing);
              kw_tenant_id := Given (Quota.tenant_id quota) |})
      = Returned nfs_server_ip
    ∧ CtrlPublishResp.publish_context published_volume
        = {[ "export_path" := root_export +:+ "/" +:+ "pvc-abc";
             "nfs_server_ip" := nfs_server_ip ]}
    ∧ root_export = default "" (publish_request_context !! "root_export")
    ∧ parse_load_balancing_strategy sample_utils
        (default "roundrobin" (publish_request_context !! "load_balancing"))
        = Returned load_balancing
    ∧ validate_one (Some writer_capability) = Returned tt
    ∧ (false = true → "node-1" = "node-1").
Proof.
  apply (ControllerPublishVolume_reply sample_conf sample_utils "node-1" "pvc-abc"
           (Some writer_capability) (Some publish_request_context) publishing_vms
           published_volume
           [m_get_quota "pvc-abc";
            m_get_vip {| kw_vip_pool_name := Given (Some "vp1");
                         kw_load_balancing := Given (Some ROUNDROBIN);
                         kw_tenant_id := Given 1 |}]).
  vm_compute. reflexivity.
Defined.

(** ** Controller: creating a volume *)

Lemma split_whitespace_words (s : string) :
  Forall (λ word, word ≠ ""
                  ∧ ∀ c, c ∈ String.list_ascii_of_string word →
                         c ∈ String.list_ascii_of_string s ∧ is_space c = false)
    (split_whitespace s).
Proof.
  induction s as [|c rest IH]; [constructor|].
  assert (Hrest : Forall (λ word, word ≠ ""
                    ∧ ∀ c', c' ∈ String.list_ascii_of_string word →
                            c' ∈ String.list_ascii_of_string (String c rest)
                            ∧ is_space c' = false)
                    (split_whitespace rest)).
  { eapply Forall_impl; [exact IH|]. intros word [Hne Hchars]. split; [done|].
    intros c' Hc'. destruct (Hchars c' Hc'). split; [|done]. simpl. by right. }
  assert (Hsingle : is_space c = false →
            String c "" ≠ ""
            ∧ ∀ c', c' ∈ String.list_ascii_of_string (String c "") →
                    c' ∈ String.list_ascii_of_string (String c rest)
                    ∧ is_space c' = false).
  { intros Hc. split; [done|]. intros c' Hc'. simpl in Hc'.
    apply list_elem_of_singleton in Hc' as ->. split; [simpl; by left|done]. }
  cbn [split_whitespace]. destruct (is_space c) eqn:Hc; [done|].
  specialize (Hsingle eq_refl).
  destruct rest as [|d rest']; [constructor; [exact Hsingle|constructor]|].
  destruct (is_space d); [constructor; [exact Hsingle|done]|].
  destruct (split_whitespace (String d rest')) as [|word words];
    [constructor; [exact Hsingle|constructor]|].
  apply Forall_cons in Hrest as [[Hne Hword] Hwords]. constructor; [|done].
  split; [done|]. intros c' Hc'. simpl in Hc'.
  apply elem_of_cons in Hc' as [->|Hc']; [split; [simpl; by left|done]|].
  by apply Hword.
Qed.

Lemma remove_brackets_chars (s : string) (c : ascii) :
  c ∈ String.list_ascii_of_string (remove_brackets s) → c ≠ "["%char ∧ c ≠ "]"%char.
Proof.
  induction s as [|d rest IH]; simpl; [by intros ?%elem_of_nil|].
  destruct (Ascii.eqb_spec d "["); [done|].
  destruct (Ascii.eqb_spec d "]"); [done|]. simpl.
  intros [->|?]%elem_of_cons; [done|by apply IH].
Qed.

Lemma replace_char_chars (a b : ascii) (s : string) (c : ascii) :
  c ∈ String.list_ascii_of_string (replace_char a b s) →
  c = b ∨ (c ≠ a ∧ c ∈ String.list_ascii_of_string s).
Proof.
  induction s as [|d rest IH]; simpl; [by intros ?%elem_of_nil|].
  intros [->|Hc]%elem_of_cons.
  - destruct (Ascii.eqb_spec d a); [by left|]. right. split; [done|by left].
  - destruct (IH Hc) as [?|[? ?]]; [by left|]. right. split; [done|by right].
Qed.

Lemma chars_app (s t : string) :
  String.list_ascii_of_string (s +:+ t)
  = String.list_ascii_of_string s ++ String.list_ascii_of_string t.
Proof.
  induction s as [|c s IH]; [done|].
  change (c :: String.list_ascii_of_string (s +:+ t)
          = c :: (String.list_ascii_of_string s ++ String.list_ascii_of_string t)).
  by rewrite IH.
Qed.

Lemma split_whitespace_chars (s : string) :
  mjoin (String.list_ascii_of_string <$> split_whitespace s)
  = List.filter (λ c, negb (is_space c)) (String.list_ascii_of_string s).
Proof.
  induction s as [|c rest IH]; [done|].
  cbn [split_whitespace String.list_ascii_of_string List.filter].
  destruct (is_space c) eqn:Hc; cbn [negb]; [done|].
  destruct rest as [|d rest']; [done|].
  destruct (is_space d) eqn:Hd.
  - change (c :: mjoin (String.list_ascii_of_string
                          <$> split_whitespace (String d rest'))
            = c :: List.filter (λ c, negb (is_space c))
                     (String.list_ascii_of_string (String d rest'))).
    by rewrite IH.
  - change (List.filter (λ c0, negb (is_space c0))
              (d :: String.list_ascii_of_string rest'))
      with (List.filter (λ c0, negb (is_space c0))
              (String.list_ascii_of_string (String d rest'))).
    rewrite <- IH. by destruct (split_whitespace (String d rest')).
Qed.

Lemma replace_comma_chars (s : string) :
  List.filter (λ c, negb (is_space c))
    (String.list_ascii_of_string (replace_char "," " " s))
  = List.filter (λ c, negb (is_space c || Ascii.eqb c ","))
      (String.list_ascii_of_string s).
Proof.
  induction s as [|c rest IH]; [done|].
  cbn [replace_char String.list_ascii_of_string List.filter].
  rewrite IH. destruct (Ascii.eqb_spec c ","); [subst; done|].
  by rewrite orb_false_r.
Qed.

Lemma remove_brackets_filter (s : string) :
  String.list_ascii_of_string (remove_brackets s)
  = List.filter (λ c, negb (Ascii.eqb c "[" || Ascii.eqb c "]"))
      (String.list_ascii_of_string s).
Proof.
  induction s as [|c rest IH]; [done|].
  cbn [remove_brackets String.list_ascii_of_string List.filter].
  destruct (Ascii.eqb c "[" || Ascii.eqb c "]"); cbn [negb]; [done|].
  cbn [String.list_ascii_of_string]. by rewrite IH.
Qed.

Lemma filter_filter_bool {A : Type} (p q : A → bool) (l : list A) :
  List.filter p (List.filter q l) = List.filter (λ x, q x && p x) l.
Proof.
  induction l as [|x l IH]; [done|]. cbn [List.filter].
  destruct (q x); cbn [andb List.filter]; [|done]. by rewrite IH.
Qed.

Lemma join_comma_kept (flags : list string) :
  List.filter kept_in_options (String.list_ascii_of_string (join "," flags))
  = List.filter kept_in_options (mjoin (String.list_ascii_of_string <$> flags)).
Proof.
  induction flags as [|flag flags IH]; [done|].
  destruct flags as [|flag' flags].
  - cbn. by rewrite app_nil_r.
  - change (join "," (flag :: flag' :: flags))
      with (flag +:+ String "," (join "," (flag' :: flags))).
    rewrite chars_app.
    change (mjoin (String.list_ascii_of_string <$> flag :: flag' :: flags))
      with (String.list_ascii_of_string flag
            ++ mjoin (String.list_ascii_of_string <$> flag' :: flags)).
    rewrite !List.filter_app, <- IH. done.
Qed.

Lemma options_chars (flags : list string) :
  mjoin (String.list_ascii_of_string
           <$> split_whitespace
                 (replace_char "," " " (remove_brackets (join "," flags))))
  = List.filter kept_in_options (mjoin (String.list_ascii_of_string <$> flags)).
Proof.
  rewrite split_whitespace_chars, replace_comma_chars, remove_brackets_filter,
    filter_filter_bool, <- join_comma_kept.
  apply List.filter_ext. intros c. unfold kept_in_options.
  destruct (is_space c), (Ascii.eqb c ","), (Ascii.eqb c "["), (Ascii.eqb c "]");
    done.
Qed.

Lemma kept_in_options_true (c : ascii) :
  kept_in_options c = true →
  is_space c = false ∧ Ascii.eqb c "," = false ∧ Ascii.eqb c "[" = false
  ∧ Ascii.eqb c "]" = false.
Proof.
  unfold kept_in_options.
  destruct (is_space c), (Ascii.eqb c ","), (Ascii.eqb c "["), (Ascii.eqb c "]");
    done.
Qed.

Lemma options_clean_word (flag rest : string) :
  flag ≠ "" →
  Forall (λ c, kept_in_options c = true) (String.list_ascii_of_string flag) →
  split_whitespace (replace_char "," " " (remove_brackets flag)) = [flag]
  ∧ split_whitespace
      (replace_char "," " " (remove_brackets (flag +:+ String "," rest)))
    = flag :: split_whitespace (replace_char "," " " (remove_brackets rest)).
Proof.
  induction flag as [|c flag IH]; [done|]. intros _ Hkept.
  apply Forall_cons in Hkept as [Hc Hkept].
  apply kept_in_options_true in Hc as (Hspace & Hcomma & Hopen & Hclose).
  change (String c flag +:+ String "," rest)
    with (String c (flag +:+ String "," rest)).
  cbn [remove_brackets]. rewrite Hopen, Hclose. cbn [orb replace_char].
  rewrite Hcomma. cbn [split_whitespace]. rewrite Hspace.
  destruct flag as [|d flag].
  - done.
  - destruct (IH ltac:(done) Hkept) as [IH1 IH2].
    apply Forall_cons in Hkept as [Hd _].
    apply kept_in_options_true in Hd as (Hdspace & Hdcomma & Hdopen & Hdclose).
    change (String d flag +:+ String "," rest)
      with (String d (flag +:+ String "," rest)) in *.
    cbn [remove_brackets] in *. rewrite Hdopen, Hdclose in *.
    cbn [orb replace_char] in *. rewrite Hdcomma in *.
    rewrite Hdspace. by rewrite IH1, IH2.
Qed.

Lemma options_clean_flags (flags : list string) :
  Forall (λ flag, flag ≠ ""
                  ∧ Forall (λ c, kept_in_options c = true)
                      (String.list_ascii_of_string flag)) flags →
  split_whitespace (replace_char "," " " (remove_brackets (join "," flags)))
  = flags.
Proof.
  induction 1 as [|flag flags [Hne Hkept] _ IH]; [done|].
  destruct (options_clean_word flag (join "," flags) Hne Hkept) as [H1 H2].
  destruct flags as [|flag' flags]; [exact H1|].
  change (join "," (flag :: flag' :: flags))
    with (flag +:+ String "," (join "," (flag' :: flags))).
  by rewrite H2, IH.
Qed.

Lemma find_first {A : Type} (p : A → bool) (l : list A) (x : A) :
  List.find p l = Some x →
  ∃ before after,
    l = before ++ x :: after ∧ Forall (λ y, p y = false) before ∧ p x = true.
Proof.
  induction l as [|y l IH]; [done|]. cbn [List.find].
  destruct (p y) eqn:Hy.
  - intros [= ->]. by exists [], l.
  - intros (before & after & -> & Hbefore & Hx)%IH.
    exists (y :: before), after. by repeat split; [constructor|].
Qed.

(** X15: The mount options CreateVolume passes on are made from the flags of
    the first capability that has a mount block, from no flags when no
    capability has one, and they are normalized: they are the comma-separated
    list of words, none of them empty, none holding white space, a comma or a
    bracket, whose characters, in order, are the characters of the flags with
    white space, commas and brackets left out.  When every flag is already
    such a word, the words are the flags themselves, so the options are the
    flags joined by commas. *)
Theorem CreateVolume_mount_options_normalized
    (volume_capabilities : list VolumeCapability) :
  ∃ flags words,
    ((∀ cap, cap ∈ volume_capabilities → Capability.mount cap = None)
     ∧ flags = []
     ∨ ∃ before cap m after,
         volume_capabilities = before ++ cap :: after
         ∧ Forall (λ earlier, Capability.mount earlier = None) before
         ∧ Capability.mount cap = Some m
         ∧ flags = mount_flags m)
    ∧ create_mount_options volume_capabilities = join "," words
    ∧ Forall (λ word,
                word ≠ ""
                ∧ ∀ c, c ∈ String.list_ascii_of_string word →
                       is_space c = false ∧ c ≠ ","%char ∧ c ≠ "["%char
                       ∧ c ≠ "]"%char) words
    ∧ mjoin (String.list_ascii_of_string <$> words)
      = List.filter kept_in_options (mjoin (String.list_ascii_of_string <$> flags))
    ∧ (Forall (λ flag,
                 flag ≠ ""
                 ∧ Forall (λ c, kept_in_options c = true)
                     (String.list_ascii_of_string flag)) flags →
       words = flags).
Proof.
  unfold create_mount_options.
  destruct (List.find _ volume_capabilities) as [cap|] eqn:Hfind.
  - apply find_first in Hfind as (before & after & -> & Hbefore & Hcap).
    apply bool_decide_eq_true in Hcap as [m Hm]. rewrite Hm.
    exists (mount_flags m). eexists. split; [|split; [done|split; [|split]]].
    + right. exists before, cap, m, after. repeat split; [|done].
      eapply Forall_impl; [exact Hbefore|]. intros earlier Hnone.
      apply bool_decide_eq_false in Hnone.
      destruct (Capability.mount earlier); [|done]. by destruct Hnone.
    + eapply Forall_impl; [apply split_whitespace_words|].
      intros word [Hne Hchars]. split; [done|]. intros c Hc.
      destruct (Hchars c Hc) as [Hin Hspace]. split; [done|].
      apply replace_char_chars in Hin as [->|[Hcomma Hin]]; [done|].
      apply remove_brackets_chars in Hin as [? ?]. done.
    + apply options_chars.
    + apply options_clean_flags.
  - exists [], []. split; [|done]. left. split; [|done].
    intros cap Hin. apply list_elem_of_In in Hin.
    apply (List.find_none _ _ Hfind) in Hin.
    apply bool_decide_eq_false in Hin.
    destruct (Capability.mount cap); [|done]. by destruct Hin.
Qed.

(** The flags "[ro" and "vers=4 ,  noatime]" of the first mounting capability
    become "ro,vers=4,noatime"; the flags of a later capability are not
    looked at. *)
Example create_mount_options_sample :
  create_mount_options flagged_capabilities = "ro,vers=4,noatime".
Proof. done. Qed.

(** X16: CreateVolume validates the capabilities before anything else, in mock
    mode too.  In mock mode acceptable capabilities always lead to the test
    builder, with every storage parameter empty.  Otherwise the parameters
    "root_export", "view_policy" and "vip_pool_name" are required, and the
    first of them that is absent or empty is reported as missing; with all
    three there, no content source selects the empty-volume builder, a source
    with a snapshot id the from-snapshot builder, and a source without one is
    refused with [ValueError].  The builder receives the three parameters as
    given. *)
Theorem CreateVolume_builder_choice (CONF : Config) (name : string)
    (volume_capabilities : list VolumeCapability) (capacity_range : option Z)
    (parameters : option (gmap string string))
    (volume_content_source : option ContentSource)
    (ephemeral_volume_name : option string) :
  let step := CreateVolume_builder CONF name volume_capabilities capacity_range
                parameters volume_content_source ephemeral_volume_name in
  let given key := default ∅ parameters !! key in
  let required := ["root_export"; "view_policy"; "vip_pool_name"] in
  match _validate_capabilities volume_capabilities with
  | Raised exc => step = Raises exc
  | Returned _ =>
      if Conf.mock_vast CONF then
        ∃ args, step = Build TestVolumeBuilder args
                ∧ b_root_export args = "" ∧ b_view_policy args = ""
                ∧ b_vip_pool_name args = "" ∧ b_mount_options args = ""
      else
        match List.find (λ key, negb (nonempty (given key))) required with
        | Some key => step = MissingParameter key
        | None =>
            match volume_content_source with
            | Some {| source_snapshot_id := "" |} => ∃ message, step = Raises (ValueError message)
            | source =>
                ∃ args,
                  step = Build (match source with
                                | Some _ => VolumeFromSnapshotBuilder
                                | None => EmptyVolumeBuilder
                                end) args
                  ∧ given "root_export" = Some (b_root_export args)
                  ∧ given "view_policy" = Some (b_view_policy args)
                  ∧ given "vip_pool_name" = Some (b_vip_pool_name args)
                  ∧ b_mount_options args = create_mount_options volume_capabilities
                  ∧ b_name args = name
            end
        end
  end.
Proof.
  intros step given required. unfold step, CreateVolume_builder.
  destruct (_validate_capabilities volume_capabilities) as [[]|exc]; [|done].
  destruct (Conf.mock_vast CONF); [by eexists|].
  cbv zeta. fold (given "root_export") (given "view_policy") (given "vip_pool_name").
  unfold required. cbn [List.find].
  destruct (given "root_export") as [root_export|]; [|done]. cbn [nonempty].
  destruct (String.eqb root_export ""); [done|]. cbn [negb].
  destruct (given "view_policy") as [view_policy|]; [|done]. cbn [nonempty].
  destruct (String.eqb view_policy ""); [done|]. cbn [negb].
  destruct (given "vip_pool_name") as [vip_pool_name|]; [|done]. cbn [nonempty].
  destruct (String.eqb vip_pool_name ""); [done|]. cbn [negb].
  destruct volume_content_source as [[[|c id]]|]; cbn; by eexists.
Qed.

(** ** Controller: snapshots whose name is taken *)

(** X17: On the production session, when the VMS refuses to create the
    snapshot with the name collision (HTTP 400, "This field must be unique."),
    the RPC lists the snapshots of that name and nothing else.  Exactly one,
    on the quota's path: the RPC succeeds with that snapshot's id and creation
    time.  Exactly one on another path:  ALREADY_EXISTS.  Several: the
    session's "Too many snapshots named ..." leaves the RPC.  None (the
    snapshot vanished in between): the [IndexError] of taking the first of an
    empty listing leaves the RPC. *)
Theorem CreateSnapshot_name_collision (CONF : Config) (U : Utils)
    (source_volume_id name : string) (parameters : gmap string string)
    (w : oracle) (quota : Quota.t) (snapshot_name snapshot_namespace formatted : string)
    (response : Response) (text : string) :
  Conf.mock_vast CONF = false →
  w [] (GET_quotas_path_contains source_volume_id) = Returned [quota] →
  parameters !! "csi.storage.k8s.io/volumesnapshot/name" = Some snapshot_name →
  parameters !! "csi.storage.k8s.io/volumesnapshot/namespace"
    = Some snapshot_namespace →
  format_name U (default (Conf.name_fmt CONF) (parameters !! "snapshot_name_fmt"))
    snapshot_namespace snapshot_name name = Returned formatted →
  let vms_name := replace_char "/" "-" (replace_char ":" "-" formatted) in
  let lookup := GET_quotas_path_contains source_volume_id in
  let ensure := m_ensure_snapshot vms_name (Quota.path quota) (Quota.tenant_id quota) in
  vms_name ≠ "" →
  w [lookup] ensure = Raised (ApiError response text) →
  status_code response = 400 →
  json_body response = Some unique_name_body →
  run w [] (CreateSnapshot CONF U (production CONF) source_volume_id name
              (Some parameters))
    = (match w [lookup; ensure] (GET_snapshots_name vms_name) with
       | Raised exc => Raised exc
       | Returned [] => Raised (IndexError "list index out of range")
       | Returned [snap] =>
           if decide (Snap.path snap = Quota.path quota) then
             Returned {| Snapshot.size_bytes := 0;
                         Snapshot.snapshot_id := pretty (Snap.id snap);
                         Snapshot.source_volume_id := source_volume_id;
                         Snapshot.creation_time :=
                           string_to_proto_timestamp U (Snap.created snap);
                         Snapshot.ready_to_use := true |}
           else Raised (Abort ALREADY_EXISTS
                          ("Snapshot name '" +:+ name +:+ "' is already taken"))
       | Returned ((_ :: _ :: _) as found) =>
           Raised (Exception ("Too many snapshots named " +:+ vms_name +:+ ": ("
                              +:+ pretty (length found) +:+ ")"))
       end, [lookup; ensure; GET_snapshots_name vms_name]).
Proof.
  intros Hmock Hquota Hname Hnamespace Hformat vms_name lookup ensure Hne Hensure
    Hstatus Hbody.
  subst lookup ensure.
  unfold CreateSnapshot. rewrite Hmock. cbn [production vms_session].
  change (default ∅ (Some parameters)) with parameters. cbv zeta.
  rewrite run_bind.
  change (Session.get_quota (VmsSession.session CONF (-1)) source_volume_id)
    with (VmsSession.get_quota source_volume_id).
  rewrite (run_get_quota _ _ _ _ Hquota). cbn [app].
  rewrite run_bind, run_getitem, Hname. cbn [app].
  rewrite run_bind, run_getitem, Hnamespace. cbn [app].
  rewrite run_bind, run_lift, Hformat. cbn [app].
  fold vms_name. rewrite run_bind, run_try_except.
  cbn [Session.ensure_snapshot VmsSession.session].
  run_call_step. rewrite Hensure. cbn [is_ApiError].
  rewrite (on_name_collision _ _ _ _ _ _ _ _ Hstatus Hbody).
  cbn [production vms_session Session.get_snapshot VmsSession.session].
  unfold VmsSession.get_snapshot.
  destruct (String.eqb_spec vms_name "") as [|_]; [done|]. cbn [negb].
  rewrite run_bind. run_call_step. cbn [app].
  destruct (w _ (GET_snapshots_name vms_name)) as [found|exc]; [|done].
  cbn beta iota zeta.
  destruct found as [|snap [|snap' rest]].
  - done.
  - destruct (decide (1 < _)%nat) as [Hlong|_]; [simpl in Hlong; lia|].
    cbn. destruct (decide (Snap.path snap = Quota.path quota)); done.
  - destruct (decide (1 < _)%nat) as [|Hshort]; [|simpl in Hshort; lia].
    reflexivity.
Qed.

Lemma CreateSnapshot_name_collision_witness :
  run (vms_rejects_snapshot (Some unique_name_body)) []
    (CreateSnapshot sample_conf sample_utils (production sample_conf)
       "pvc-abc" "snapshot-1" (Some snapshot_parameters))
  = (Returned {| Snapshot.size_bytes := 0; Snapshot.snapshot_id := "7";
                 Snapshot.source_volume_id := "pvc-abc";
                 Snapshot.creation_time := "2024-01-01T00:00:00Z";
                 Snapshot.ready_to_use := true |},
     [GET_quotas_path_contains "pvc-abc";
      m_ensure_snapshot "csi-default-snap-1-snapshot-1" "/k8s/pvc-abc" 1;
      GET_snapshots_name "csi-default-snap-1-snapshot-1"]).
Proof.
  etransitivity.
  - apply (CreateSnapshot_name_collision sample_conf sample_utils "pvc-abc"
             "snapshot-1" snapshot_parameters
             (vms_rejects_snapshot (Some unique_name_body)) quota_42
             "snap-1" "default" "csi:default:snap-1:snapshot-1"
             {| status_code := 400; reason := "Bad Request"; text := "";
                json_body := Some unique_name_body |}
             "HTTP 400: Bad Request").
    + reflexivity.
    + vm_compute. reflexivity.
    + vm_compute. reflexivity.
    + vm_compute. reflexivity.
    + vm_compute. reflexivity.
    + vm_compute. discriminate.
    + vm_compute. reflexivity.
    + reflexivity.
    + reflexivity.
  - vm_compute. reflexivity.
Defined.

(** ** Controller: snapshots in mock mode *)

Lemma stored_snoc (h : list op) (o : op) (name : string) :
  stored (h ++ [o]) name =
    match o with
    | snapshot_store_write n snp =>
        if String.eqb n name then Some snp else stored h name
    | _ => stored h name
    end.
Proof. unfold stored. by rewrite foldl_app. Qed.

(** What a successful CreateSnapshot in mock mode leaves behind: the store
    holds the returned snapshot under the name, and the snapshot is of the
    requested volume. *)
Lemma CreateSnapshot_mock_stored (CONF : Config) (U : Utils)
    (source_volume_id name : string) (parameters : option (gmap string string))
    (w : oracle) (h t : list op) (snp : CsiSnapshot) :
  Conf.mock_vast CONF = true →
  keeps_snapshot_store w →
  run w h (CreateSnapshot CONF U some_controller source_volume_id name parameters)
    = (Returned snp, t) →
  stored (h ++ t) name = Some snp ∧ Snapshot.source_volume_id snp = source_volume_id.
Proof.
  intros Hmock Hstore. unfold CreateSnapshot. rewrite Hmock.
  cbn [some_controller vms_session any_session Session.get_quota]. cbv zeta.
  rewrite run_bind. run_call_step.
  destruct (w h (m_get_quota source_volume_id)) as [[quota|]|exc]; [|done..].
  rewrite run_try_except, run_bind. run_call_step.
  destruct (Hstore (h ++ [m_get_quota source_volume_id]) name) as [Hwrite Hread].
  destruct (stored (h ++ [m_get_quota source_volume_id]) name) as [old|] eqn:Hold.
  - rewrite Hread. cbn beta iota zeta.
    destruct (decide (Snapshot.source_volume_id old ≠ source_volume_id)) as [|Hsame];
      [done|].
    intros [= <- <-]. split; [|by destruct (decide (Snapshot.source_volume_id old
                                                     = source_volume_id))].
    rewrite stored_snoc in Hold. unfold stored in *. rewrite foldl_app. done.
  - destruct Hread as (exc & -> & Hexc). cbn beta iota zeta. rewrite Hexc.
    rewrite run_bind. run_call_step.
    destruct (w _ utcnow) as [ts|exc']; [|done]. cbn beta iota zeta.
    rewrite run_bind. run_call_step.
    match goal with
    | |- context [w ?h' (snapshot_store_write name ?s)] =>
        destruct (Hstore h' name) as [Hw _]; rewrite (Hw s); clear Hw
    end.
    cbn. intros [= <- <-]. split; [|done].
    unfold stored. rewrite foldl_app. simpl. by rewrite String.eqb_refl.
Qed.

(** X18: In mock mode CreateSnapshot is idempotent on a host that keeps the
    fake snapshot store: once it has succeeded, the same request answers the
    same snapshot, only reading the store; the same name for another volume
    aborts with ALREADY_EXISTS, the store unchanged. *)
Theorem CreateSnapshot_mock_idempotent (CONF : Config) (U : Utils)
    (source_volume_id name : string) (parameters : option (gmap string string))
    (w : oracle) (h t : list op) (snp : CsiSnapshot) :
  Conf.mock_vast CONF = true →
  keeps_snapshot_store w →
  run w h (CreateSnapshot CONF U some_controller source_volume_id name parameters)
    = (Returned snp, t) →
  ∀ (volume_id : string) (again : option (gmap string string)) (quota : Quota.t),
    w (h ++ t) (m_get_quota volume_id) = Returned (Some quota) →
    run w (h ++ t) (CreateSnapshot CONF U some_controller volume_id name again)
      = (if decide (volume_id = source_volume_id) then Returned snp
         else Raised (Abort ALREADY_EXISTS
                        ("Snapshot name '" +:+ name +:+ "' is already taken")),
         [m_get_quota volume_id; snapshot_store_read name]).
Proof.
  intros Hmock Hstore Hfirst volume_id again quota Hquota.
  destruct (CreateSnapshot_mock_stored _ _ _ _ _ _ _ _ _ Hmock Hstore Hfirst)
    as [Hstored Hsource].
  unfold CreateSnapshot. rewrite Hmock.
  cbn [some_controller vms_session any_session Session.get_quota]. cbv zeta.
  rewrite run_bind. run_call_step. rewrite Hquota. cbn beta iota zeta.
  rewrite run_try_except, run_bind. run_call_step.
  destruct (Hstore ((h ++ t) ++ [m_get_quota volume_id]) name) as [_ Hread].
  rewrite stored_snoc, Hstored in Hread. rewrite Hread. cbn beta iota zeta.
  rewrite Hsource.
  destruct (decide (source_volume_id ≠ volume_id)),
    (decide (volume_id = source_volume_id)); try done; congruence.
Qed.

Lemma CreateSnapshot_mock_idempotent_witness :
  run mock_host
    [m_get_quota "pvc-abc"; snapshot_store_read "snapshot-1"; utcnow;
     snapshot_store_write "snapshot-1"
       {| Snapshot.size_bytes := 0; Snapshot.snapshot_id := "snapshot-1";
          Snapshot.source_volume_id := "pvc-abc";
          Snapshot.creation_time := "2024-01-01T00:00:00Z";
          Snapshot.ready_to_use := true |}]
    (CreateSnapshot mock_conf sample_utils some_controller "pvc-xyz" "snapshot-1" None)
  = (Raised (Abort ALREADY_EXISTS "Snapshot name 'snapshot-1' is already taken"),
     [m_get_quota "pvc-xyz"; snapshot_store_read "snapshot-1"]).
Proof.
  assert (Hstore : keeps_snapshot_store mock_host).
  { intros h name. split; [done|]. unfold mock_host.
    destruct (stored h name); [done|]. by eexists. }
  etransitivity.
  - apply (CreateSnapshot_mock_idempotent mock_conf sample_utils "pvc-abc"
             "snapshot-1" None mock_host [] _ _ eq_refl Hstore eq_refl
             "pvc-xyz" None quota_42 eq_refl).
  - reflexivity.
Defined.

(** ** Controller: the name a snapshot gets on the VMS *)

Lemma replace_char_absent (a b : ascii) (s : string) :
  a ≠ b → a ∉ String.list_ascii_of_string (replace_char a b s).
Proof.
  intros Hab. induction s as [|c rest IH]; simpl; [apply not_elem_of_nil|].
  apply not_elem_of_cons. split; [|done].
  destruct (Ascii.eqb_spec c a); congruence.
Qed.

Lemma replace_char_keeps_absent (a b c : ascii) (s : string) :
  c ≠ b → c ∉ String.list_ascii_of_string s → c ∉ String.list_ascii_of_string (replace_char a b s).
Proof.
  intros Hcb. induction s as [|d rest IH]; simpl; [done|].
  rewrite !not_elem_of_cons. intros [Hd Hrest]. split; [|by apply IH].
  by destruct (Ascii.eqb d a).
Qed.

(** X19: Whatever the request, the session and the name format, a snapshot
    that CreateSnapshot asks the VMS to create has a name without ':' and
    without '/'; in mock mode the VMS is asked for the quota only, and
    everything else goes to the fake snapshot store. *)
Theorem CreateSnapshot_name_sanitised (CONF : Config) (U : Utils)
    (source_volume_id name : string) (parameters : option (gmap string string))
    (w : oracle) (h : list op) :
  let issued :=
    (run w h (CreateSnapshot CONF U some_controller source_volume_id name
                parameters)).2 in
  Forall (λ o, match o with
               | m_ensure_snapshot snapshot_name _ _ =>
                   (":"%char ∉ String.list_ascii_of_string snapshot_name)
                   ∧ ("/"%char ∉ String.list_ascii_of_string snapshot_name)
               | _ => True
               end) issued
  ∧ (Conf.mock_vast CONF = true →
     Forall (λ o, match o with
                  | m_get_quota _ | snapshot_store_read _ | utcnow
                  | snapshot_store_write _ _ => True
                  | _ => False
                  end) issued).
Proof.
  split.
  - apply emits_run.
    unfold CreateSnapshot, on_ensure_snapshot_error, some_controller, any_session.
    cbn [vms_session Session.get_quota Session.ensure_snapshot Session.get_snapshot].
    apply emits_bind; [emits_steps|]. intros [quota|]; [|emits_steps].
    destruct (Conf.mock_vast CONF); [emits_steps|].
    apply emits_bind; [unfold getitem; emits_steps|]. intros snapshot_name.
    apply emits_bind; [unfold getitem; emits_steps|]. intros snapshot_namespace.
    apply emits_bind; [unfold lift; emits_steps|]. intros formatted.
    apply emits_bind; [|intros; emits_steps].
    apply emits_try_except; [|intros exc; emits_steps].
    match goal with |- emits ?P (call ?o) => refine (emits_call P o _) end. split.
    + apply replace_char_keeps_absent; [done|]. by apply replace_char_absent.
    + by apply replace_char_absent.
  - intros Hmock. apply emits_run.
    unfold CreateSnapshot, some_controller, any_session. rewrite Hmock.
    cbn [vms_session Session.get_quota].
    emits_steps.
Qed.

(** ** Controller: listing snapshots in mock mode *)

Lemma insert_by_inode_perm (d : dentry) (snaps : list dentry) :
  insert_by_inode d snaps ≡ₚ d :: snaps.
Proof.
  induction snaps as [|d' rest IH]; simpl; [done|].
  destruct (decide (d'.1 < d.1)); [|done]. rewrite IH. apply Permutation_swap.
Qed.

Lemma insert_by_inode_sorted (d : dentry) (snaps : list dentry) :
  StronglySorted inode_le snaps → StronglySorted inode_le (insert_by_inode d snaps).
Proof.
  induction 1 as [|d' rest Hrest IH Hd']; simpl; [by repeat constructor|].
  destruct (decide (d'.1 < d.1)).
  - constructor; [done|]. rewrite insert_by_inode_perm.
    constructor; [unfold inode_le; lia|done].
  - constructor; [by constructor|].
    constructor; [unfold inode_le; lia|].
    eapply Forall_impl; [exact Hd'|]. unfold inode_le. intros; lia.
Qed.

Lemma sorted_by_inode_perm (store : list dentry) : sorted_by_inode store ≡ₚ store.
Proof.
  induction store as [|d rest IH]; [done|]. simpl.
  by rewrite insert_by_inode_perm, IH.
Qed.

Lemma sorted_by_inode_sorted (store : list dentry) :
  StronglySorted inode_le (sorted_by_inode store).
Proof.
  induction store as [|d rest IH]; [constructor|]. by apply insert_by_inode_sorted.
Qed.

(** In a sorted listing the entries past an inode are a suffix. *)
Lemma sorted_later_suffix (i : Z) (snaps : list dentry) :
  StronglySorted inode_le snaps →
  ∃ before, snaps = before ++ filter (λ d : dentry, i < d.1) snaps
            ∧ Forall (λ d : dentry, d.1 ≤ i) before.
Proof.
  induction 1 as [|d rest Hrest IH Hd]; [by exists []|].
  destruct IH as (before & Heq & Hbefore).
  destruct (decide (i < d.1)).
  - exists []. split; [|done]. simpl. rewrite filter_cons_True by done. f_equal.
    clear Heq. induction Hd as [|d' rest' Hd' Hrest' IH']; [done|].
    apply StronglySorted_inv in Hrest as [? ?].
    rewrite filter_cons_True by (unfold inode_le in Hd'; lia). f_equal. by apply IH'.
  - exists (d :: before). rewrite filter_cons_False by done. simpl.
    split; [by f_equal|]. constructor; [lia|done].
Qed.

Lemma skip_to_spec (i : Z) (before later : list dentry) (start_idx k : nat) :
  Forall (λ d : dentry, d.1 ≤ i) before →
  match later with d :: _ => i < d.1 | [] => True end →
  skip_to i (before ++ later) start_idx k =
    match later, before with
    | _ :: _, _ => (k + length before)%nat
    | [], [] => start_idx
    | [], _ :: _ => (k + length before - 1)%nat
    end.
Proof.
  intros Hbefore Hlater. revert start_idx k.
  induction Hbefore as [|d before Hd Hbefore IH]; intros start_idx k; simpl.
  - destruct later as [|d later]; [done|]. simpl.
    destruct (decide (i < d.1)); [lia|done].
  - destruct (decide (i < d.1)); [lia|]. rewrite IH.
    destruct later, before; simpl; lia.
Qed.

(** Where the listing starts: at the first entry past the starting inode,
    and, when there is none, at the last entry. *)
Lemma drop_skip_to (i : Z) (snaps : list dentry) :
  StronglySorted inode_le snaps →
  let later := filter (λ d : dentry, i < d.1) snaps in
  (later ≠ [] → drop (skip_to i snaps 0 0) snaps = later)
  ∧ (later = [] → drop (skip_to i snaps 0 0) snaps = option_list (last snaps)).
Proof.
  intros Hsorted later. subst later.
  destruct (sorted_later_suffix i snaps Hsorted) as (before & Heq & Hbefore).
  remember (filter (λ d : dentry, i < d.1) snaps) as later eqn:Hl.
  assert (Hlater : match later with d :: _ => i < d.1 | [] => True end).
  { assert (Hall : Forall (λ d : dentry, i < d.1) later).
    { apply Forall_forall. intros d Hin. rewrite Hl in Hin.
      by apply list_elem_of_filter in Hin as [? _]. }
    by destruct Hall. }
  clear Hl Hsorted. subst snaps.
  rewrite (skip_to_spec _ _ _ _ _ Hbefore Hlater). split.
  - intros Hne. destruct later as [|d later']; [done|]. simpl.
    by rewrite drop_app_length.
  - intros ->. rewrite app_nil_r.
    destruct before as [|d before _] using rev_ind; [done|].
    rewrite last_snoc, length_app. simpl.
    replace (match before ++ [d] with
             | [] => 0
             | _ :: _ => length before + 1 - 1
             end)%nat with (length before) by (destruct before; simpl; lia).
    by rewrite drop_app_length.
Qed.

(** The mock listing from the entries [later] it starts at. *)
Lemma ListSnapshots_mock_from (int : string → outcome Z) (store : list dentry)
    (max_entries : Z) (starting_token source_volume_id snapshot_id : option string)
    (starting_inode : Z) :
  starting_inode_of int starting_token = Returned starting_inode →
  0 < max_entries →
  let later := filter (λ d : dentry, starting_inode < d.1) (sorted_by_inode store) in
  later ≠ [] →
  let matching := omap (to_snapshot source_volume_id snapshot_id) later in
  ListSnapshots_mock int store (Some max_entries) starting_token
    source_volume_id snapshot_id
  = Returned {|
      snapshots_next_token :=
        if decide (max_entries < Z.of_nat (length matching))
        then (λ d, pretty d.2) <$> matching !! (Z.to_nat max_entries - 1)%nat
        else None;
      snapshots_entries := fst <$> take (Z.to_nat max_entries) matching |}.
Proof.
  intros Hstart Hmax later Hlater matching.
  unfold ListSnapshots_mock. rewrite Hstart. cbv zeta.
  destruct (drop_skip_to starting_inode (sorted_by_inode store)
              (sorted_by_inode_sorted store)) as [Hdrop _].
  rewrite Hdrop by exact Hlater. clear Hdrop.
  fold later matching.
  destruct (decide (max_entries = 0)); [lia|].
  unfold slice_to. destruct (decide (0 ≤ max_entries)); [|lia].
  destruct (decide (max_entries < Z.of_nat (length matching))) as [Hmore|Hall].
  - destruct (decide (_ = 0)) as [Hzero|_]; [lia|].
    rewrite last_lookup, length_take, Nat.min_l by lia.
    rewrite lookup_take_lt by lia.
    replace (Nat.pred (Z.to_nat max_entries)) with (Z.to_nat max_entries - 1)%nat
      by lia.
    destruct (matching !! (Z.to_nat max_entries - 1)%nat) as [last_one|] eqn:Hlast;
      [done|].
    apply lookup_ge_None in Hlast. lia.
  - destruct (decide (_ = 0)) as [_|Hnonzero]; [done|]. lia.
Qed.

(** X20: A page of the mock listing.  With a positive [max_entries] and an
    entry past the starting inode, the reply holds the first [max_entries] of
    the snapshots past that inode that pass the filters, in the order of their
    inodes; it carries a token exactly when more of them remain, and the token
    is the inode of the last snapshot of the page. *)
Theorem ListSnapshots_mock_page (int : string → outcome Z) (store : list dentry)
    (max_entries : Z) (starting_token source_volume_id snapshot_id : option string)
    (starting_inode : Z) :
  starting_inode_of int starting_token = Returned starting_inode →
  0 < max_entries →
  let snaps := sorted_by_inode store in
  let later := filter (λ d : dentry, starting_inode < d.1) snaps in
  later ≠ [] →
  let matching := omap (to_snapshot source_volume_id snapshot_id) later in
  snaps ≡ₚ store
  ∧ StronglySorted inode_le snaps
  ∧ ListSnapshots_mock int store (Some max_entries) starting_token
      source_volume_id snapshot_id
    = Returned {|
        snapshots_next_token :=
          if decide (max_entries < Z.of_nat (length matching))
          then (λ d, pretty d.2) <$> matching !! (Z.to_nat max_entries - 1)%nat
          else None;
        snapshots_entries := fst <$> take (Z.to_nat max_entries) matching |}.
Proof.
  intros Hstart Hmax snaps later Hlater matching.
  split; [apply sorted_by_inode_perm|]. split; [apply sorted_by_inode_sorted|].
  by apply ListSnapshots_mock_from.
Qed.

Lemma sorted_strictly (snaps : list dentry) :
  StronglySorted inode_le snaps → NoDup (fst <$> snaps) →
  StronglySorted inode_lt snaps.
Proof.
  induction 1 as [|d rest Hrest IH Hd]; [constructor|].
  rewrite fmap_cons, NoDup_cons. intros [Hfresh Hnodup].
  constructor; [by apply IH|].
  apply Forall_forall. intros d' Hin.
  rewrite Forall_forall in Hd. specialize (Hd d' Hin).
  unfold inode_le in Hd. unfold inode_lt.
  assert (d.1 ≠ d'.1); [|lia].
  intros Heq. apply Hfresh. rewrite Heq. by apply list_elem_of_fmap_2.
Qed.

Lemma filter_none {A : Type} (P : A → Prop) `{!∀ x, Decision (P x)} (l : list A) :
  Forall (λ x, ¬ P x) l → filter P l = [].
Proof. induction 1; [done|]. by rewrite filter_cons_False. Qed.

Lemma filter_all {A : Type} (P : A → Prop) `{!∀ x, Decision (P x)} (l : list A) :
  Forall P l → filter P l = l.
Proof. induction 1; [done|]. rewrite filter_cons_True by done. by f_equal. Qed.

(** In a strictly sorted listing the entries past an entry's inode are the
    entries after it. *)
Lemma sorted_after (before after : list dentry) (d : dentry) :
  StronglySorted inode_lt (before ++ d :: after) →
  filter (λ d' : dentry, d.1 < d'.1) (before ++ d :: after) = after.
Proof.
  intros Hsorted.
  apply StronglySorted_app in Hsorted as (Hbefore & _ & Hafter).
  apply StronglySorted_cons in Hafter as [Hafter _].
  rewrite filter_app, filter_cons_False by lia.
  rewrite filter_none, filter_all; [done|done|].
  apply Forall_forall. intros d' Hin.
  pose proof (Hbefore d' d Hin ltac:(by left)) as Hlt. unfold inode_lt in Hlt. lia.
Qed.

Lemma omap_lookup_split {A B : Type} (f : A → option B) (l : list A) (k : nat)
    (y : B) :
  omap f l !! k = Some y →
  ∃ l1 x l2, l = l1 ++ x :: l2 ∧ f x = Some y ∧ omap f l2 = drop (S k) (omap f l).
Proof.
  revert k. induction l as [|x l IH]; intros k; simpl; [done|].
  destruct (f x) as [y'|] eqn:Hx.
  - destruct k as [|k]; simpl.
    + intros [= ->]. exists [], x, l. by rewrite Hx.
    + intros Hk. destruct (IH k Hk) as (l1 & x' & l2 & -> & Hx' & Hl2).
      exists (x :: l1), x', l2. by rewrite Hl2.
  - intros Hk. destruct (IH k Hk) as (l1 & x' & l2 & -> & Hx' & Hl2).
    exists (x :: l1), x', l2. by rewrite Hl2.
Qed.

(** X21: Paging through the mock listing loses and repeats nothing.  When the
    files of the store have distinct inodes and a page of [max_entries] leaves
    more matching snapshots behind, the page holds the first [max_entries] of
    them and its token is the inode of its last one; the page requested with
    that token holds exactly the next [max_entries] matching snapshots, and
    has a token exactly when still more remain. *)
Theorem ListSnapshots_mock_resume (int : string → outcome Z) (store : list dentry)
    (max_entries : Z) (starting_token source_volume_id snapshot_id : option string)
    (starting_inode : Z) (last_one : CsiSnapshot * Z) :
  NoDup (fst <$> store) →
  starting_inode_of int starting_token = Returned starting_inode →
  0 < max_entries →
  let later := filter (λ d : dentry, starting_inode < d.1) (sorted_by_inode store) in
  let matching := omap (to_snapshot source_volume_id snapshot_id) later in
  max_entries < Z.of_nat (length matching) →
  matching !! (Z.to_nat max_entries - 1)%nat = Some last_one →
  starting_inode_of int (Some (pretty last_one.2)) = Returned last_one.2 →
  ListSnapshots_mock int store (Some max_entries) starting_token
    source_volume_id snapshot_id
  = Returned {| snapshots_next_token := Some (pretty last_one.2);
                snapshots_entries := fst <$> take (Z.to_nat max_entries) matching |}
  ∧ ListSnapshots_mock int store (Some max_entries) (Some (pretty last_one.2))
      source_volume_id snapshot_id
    = Returned {|
        snapshots_next_token :=
          if decide (2 * max_entries < Z.of_nat (length matching))
          then (λ d, pretty d.2) <$> matching !! (Z.to_nat (2 * max_entries) - 1)%nat
          else None;
        snapshots_entries :=
          fst <$> take (Z.to_nat max_entries) (drop (Z.to_nat max_entries) matching) |}.
Proof.
  intros Hnodup Hstart Hmax later matching Hmore Hlast Hresume.
  assert (Hlater : later ≠ []).
  { intros Hnil. unfold matching in Hmore. rewrite Hnil in Hmore. simpl in Hmore. lia. }
  split.
  - rewrite (ListSnapshots_mock_from _ _ _ _ _ _ _ Hstart Hmax Hlater).
    fold later matching. rewrite Hlast.
    by destruct (decide (max_entries < Z.of_nat (length matching))).
  - pose proof (sorted_by_inode_sorted store) as Hsorted.
    assert (Hstrict : StronglySorted inode_lt (sorted_by_inode store)).
    { apply sorted_strictly; [done|]. by rewrite sorted_by_inode_perm. }
    destruct (sorted_later_suffix starting_inode _ Hsorted) as (before & Heq & _).
    fold later in Heq.
    destruct (omap_lookup_split _ _ _ _ Hlast) as (l1 & d & l2 & Hsplit & Hd & Hl2).
    fold matching in Hl2.
    replace (S (Z.to_nat max_entries - 1)) with (Z.to_nat max_entries) in Hl2 by lia.
    assert (Hinode : last_one.2 = d.1).
    { unfold to_snapshot in Hd. repeat case_match; simplify_eq; done. }
    assert (Hnext : filter (λ d' : dentry, last_one.2 < d'.1) (sorted_by_inode store)
                    = l2).
    { rewrite Hinode. rewrite Heq, Hsplit, (assoc_L (++)) in Hstrict |- *.
      by apply sorted_after. }
    assert (Hl2ne : l2 ≠ []).
    { intros ->. simpl in Hl2. symmetry in Hl2. apply drop_nil_inv in Hl2. lia. }
    rewrite (ListSnapshots_mock_from _ _ _ _ _ _ _ Hresume Hmax);
      rewrite Hnext; [|done].
    rewrite Hl2, length_drop, lookup_drop. f_equal. f_equal.
    + destruct (decide (max_entries < Z.of_nat (length matching - Z.to_nat max_entries)%nat)),
        (decide (2 * max_entries < Z.of_nat (length matching))); try lia; [|done].
      do 2 f_equal. lia.
Qed.

Lemma ListSnapshots_mock_page_witness :
  ListSnapshots_mock sample_int sample_store (Some 2) None None None
  = Returned {| snapshots_next_token := Some "12";
                snapshots_entries := [mock_snapshot "snap-a"; mock_snapshot "snap-b"] |}.
Proof.
  destruct (ListSnapshots_mock_page sample_int sample_store 2 None None None 0)
    as (_ & _ & Hpage).
  - reflexivity.
  - lia.
  - vm_compute. discriminate.
  - etransitivity; [exact Hpage|]. vm_compute. reflexivity.
Defined.

Lemma ListSnapshots_mock_resume_witness :
  ListSnapshots_mock sample_int sample_store (Some 1) None None None
  = Returned {| snapshots_next_token := Some "11";
                snapshots_entries := [mock_snapshot "snap-a"] |}
  ∧ ListSnapshots_mock sample_int sample_store (Some 1) (Some "11") None None
    = Returned {| snapshots_next_token := Some "12";
                  snapshots_entries := [mock_snapshot "snap-b"] |}.
Proof.
  destruct (ListSnapshots_mock_resume sample_int sample_store 1 None None None 0
              (mock_snapshot "snap-a", 11))
    as [Hfirst Hsecond].
  - by apply (bool_decide_unpack _).
  - reflexivity.
  - lia.
  - vm_compute. reflexivity.
  - vm_compute. reflexivity.
  - vm_compute. reflexivity.
  - split; (etransitivity; [eassumption|]); vm_compute; reflexivity.
Defined.

(** X22: A starting token at or past the last inode does not end the listing:
    when no file of a non-empty store has a larger inode, the loop that skips
    to the token stops on the last file, and the unfiltered, unbounded listing
    answers the snapshot with the greatest inode again, with no token. *)
Theorem ListSnapshots_mock_past_the_end (int : string → outcome Z)
    (store : list dentry) (starting_token : option string) (starting_inode : Z) :
  starting_inode_of int starting_token = Returned starting_inode →
  store ≠ [] →
  Forall (λ d : dentry, d.1 ≤ starting_inode) store →
  ∃ d, d ∈ store
       ∧ Forall (λ d' : dentry, d'.1 ≤ d.1) store
       ∧ ListSnapshots_mock int store None starting_token None None
         = Returned {| snapshots_next_token := None; snapshots_entries := [d.2] |}.
Proof.
  intros Hstart Hne Hall.
  pose proof (sorted_by_inode_perm store) as Hperm.
  pose proof (sorted_by_inode_sorted store) as Hsorted.
  destruct (drop_skip_to starting_inode _ Hsorted) as [_ Hdrop].
  assert (Hnone : filter (λ d : dentry, starting_inode < d.1) (sorted_by_inode store)
                  = []).
  { apply filter_none. rewrite Hperm. eapply Forall_impl; [exact Hall|].
    simpl. intros; lia. }
  specialize (Hdrop Hnone).
  assert (Hlast : is_Some (last (sorted_by_inode store))).
  { destruct (sorted_by_inode store) as [|d l] eqn:Hs.
    - symmetry in Hperm. apply Permutation_nil_r in Hperm. done.
    - rewrite last_lookup. apply lookup_lt_is_Some. simpl. lia. }
  destruct Hlast as [d Hlast]. exists d.
  assert (Hsplit : ∃ l, sorted_by_inode store = l ++ [d]).
  { apply last_Some in Hlast as [l ->]. by exists l. }
  destruct Hsplit as [l Hsplit].
  split; [|split].
  - rewrite <- Hperm, Hsplit. apply elem_of_app. right. by left.
  - rewrite <- Hperm, Hsplit. rewrite Hsplit in Hsorted.
    apply StronglySorted_app in Hsorted as (Hl & _ & _).
    apply Forall_app. split; [|by repeat constructor].
    apply Forall_forall. intros d' Hin. apply (Hl d' d Hin). by left.
  - unfold ListSnapshots_mock. rewrite Hstart. cbv zeta.
    rewrite Hdrop, Hlast. by destruct d.
Qed.

Lemma ListSnapshots_mock_past_the_end_witness :
  ListSnapshots_mock sample_int sample_store None (Some "13") None None
  = Returned {| snapshots_next_token := None;
                snapshots_entries := [mock_snapshot "snap-c"] |}.
Proof.
  destruct (ListSnapshots_mock_past_the_end sample_int sample_store (Some "13") 13)
    as (d & _ & _ & Hlist).
  - reflexivity.
  - discriminate.
  - by apply (bool_decide_unpack _).
  - vm_compute. reflexivity.
Defined.

(** ** Controller: deleting a volume's data through a local mount *)

(** X23: Without the trash API, once the temporary view is there it is always
    released: the view's exit is the last operation of the data deletion,
    whatever happened in between, and between entering and leaving the view
    the controller only works on its own host. *)
Theorem delete_data_releases_view (CONF : Config) (U : Utils) (path : string)
    (tenant_id : Z) (w : oracle) (h : list op) (view_policy : ViewPolicy.t)
    (nfs_server : string) (base_view : View.t) :
  let trash := m_is_trash_api_usable in
  let policy := m_ensure_view_policy (Conf.deletion_view_policy CONF) in
  let vip :=
    m_get_vip {| kw_vip_pool_name := Given (Some (Conf.deletion_vip_pool CONF));
                 kw_load_balancing := Omitted;
                 kw_tenant_id := Given (ViewPolicy.tenant_id view_policy) |} in
  let enter :=
    m_temp_view_enter (path_dirname U path) (ViewPolicy.id view_policy)
      (ViewPolicy.tenant_id view_policy) in
  w h trash = Returned false →
  w (h ++ [trash]) policy = Returned view_policy →
  w (h ++ [trash; policy]) vip = Returned nfs_server →
  w (h ++ [trash; policy; vip]) enter = Returned base_view →
  ∃ on_host,
    (run w h (_delete_data_from_storage CONF U some_controller path tenant_id)).2
      = [trash; policy; vip; enter] ++ on_host ++ [m_temp_view_exit base_view]
    ∧ Forall host_step on_host.
Proof.
  intros trash policy vip enter Htrash Hpolicy Hvip Henter.
  unfold _delete_data_from_storage, some_controller, any_session.
  cbn [vms_session Session.is_trash_api_usable Session.delete_folder
       Session.ensure_view_policy Session.get_vip Session.temp_view_enter
       Session.temp_view_exit].
  rewrite run_bind. run_call_step. fold trash. rewrite Htrash. cbn beta iota zeta.
  rewrite run_bind. run_call_step. fold policy. rewrite Hpolicy. cbn beta iota zeta.
  rewrite run_bind. run_call_step. rewrite <- (assoc_L (++) h). cbn [app].
  fold vip. rewrite Hvip. cbn beta iota zeta.
  rewrite run_bind. run_call_step. rewrite <- (assoc_L (++) h). cbn [app].
  fold enter. rewrite Henter. cbn beta iota zeta.
  rewrite run_try_finally.
  match goal with
  | |- context [run w ?h' (mbind ?f ?p)] => set (body := mbind f p); set (h4 := h')
  end.
  assert (Hhost : Forall host_step (run w h4 body).2).
  { apply emits_run. unfold body, delete_through_mount, delete_except, mount.
    emits_steps. }
  destruct (run w h4 body) as [r on_host].
  exists on_host. split; [|done].
  run_call_step. by destruct (w _ (m_temp_view_exit base_view)) as [[]|exc].
Qed.

Lemma delete_data_releases_view_witness :
  ∃ on_host,
    (run deleting_host []
       (_delete_data_from_storage sample_conf sample_utils some_controller
          "/k8s/pvc-abc" 1)).2
      = [m_is_trash_api_usable; m_ensure_view_policy "default";
         m_get_vip deletion_vip_request; m_temp_view_enter "/k8s" 3 1]
        ++ on_host ++ [m_temp_view_exit parent_view]
    ∧ Forall host_step on_host.
Proof.
  apply (delete_data_releases_view sample_conf sample_utils "/k8s/pvc-abc" 1
           deleting_host [] default_policy "10.0.0.5" parent_view);
    reflexivity.
Defined.

(** The [except] clauses of the local-mount deletion never swallow the
    exception: each ends in a [raise]. *)
Lemma delete_except_raises (U : Utils) (tmpdir volume_id : string) (exc : exn)
    (w : oracle) (h : list op) :
  ∃ exc' t, run w h (delete_except U tmpdir volume_id exc) = (Raised exc', t).
Proof.
  unfold delete_except.
  destruct (is_FileNotFoundError exc); [destruct (contains _ _); by eexists _, _|].
  destruct (is_OSError exc); [|by eexists _, _].
  rewrite run_bind. destruct (contains _ _); [|by eexists _, _].
  rewrite run_bind. run_call_step.
  destruct (w h (path_list (path_join U tmpdir volume_id))); by eexists _, _.
Qed.

(** The [try] suite of the local-mount deletion when it ran to its end. *)
Lemma delete_through_mount_returned (CONF : Config) (U : Utils)
    (mount_spec tmpdir volume_id : string) (w : oracle) (h t : list op)
    (mounted : bool) :
  run w h (delete_through_mount CONF U mount_spec tmpdir volume_id)
    = (Returned (mounted, Returned tt), t) →
  mounted = true
  ∧ ∃ removal,
      t = [cmd_mount (mount_flags_of CONF (join "," (Conf.mount_options CONF)))
             mount_spec tmpdir;
           path_exists (path_join U tmpdir ".csi-unmounted");
           path_exists (path_join U tmpdir volume_id)] ++ removal
      ∧ (removal = [] ∨ removal = [path_delete (path_join U tmpdir volume_id)]).
Proof.
  unfold delete_through_mount. rewrite run_bind, run_attempt, run_bind.
  unfold mount. rewrite run_try_except. run_call_step.
  destruct (w h (cmd_mount _ _ _)) as [[]|exc].
  2:{ destruct (is_ProcessExecutionError exc); simpl; by intros [=]. }
  cbn beta iota zeta. rewrite run_bind. run_call_step.
  destruct (w _ (path_exists (path_join U tmpdir ".csi-unmounted")))
    as [[]|exc]; [by intros [=]| |by intros [=]].
  cbn beta iota zeta. cbn [run fst snd app]. rewrite run_bind, run_attempt, run_bind.
  run_call_step.
  destruct (w _ (path_exists (path_join U tmpdir volume_id))) as [[]|exc];
    cbn beta iota zeta.
  - run_call_step. destruct (w _ (path_delete _)) as [[]|exc]; cbn; [|by intros [=]].
    intros [= <- <-]. split; [done|]. eexists. split; [done|]. by right.
  - cbn. intros [= <- <-]. split; [done|]. exists []. split; [done|]. by left.
  - cbn. by intros [=].
Qed.

(** X24: A data deletion that succeeds has done all of its work.  Either the
    trash API took the folder and nothing else was issued; or the view policy,
    an address of the deletion pool and a temporary view of the parent
    directory were obtained, a temporary directory with the sentinel was made
    and the view mounted on it, the sentinel was seen to be hidden by the
    mount, the volume's directory was deleted unless it was gone already, and
    then the mount was undone, the sentinel and the temporary directory
    removed and the view released, in this order. *)
Theorem delete_data_success (CONF : Config) (U : Utils) (path : string)
    (tenant_id : Z) (w : oracle) (h t : list op) :
  run w h (_delete_data_from_storage CONF U some_controller path tenant_id)
    = (Returned tt, t) →
  (w h m_is_trash_api_usable = Returned true
   ∧ t = [m_is_trash_api_usable; m_delete_folder path tenant_id])
  ∨ (w h m_is_trash_api_usable = Returned false
     ∧ ∃ (view_policy : ViewPolicy.t) (nfs_server : string) (base_view : View.t)
         (tmpdir : string) (removal : list op),
         let sentinel := path_join U tmpdir ".csi-unmounted" in
         let data := path_join U tmpdir (path_name U path) in
         t = [m_is_trash_api_usable;
              m_ensure_view_policy (Conf.deletion_view_policy CONF);
              m_get_vip
                {| kw_vip_pool_name := Given (Some (Conf.deletion_vip_pool CONF));
                   kw_load_balancing := Omitted;
                   kw_tenant_id := Given (ViewPolicy.tenant_id view_policy) |};
              m_temp_view_enter (path_dirname U path) (ViewPolicy.id view_policy)
                (ViewPolicy.tenant_id view_policy);
              mkdtemp; path_touch sentinel;
              cmd_mount (mount_flags_of CONF (join "," (Conf.mount_options CONF)))
                (nfs_server +:+ ":" +:+ View.alias base_view) tmpdir;
              path_exists sentinel; path_exists data]
             ++ removal
             ++ [cmd_umount_v tmpdir; os_remove sentinel; os_rmdir tmpdir;
                 m_temp_view_exit base_view]
         ∧ (removal = [] ∨ removal = [path_delete data])).
Proof.
  unfold _delete_data_from_storage, some_controller, any_session.
  cbn [vms_session Session.is_trash_api_usable Session.delete_folder
       Session.ensure_view_policy Session.get_vip Session.temp_view_enter
       Session.temp_view_exit].
  intros Hrun.
  apply run_bind_returned in Hrun as (usable & t1 & t2 & Husable & Hrun & ->).
  assert (Hanswer : w h m_is_trash_api_usable = Returned usable)
    by (revert Husable; run_call_step; congruence).
  call_returned Husable.
  destruct usable.
  { left. call_returned Hrun. done. }
  right. split; [done|]. clear Hanswer.
  apply run_bind_returned in Hrun as (view_policy & ? & ? & H1 & Hrun & ->).
  call_returned H1.
  apply run_bind_returned in Hrun as (nfs_server & ? & ? & H1 & Hrun & ->).
  call_returned H1.
  apply run_bind_returned in Hrun as (base_view & ? & ? & H1 & Hrun & ->).
  call_returned H1.
  apply run_try_finally_returned in Hrun as (? & ? & Hrun & Hexit & ->).
  call_returned Hexit.
  apply run_bind_returned in Hrun as (tmpdir & ? & ? & H1 & Hrun & ->).
  call_returned H1.
  apply run_bind_returned in Hrun as ([] & ? & ? & H1 & Hrun & ->).
  call_returned H1.
  apply run_bind_returned in Hrun as ([mounted r] & ? & ? & Hmount & Hrun & ->).
  apply run_try_finally_returned in Hrun as (? & ? & Hexcept & Hclean & ->).
  destruct r as [[]|exc].
  2:{ match type of Hexcept with
      | run _ ?h' _ = _ =>
          destruct (delete_except_raises U tmpdir (path_name U path) exc w h')
            as (exc' & t' & Hraises)
      end.
      congruence. }
  injection Hexcept as <-.
  apply delete_through_mount_returned in Hmount as (-> & removal & -> & Hremoval).
  apply run_bind_returned in Hclean as ([] & ? & ? & H1 & Hclean & ->).
  call_returned H1.
  apply run_bind_returned in Hclean as ([] & ? & ? & H1 & Hclean & ->).
  call_returned H1.
  call_returned Hclean.
  exists view_policy, nfs_server, base_view, tmpdir, removal.
  split; [|done]. cbn [app]. by rewrite <- ?(assoc_L (++)), ?app_nil_r.
Qed.

Lemma delete_data_success_witness :
  run deleting_host []
    (_delete_data_from_storage sample_conf sample_utils some_controller
       "/k8s/pvc-abc" 1)
  = (Returned tt, deleting_trace)
  ∧ ((deleting_host [] m_is_trash_api_usable = Returned true
      ∧ deleting_trace = [m_is_trash_api_usable; m_delete_folder "/k8s/pvc-abc" 1])
     ∨ (deleting_host [] m_is_trash_api_usable = Returned false
        ∧ ∃ (view_policy : ViewPolicy.t) (nfs_server : string) (base_view : View.t)
            (tmpdir : string) (removal : list op),
            deleting_trace
            = [m_is_trash_api_usable; m_ensure_view_policy "default";
               m_get_vip
                 {| kw_vip_pool_name := Given (Some "vp1");
                    kw_load_balancing := Omitted;
                    kw_tenant_id := Given (ViewPolicy.tenant_id view_policy) |};
               m_temp_view_enter "/k8s" (ViewPolicy.id view_policy)
                 (ViewPolicy.tenant_id view_policy);
               mkdtemp; path_touch (tmpdir +:+ "/.csi-unmounted");
               cmd_mount [] (nfs_server +:+ ":" +:+ View.alias base_view) tmpdir;
               path_exists (tmpdir +:+ "/.csi-unmounted");
               path_exists (tmpdir +:+ "/pvc-abc")]
              ++ removal
              ++ [cmd_umount_v tmpdir; os_remove (tmpdir +:+ "/.csi-unmounted");
                  os_rmdir tmpdir; m_temp_view_exit base_view]
            ∧ (removal = [] ∨ removal = [path_delete (tmpdir +:+ "/pvc-abc")]))).
Proof.
  split; [vm_compute; reflexivity|].
  apply (delete_data_success sample_conf sample_utils "/k8s/pvc-abc" 1
           deleting_host [] deleting_trace).
  vm_compute. reflexivity.
Defined.

(** ** Node: publishing on a fresh target *)

(** X25: Once NodePublishVolume has the device to mount, a target that is no
    directory, or a directory with no mount on it, is set up in three steps
    and in this order: the directory is made, the sidecar is written with the
    volume's id and the ephemeral flag, the device is mounted.  The first step
    that fails ends the RPC with nothing undone; a failing mount command is
    reported as [MountFailed].  The mount options are those of the capability
    or, when it has none, those of the volume context, and "ro" comes first
    for a read-only request. *)
Theorem NodePublishVolume_fresh_target (CONF : Config) (U : Utils)
    (fresh_controller : Controller) (volume_id target_path : string)
    (volume_capability : option VolumeCapability)
    (publish_context : option (gmap string string)) (readonly : bool)
    (volume_context : option (gmap string string)) (w : oracle)
    (mount_spec : string) (t0 inspections : list op) :
  run w [] (publish_source CONF U fresh_controller volume_id volume_capability
              publish_context (default ∅ volume_context))
    = (Returned mount_spec, t0) →
  (inspections = [path_is_dir target_path]
   ∧ w t0 (path_is_dir target_path) = Returned false)
  ∨ (inspections = [path_is_dir target_path; get_mount target_path]
     ∧ w t0 (path_is_dir target_path) = Returned true
     ∧ w (t0 ++ [path_is_dir target_path]) (get_mount target_path) = Returned None) →
  let publish := NodePublishVolume CONF U fresh_controller volume_id target_path
                   volume_capability publish_context readonly volume_context in
  let options :=
    mount_flags_of CONF
      (join "," (publish_flags U volume_capability readonly (default ∅ volume_context))) in
  let mkdir := path_mkdir target_path in
  let meta :=
    json_dump (sidecar U target_path)
      (JObj [("volume_id", JStr volume_id);
             ("is_ephemeral", ephemeral_flag (default ∅ volume_context))]) in
  let mnt := cmd_mount options mount_spec target_path in
  let before := t0 ++ inspections in
  run w [] publish =
    match w before mkdir with
    | Raised exc => (Raised exc, before ++ [mkdir])
    | Returned _ =>
        match w (before ++ [mkdir]) meta with
        | Raised exc => (Raised exc, before ++ [mkdir; meta])
        | Returned _ =>
            (match w (before ++ [mkdir; meta]) mnt with
             | Returned _ => Returned tt
             | Raised (ProcessExecutionError stderr _) =>
                 Raised (MountFailed stderr mount_spec target_path options)
             | Raised exc => Raised exc
             end, before ++ [mkdir; meta; mnt])
        end
    end
  ∧ (readonly = true → ∃ others, options = "ro" :: others).
Proof.
  intros Hsource Htarget publish options mkdir meta mnt before.
  assert (Hcreate : ∀ h,
    run w h (call mkdir;; call meta;;
             mount CONF mount_spec target_path
               (join "," (publish_flags U volume_capability readonly
                            (default ∅ volume_context))))
    = match w h mkdir with
      | Raised exc => (Raised exc, [mkdir])
      | Returned _ =>
          match w (h ++ [mkdir]) meta with
          | Raised exc => (Raised exc, [mkdir; meta])
          | Returned _ =>
              (match w (h ++ [mkdir; meta]) mnt with
               | Returned _ => Returned tt
               | Raised (ProcessExecutionError stderr _) =>
                   Raised (MountFailed stderr mount_spec target_path options)
               | Raised exc => Raised exc
               end, [mkdir; meta; mnt])
          end
      end).
  { intros h. rewrite run_bind. run_call_step.
    destruct (w h mkdir) as [[]|exc]; [|done]. cbn beta iota zeta.
    rewrite run_bind. run_call_step.
    destruct (w (h ++ [mkdir]) meta) as [[]|exc]. 2:{ done. } cbn beta iota zeta.
    unfold mount. fold options. rewrite run_try_except. run_call_step.
    rewrite <- (assoc_L (++) h [mkdir] [meta]). cbn [app]. fold mnt.
    destruct (w (h ++ [mkdir; meta]) mnt) as [[]|exc]; [done|].
    by destruct exc. }
  split.
  - unfold publish, NodePublishVolume. rewrite run_bind, Hsource.
    cbn beta iota zeta. unfold publish_target. rewrite run_bind. run_call_step.
    cbn [app]. fold mkdir meta.
    destruct Htarget as [[-> Hdir]|(-> & Hdir & Hmount)]; rewrite Hdir;
      cbn beta iota zeta; cbn [negb].
    + rewrite Hcreate. subst before.
      destruct (w (t0 ++ [path_is_dir target_path]) mkdir) as [[]|exc];
        rewrite <- ?(assoc_L (++) t0); cbn [app]; [|done].
      destruct (w _ meta) as [[]|exc]; rewrite <- ?(assoc_L (++) t0); cbn [app]; done.
    + rewrite run_bind. run_call_step. rewrite Hmount. cbn beta iota zeta.
      rewrite Hcreate. subst before.
      rewrite <- ?(assoc_L (++) t0). cbn [app].
      destruct (w (t0 ++ [path_is_dir target_path; get_mount target_path]) mkdir)
        as [[]|exc]; rewrite <- ?(assoc_L (++) t0); cbn [app]; [|done].
      destruct (w _ meta) as [[]|exc]; rewrite <- ?(assoc_L (++) t0); cbn [app]; done.
  - intros ->. unfold options, publish_flags, mount_flags_of. cbn [app].
    match goal with
    | |- context [join "," ("ro" :: ?l)] =>
        assert (Hro : ∃ pieces, split_on "," (join "," ("ro" :: l)) = "ro" :: pieces)
    end.
    { match goal with
      | |- ∃ _, split_on _ (join _ (_ :: ?l)) = _ => destruct l as [|f fs]
      end.
      - by eexists.
      - change (join "," ("ro" :: f :: fs)) with ("ro" +:+ String "," (join "," (f :: fs))).
        rewrite split_on_app by done. by eexists. }
    destruct Hro as [pieces ->]. rewrite fmap_cons.
    destruct (Conf.mock_vast CONF); cbn [app]; rewrite filter_cons_True by done;
      by eexists.
Qed.

Lemma NodePublishVolume_fresh_target_witness :
  run fresh_host []
    (NodePublishVolume sample_conf sample_utils some_controller "pvc-abc" pod_target
       (Some writer_capability) (Some node_publish_context) true None)
  = (Returned tt,
     [path_is_dir pod_target; path_mkdir pod_target;
      json_dump (pod_target +:+ "/.vast-csi-meta")
        (JObj [("volume_id", JStr "pvc-abc"); ("is_ephemeral", JObj [])]);
      cmd_mount ["ro"] "10.0.0.5:/k8s/pvc-abc" pod_target]).
Proof.
  pose proof (NodePublishVolume_fresh_target sample_conf sample_utils some_controller
                "pvc-abc" pod_target (Some writer_capability)
                (Some node_publish_context) true None fresh_host
                "10.0.0.5:/k8s/pvc-abc" [] [path_is_dir pod_target]
                eq_refl (or_introl (conj eq_refl eq_refl))) as [Hrun _].
  etransitivity; [exact Hrun|]. vm_compute. reflexivity.
Defined.

(** ** Node: publishing an ephemeral volume *)

(** X26: For a volume context that marks the volume as ephemeral, the device
    to mount does not depend on the request's publish context, which is
    replaced by the one the fresh controller answers.  Nothing is created
    unless the context holds the pod's uid, name and namespace, the size, if
    given, parses, and the name format applies: otherwise the RPC ends in the
    exception of that step with no operation issued.  When something is
    issued, the first operation is the creation of the volume, under the
    request's volume id, with the formatted name as its ephemeral name, the
    parsed size as its capacity and the volume context as its parameters. *)
Theorem NodePublishVolume_ephemeral_volume (CONF : Config) (U : Utils)
    (fresh_controller : Controller) (volume_id : string)
    (volume_capability : option VolumeCapability)
    (publish_context other_context : option (gmap string string))
    (volume_context : gmap string string) (w : oracle) (h : list op) :
  volume_context !! "csi.storage.k8s.io/ephemeral" = Some "true" →
  let source := publish_source CONF U fresh_controller volume_id volume_capability in
  source publish_context volume_context = source other_context volume_context
  ∧ match run w h (source publish_context volume_context) with
    | (r, []) => ∃ exc, r = Raised exc
    | (_, create :: _) =>
        ∃ pod_uid pod_name pod_namespace eph_volume_name,
          volume_context !! "csi.storage.k8s.io/pod.uid" = Some pod_uid
          ∧ volume_context !! "csi.storage.k8s.io/pod.name" = Some pod_name
          ∧ volume_context !! "csi.storage.k8s.io/pod.namespace" = Some pod_namespace
          ∧ format_name U
              (default (Conf.name_fmt CONF) (volume_context !! "eph_volume_name_fmt"))
              pod_namespace pod_name pod_uid = Returned eph_volume_name
          ∧ ∃ capacity_range,
              create = inline_CreateVolume volume_id eph_volume_name capacity_range
                         volume_context
              ∧ match volume_context !! "size" with
                | Some size =>
                    ∃ n, parse_quantity U size = Returned n ∧ capacity_range = Some n
                | None => capacity_range = None
                end
    end.
Proof.
  intros Hephemeral source.
  assert (Hflag : truthy (ephemeral_flag volume_context) = true).
  { unfold ephemeral_flag. destruct (decide (volume_context = ∅)) as [->|_].
    - by rewrite lookup_empty in Hephemeral.
    - simpl. by apply bool_decide_eq_true. }
  unfold source, publish_source. rewrite Hflag. split; [done|].
  rewrite !run_bind.
  destruct (volume_context !! "size") as [size|] eqn:Hsize.
  - rewrite run_bind, run_lift.
    destruct (parse_quantity U size) as [n|exc] eqn:Hparse; [|by eexists].
    cbn beta iota zeta. cbn [run app]. rewrite run_bind, run_getitem.
    destruct (volume_context !! "csi.storage.k8s.io/pod.uid") as [pod_uid|];
      [|by eexists].
    cbn beta iota zeta. rewrite run_bind, run_getitem.
    destruct (volume_context !! "csi.storage.k8s.io/pod.name") as [pod_name|];
      [|by eexists].
    cbn beta iota zeta. rewrite run_bind, run_getitem.
    destruct (volume_context !! "csi.storage.k8s.io/pod.namespace")
      as [pod_namespace|]; [|by eexists].
    cbn beta iota zeta. rewrite run_bind, run_lift.
    destruct (format_name U _ pod_namespace pod_name pod_uid)
      as [eph_volume_name|exc] eqn:Hformat; [|by eexists].
    cbn beta iota zeta. rewrite run_bind. run_call_step.
    destruct (w _ (inline_CreateVolume _ _ _ _)) as [[]|exc].
    + cbn beta iota zeta. rewrite run_bind.
      destruct (run w _ (ControllerPublishVolume _ _ _ _ _ _ _)) as [[resp|exc] t1].
      * cbn beta iota zeta. cbn [run app].
        destruct (run w _ _) as [r t2]. cbn [app].
        exists pod_uid, pod_name, pod_namespace, eph_volume_name.
        repeat (split; [done|]). eexists. split; [done|]. by exists n.
      * exists pod_uid, pod_name, pod_namespace, eph_volume_name.
        repeat (split; [done|]). eexists. split; [done|]. by exists n.
    + exists pod_uid, pod_name, pod_namespace, eph_volume_name.
      repeat (split; [done|]). eexists. split; [done|]. by exists n.
  - cbn [run app]. rewrite run_bind, run_getitem.
    destruct (volume_context !! "csi.storage.k8s.io/pod.uid") as [pod_uid|];
      [|by eexists].
    cbn beta iota zeta. rewrite run_bind, run_getitem.
    destruct (volume_context !! "csi.storage.k8s.io/pod.name") as [pod_name|];
      [|by eexists].
    cbn beta iota zeta. rewrite run_bind, run_getitem.
    destruct (volume_context !! "csi.storage.k8s.io/pod.namespace")
      as [pod_namespace|]; [|by eexists].
    cbn beta iota zeta. rewrite run_bind, run_lift.
    destruct (format_name U _ pod_namespace pod_name pod_uid)
      as [eph_volume_name|exc] eqn:Hformat; [|by eexists].
    cbn beta iota zeta. rewrite run_bind. run_call_step.
    destruct (w _ (inline_CreateVolume _ _ _ _)) as [[]|exc].
    + cbn beta iota zeta. rewrite run_bind.
      destruct (run w _ (ControllerPublishVolume _ _ _ _ _ _ _)) as [[resp|exc] t1].
      * cbn beta iota zeta. cbn [run app].
        destruct (run w _ _) as [r t2]. cbn [app].
        exists pod_uid, pod_name, pod_namespace, eph_volume_name.
        repeat (split; [done|]). by eexists.
      * exists pod_uid, pod_name, pod_namespace, eph_volume_name.
        repeat (split; [done|]). by eexists.
    + exists pod_uid, pod_name, pod_namespace, eph_volume_name.
      repeat (split; [done|]). by eexists.
Qed.

Lemma NodePublishVolume_ephemeral_volume_witness :
  (run vms_down []
     (publish_source sample_conf sample_utils some_controller "pvc-eph" None None
        ephemeral_pod_context)).2
  = [inline_CreateVolume "pvc-eph" "csi:default:web-0:uid-1" None
       ephemeral_pod_context]
  ∧ publish_source sample_conf sample_utils some_controller "pvc-eph" None None
      ephemeral_pod_context
    = publish_source sample_conf sample_utils some_controller "pvc-eph" None
        (Some node_publish_context) ephemeral_pod_context.
Proof.
  split; [vm_compute; reflexivity|].
  apply (NodePublishVolume_ephemeral_volume sample_conf sample_utils some_controller
           "pvc-eph" None None (Some node_publish_context) ephemeral_pod_context
           vms_down []).
  reflexivity.
Defined.

(** ** Node: the sidecar from publishing to unpublishing *)

(** X27: The sidecar NodePublishVolume writes for a volume is read back by
    NodeUnpublishVolume as intended: when the file holds that document, the
    volume is deleted through a fresh controller exactly when it was published
    with "csi.storage.k8s.io/ephemeral" set to "true", and it is the published
    volume that is deleted; for any other context (an empty one included)
    nothing is deleted. *)
Theorem NodeUnpublishVolume_sidecar_round_trip (CONF : Config) (U : Utils)
    (fresh_controller : Controller) (volume_id target_path : string)
    (volume_context : gmap string string) (w : oracle) (h : list op) :
  let side := sidecar U target_path in
  let written :=
    JObj [("volume_id", JStr volume_id);
          ("is_ephemeral", ephemeral_flag volume_context)] in
  w h (path_exists side) = Returned true →
  w (h ++ [path_exists side]) (json_load side) = Returned written →
  run w h (delete_if_ephemeral CONF U fresh_controller target_path) =
    if bool_decide (volume_context !! "csi.storage.k8s.io/ephemeral" = Some "true")
    then
      let '(r, t) :=
        run w (h ++ [path_exists side; json_load side])
          (DeleteVolume CONF U fresh_controller volume_id) in
      (r, path_exists side :: json_load side :: t)
    else (Returned tt, [path_exists side; json_load side]).
Proof.
  intros side written Hthere Hload. unfold delete_if_ephemeral. fold side.
  rewrite run_bind. run_call_step. rewrite Hthere. cbn beta iota zeta.
  rewrite run_bind. run_call_step. rewrite Hload. cbn beta iota zeta.
  assert (Hflag : truthy (ephemeral_flag volume_context)
                  = bool_decide (volume_context !! "csi.storage.k8s.io/ephemeral"
                                 = Some "true")).
  { unfold ephemeral_flag. destruct (decide (volume_context = ∅)) as [->|]; [|done].
    simpl. by rewrite lookup_empty. }
  unfold written, meta_is_ephemeral. cbn [dict_get String.eqb Ascii.eqb Bool.eqb from_option].
  rewrite Hflag. simpl run at 1. cbn [app].
  destruct (bool_decide _); [|done].
  cbn [meta_volume_id dict_get String.eqb Ascii.eqb Bool.eqb].
  rewrite <- (assoc_L (++) h). cbn [app].
  change (Ret volume_id ≫= λ v, DeleteVolume CONF U fresh_controller v)
    with (DeleteVolume CONF U fresh_controller volume_id).
  by destruct (run w _ (DeleteVolume CONF U fresh_controller volume_id)).
Qed.

Lemma NodeUnpublishVolume_sidecar_round_trip_witness :
  run published_host []
    (delete_if_ephemeral sample_conf sample_utils some_controller pod_target)
  = (Returned tt,
     [path_exists (pod_target +:+ "/.vast-csi-meta");
      json_load (pod_target +:+ "/.vast-csi-meta"); m_get_quota "pvc-abc"]).
Proof.
  etransitivity.
  - apply (NodeUnpublishVolume_sidecar_round_trip sample_conf sample_utils
             some_controller "pvc-abc" pod_target ephemeral_context
             published_host []).
    + reflexivity.
    + reflexivity.
  - vm_compute. reflexivity.
Defined.

(** ** Node: unpublishing with no attempt allowed *)

(** X28: With [unmount_attempts] at zero or below the unmount loop has no
    iteration, and its [else] suite runs: unpublishing an existing target
    aborts with UNKNOWN ("Stuck in unmount loop ...") without looking at the
    mount table, running [umount] or removing anything, mounted or not. *)
Theorem NodeUnpublishVolume_no_attempts (CONF : Config) (U : Utils)
    (fresh_controller : Controller) (target_path : string) (w : oracle) :
  Conf.unmount_attempts CONF ≤ 0 →
  w [] (path_exists target_path) = Returned true →
  run w [] (NodeUnpublishVolume CONF U fresh_controller target_path)
    = (Raised (Abort UNKNOWN
                 ("Stuck in unmount loop of " +:+ target_path
                  +:+ " too many times ("
                  +:+ pretty (Conf.unmount_attempts CONF) +:+ ")")),
       [path_exists target_path]).
Proof.
  intros Hattempts Hthere. unfold NodeUnpublishVolume.
  rewrite run_bind. run_call_step. rewrite Hthere. cbn beta iota zeta. cbn [negb].
  replace (Z.to_nat (Conf.unmount_attempts CONF)) with O by lia.
  done.
Qed.

Lemma NodeUnpublishVolume_no_attempts_witness :
  run stuck_host []
    (NodeUnpublishVolume impatient_conf sample_utils some_controller pod_target)
  = (Raised (Abort UNKNOWN
       "Stuck in unmount loop of /var/lib/kubelet/pods/P/vol too many times (0)"),
     [path_exists pod_target]).
Proof.
  etransitivity.
  - apply (NodeUnpublishVolume_no_attempts impatient_conf sample_utils
             some_controller pod_target stuck_host); [simpl; lia|reflexivity].
  - vm_compute. reflexivity.
Defined.
